(** * Drone delivery management: dispatch and lifecycle engine

    A shallow embedding of the Go service (repositories over the SQLite
    schema, the principal gate and the three gRPC servers) together with the
    properties of its specification.

    Conventions of the embedding:
    - Go [int64] values are [Z]; Go [float64] values are IEEE binary64
      primitive floats; Go strings are byte strings ([string]).
    - A table is a finite map from its primary key to the remaining columns.
    - Every repository method runs one SQL statement; a statement either
      fails without effect or takes effect as a whole.
    - What the libraries compute from tables of their own is a parameter
      wherever it is used: sin, cos and atan2, the case table of package
      unicode, the LIKE operator and the date functions of SQLite, and
      [time.Parse]. *)

From Stdlib Require Import ZArith String Ascii List Bool Lia.
From Stdlib Require Import Floats DecimalString DecimalZ.
From stdpp Require Import gmap strings sorting.

Set Warnings "-inexact-float".
Local Open Scope string_scope.
Local Open Scope Z_scope.

(* ===================================================================== *)
(** * Library functions used by the service *)
(* ===================================================================== *)

(** ** package strconv *)
Module strconv.

Inductive NumError := ErrSyntax | ErrRange.

(** [strconv.FormatInt(n, 10)], also [fmt.Sprintf("%d", n)] and SQLite's
    conversion of an INTEGER to TEXT. *)
Definition FormatInt (n : Z) : string :=
  NilZero.string_of_int (Z.to_int n).

(** [strconv.ParseInt(s, 10, 64)]: an optional sign, then at least one
    decimal digit and nothing else; the value must fit in an [int64]. *)
Definition ParseInt (s : string) : NumError + Z :=
  match s with
  | EmptyString => inl ErrSyntax
  | String c rest =>
      let neg := Ascii.eqb c "-" in
      let digits := if Ascii.eqb c "+" || neg then rest else s in
      match digits with
      | EmptyString => inl ErrSyntax
      | _ =>
          match NilEmpty.uint_of_string digits with
          | None => inl ErrSyntax
          | Some u =>
              let un := Z.of_uint u in
              if negb neg && (2 ^ 63 <=? un) then inl ErrRange
              else if neg && (2 ^ 63 <? un) then inl ErrRange
              else inr (if neg then - un else un)
          end
      end
  end.

End strconv.

(** ** package unicode/utf8 *)
Module utf8.

Definition RuneError : Z := 65533.
Definition RuneSelf : Z := 128.
Definition MaxRune : Z := 1114111.

Definition byte (c : ascii) : Z := Z.of_N (N_of_ascii c).
Definition chr (z : Z) : ascii := ascii_of_N (Z.to_N z).

Definition between (lo hi : Z) (c : ascii) : bool :=
  (lo <=? byte c) && (byte c <=? hi).

(** The second byte that the first byte [a] of a sequence of three or four
    bytes accepts: no overlong encoding, no surrogate, nothing above
    [MaxRune]. *)
Definition second (a b : ascii) : bool :=
  let x := byte a in
  if x =? 224 then between 160 191 b
  else if x =? 237 then between 128 159 b
  else if x =? 240 then between 144 191 b
  else if x =? 244 then between 128 143 b
  else between 128 191 b.

Definition low6 (c : ascii) : Z := Z.land (byte c) 63.

(** The runes of a text as [for _, c := range s] yields them, which is
    [DecodeRuneInString] again and again: a byte that starts no valid
    sequence is [RuneError] and the scan resumes at the next byte. *)
Fixpoint runes (s : string) : list Z :=
  match s with
  | EmptyString => []
  | String a s1 =>
      if byte a <? RuneSelf then byte a :: runes s1
      else
        let invalid := RuneError :: runes s1 in
        match s1 with
        | EmptyString => invalid
        | String b s2 =>
            if between 194 223 a then
              if between 128 191 b
              then Z.lor (Z.shiftl (Z.land (byte a) 31) 6) (low6 b) :: runes s2
              else invalid
            else
              match s2 with
              | EmptyString => invalid
              | String c s3 =>
                  if between 224 239 a then
                    if second a b && between 128 191 c
                    then Z.lor (Z.shiftl (Z.land (byte a) 15) 12)
                           (Z.lor (Z.shiftl (low6 b) 6) (low6 c)) :: runes s3
                    else invalid
                  else
                    match s3 with
                    | EmptyString => invalid
                    | String d s4 =>
                        if between 240 244 a && second a b
                           && between 128 191 c && between 128 191 d
                        then Z.lor (Z.shiftl (Z.land (byte a) 7) 18)
                               (Z.lor (Z.shiftl (low6 b) 12)
                                  (Z.lor (Z.shiftl (low6 c) 6) (low6 d))) :: runes s4
                        else invalid
                    end
              end
        end
  end.

(** [utf8.AppendRune]: a rune that is no code point, a surrogate among
    them, is written as [RuneError]. *)
Definition AppendRune (r : Z) : string :=
  let tail n := chr (Z.lor 128 (Z.land (Z.shiftr r n) 63)) in
  if (0 <=? r) && (r <=? 127) then String (chr r) EmptyString
  else if (0 <=? r) && (r <=? 2047)
  then String (chr (Z.lor 192 (Z.shiftr r 6))) (String (tail 0) EmptyString)
  else if (r <? 0) || (MaxRune <? r) || ((55296 <=? r) && (r <=? 57343))
  then String (chr 239) (String (chr 191) (String (chr 189) EmptyString))
  else if r <=? 65535
  then String (chr (Z.lor 224 (Z.shiftr r 12)))
         (String (tail 6) (String (tail 0) EmptyString))
  else String (chr (Z.lor 240 (Z.shiftr r 18)))
         (String (tail 12) (String (tail 6) (String (tail 0) EmptyString))).

End utf8.

(** ** package unicode *)
Module unicode.

(** The case table [unicode.CaseRanges] belongs to the Go release and is
    not part of the sources: [To_lower r] stands for [To(LowerCase, r)] on
    the runes beyond ASCII, whatever the table says. *)
Class CaseRanges := { To_lower : Z -> Z }.

Definition ToLower `{CaseRanges} (r : Z) : Z :=
  if r <=? 127
  then if (65 <=? r) && (r <=? 90) then r + 32 else r
  else To_lower r.

End unicode.

(** ** package strings *)
Module strings.

Definition lower_byte (c : ascii) : ascii :=
  let n := N_of_ascii c in
  if ((65 <=? n) && (n <=? 90))%N then ascii_of_N (n + 32) else c.

Definition isASCII (s : string) : bool :=
  forallb (fun c => utf8.byte c <? utf8.RuneSelf) (list_ascii_of_string s).

(** [strings.Map]: every rune of the text is mapped and written again, a
    negative result dropping it. A byte that does not decode is mapped as
    [RuneError] and so written as three bytes; a text of which no rune
    changes comes back as it is. *)
Definition Map (mapping : Z -> Z) (s : string) : string :=
  foldr (fun c out =>
           let r := mapping c in
           if r <? 0 then out else (utf8.AppendRune r ++ out)%string)
        EmptyString (utf8.runes s).

(** [strings.ToLower]: byte by byte on ASCII text, rune by rune through
    [unicode.ToLower] otherwise. *)
Definition ToLower `{unicode.CaseRanges} (s : string) : string :=
  if isASCII s
  then string_of_list_ascii (map lower_byte (list_ascii_of_string s))
  else Map unicode.ToLower s.

(** White space among the ASCII bytes: tab, line feed, vertical tab, form
    feed, carriage return, space. *)
Definition is_space (c : ascii) : bool :=
  let n := N_of_ascii c in
  (((9 <=? n) && (n <=? 13)) || (n =? 32))%N.

(** [strings.SplitN(s, sep, 2)] for a one-byte separator: the text before
    the first separator and the text after it, or [s] alone. *)
Fixpoint cut (sep : ascii) (s : string) : option (string * string) :=
  match s with
  | EmptyString => None
  | String c s' =>
      if Ascii.eqb c sep then Some (EmptyString, s')
      else match cut sep s' with
           | Some (a, b) => Some (String c a, b)
           | None => None
           end
  end.

Definition SplitN2 (s : string) (sep : ascii) : list string :=
  match cut sep s with
  | Some (a, b) => [a; b]
  | None => [s]
  end.

(** [strings.Split(s, sep)] for a one-byte separator. *)
Fixpoint Split (s : string) (sep : ascii) : list string :=
  match s with
  | EmptyString => [EmptyString]
  | String c s' =>
      if Ascii.eqb c sep then EmptyString :: Split s' sep
      else match Split s' sep with
           | h :: t => String c h :: t
           | [] => [String c EmptyString]
           end
  end.

(** [strings.TrimSpace]. Beyond the six ASCII bytes, white space as
    [unicode.IsSpace] has it is U+0085 and U+00A0, two bytes in UTF-8, and
    U+1680, U+2000 to U+200A, U+2028, U+2029, U+202F, U+205F and U+3000,
    three bytes. A byte sequence that does not decode counts as one
    character that is not white space. *)
Definition space2 (a b : ascii) : bool :=
  let '(x, y) := (N_of_ascii a, N_of_ascii b) in
  ((x =? 194) && ((y =? 133) || (y =? 160)))%N.

Definition space3 (a b c : ascii) : bool :=
  let '(x, y, z) := (N_of_ascii a, N_of_ascii b, N_of_ascii c) in
  (((x =? 225) && (y =? 154) && (z =? 128))
   || ((x =? 226) && (y =? 128)
       && (((128 <=? z) && (z <=? 138)) || (z =? 168) || (z =? 169) || (z =? 175)))
   || ((x =? 226) && (y =? 129) && (z =? 159))
   || ((x =? 227) && (y =? 128) && (z =? 128)))%N.

Fixpoint TrimLeftSpace (s : string) : string :=
  match s with
  | EmptyString => EmptyString
  | String a s1 =>
      if is_space a then TrimLeftSpace s1
      else match s1 with
           | EmptyString => s
           | String b s2 =>
               if space2 a b then TrimLeftSpace s2
               else match s2 with
                    | EmptyString => s
                    | String c s3 => if space3 a b c then TrimLeftSpace s3 else s
                    end
           end
  end.

(** The same from the end, on the bytes in reverse order. *)
Fixpoint trim_reversed (l : list ascii) : list ascii :=
  match l with
  | [] => []
  | a :: l1 =>
      if is_space a then trim_reversed l1
      else match l1 with
           | [] => l
           | b :: l2 =>
               if space2 b a then trim_reversed l2
               else match l2 with
                    | [] => l
                    | c :: l3 => if space3 c b a then trim_reversed l3 else l
                    end
           end
  end.

Definition TrimRightSpace (s : string) : string :=
  string_of_list_ascii (rev (trim_reversed (rev (list_ascii_of_string s)))).

Definition TrimSpace (s : string) : string := TrimRightSpace (TrimLeftSpace s).

End strings.

(** ** package fmt *)
Module fmt.

Definition is_digit (c : ascii) : bool :=
  let n := N_of_ascii c in ((48 <=? n) && (n <=? 57))%N.

Fixpoint digits_prefix (s : string) : string :=
  match s with
  | EmptyString => EmptyString
  | String c s' => if is_digit c then String c (digits_prefix s') else EmptyString
  end.

(** [fmt.Sscanf(t, "%d", &v)] for an [int64] and a text that does not start
    with white space: an optional sign, then the longest run of decimal
    digits, of which there must be one; what follows is not read. The value
    must fit in an [int64]. *)
Definition Sscanf_d (t : string) : option Z :=
  let '(sign, rest) :=
    match t with
    | String c r =>
        if Ascii.eqb c "+" || Ascii.eqb c "-" then (String c EmptyString, r)
        else (EmptyString, t)
    | EmptyString => (EmptyString, EmptyString)
    end in
  match digits_prefix rest with
  | EmptyString => None
  | ds => match strconv.ParseInt (sign ++ ds) with
          | inr v => Some v
          | inl _ => None
          end
  end.

End fmt.

(** ** SQLite scalar functions *)
Module sqlite.

(** [instr(X, Y)]: one plus the offset of the first occurrence of [Y] in
    [X], or zero when [Y] does not occur. *)
Fixpoint instr (X Y : string) : nat :=
  if String.prefix Y X then 1%nat
  else match X with
       | EmptyString => 0%nat
       | String _ X' =>
           match instr X' Y with
           | O => 0%nat
           | S n => S (S n)
           end
       end.

End sqlite.

(** ** package encoding/base64, [RawURLEncoding] *)
Module base64.

(** Six bits, most significant first. *)
Definition sextet : Type := bool * bool * bool * bool * bool * bool.

Definition sextet_index (x : sextet) : nat :=
  let '(b5, b4, b3, b2, b1, b0) := x in
  (Nat.b2n b5 * 32 + Nat.b2n b4 * 16 + Nat.b2n b3 * 8
   + Nat.b2n b2 * 4 + Nat.b2n b1 * 2 + Nat.b2n b0)%nat.

Definition index_sextet (n : nat) : sextet :=
  (Nat.testbit n 5, Nat.testbit n 4, Nat.testbit n 3,
   Nat.testbit n 2, Nat.testbit n 1, Nat.testbit n 0).

Definition encodeURL : string :=
  "ABCDEFGHIJKLMNOPQRSTUVWXYZabcdefghijklmnopqrstuvwxyz0123456789-_".

Definition enc6 (x : sextet) : ascii :=
  match String.get (sextet_index x) encodeURL with
  | Some c => c
  | None => "A"%char
  end.

Fixpoint position (c : ascii) (s : string) : option nat :=
  match s with
  | EmptyString => None
  | String c' s' => if Ascii.eqb c c' then Some O else option_map S (position c s')
  end.

(** The decode map of the encoding: the alphabet position of a byte. *)
Definition dec6 (c : ascii) : option sextet :=
  option_map index_sextet (position c encodeURL).

(** Three bytes are four sextets; one or two trailing bytes are two or
    three sextets, padded with zero bits (no padding character). *)
Fixpoint quanta (bs : list ascii) : list sextet :=
  match bs with
  | [] => []
  | [Ascii a0 a1 a2 a3 a4 a5 a6 a7] =>
      [(a7, a6, a5, a4, a3, a2); (a1, a0, false, false, false, false)]
  | [Ascii a0 a1 a2 a3 a4 a5 a6 a7; Ascii b0 b1 b2 b3 b4 b5 b6 b7] =>
      [(a7, a6, a5, a4, a3, a2); (a1, a0, b7, b6, b5, b4);
       (b3, b2, b1, b0, false, false)]
  | Ascii a0 a1 a2 a3 a4 a5 a6 a7 :: Ascii b0 b1 b2 b3 b4 b5 b6 b7
      :: Ascii c0 c1 c2 c3 c4 c5 c6 c7 :: rest =>
      (a7, a6, a5, a4, a3, a2) :: (a1, a0, b7, b6, b5, b4)
      :: (b3, b2, b1, b0, c7, c6) :: (c5, c4, c3, c2, c1, c0) :: quanta rest
  end.

(** The inverse grouping; a single trailing sextet is corrupt input, and
    trailing bits beyond the last whole byte are dropped. *)
Fixpoint unquanta (ss : list sextet) : option (list ascii) :=
  match ss with
  | [] => Some []
  | [_] => None
  | [(a7, a6, a5, a4, a3, a2); (a1, a0, _, _, _, _)] =>
      Some [Ascii a0 a1 a2 a3 a4 a5 a6 a7]
  | [(a7, a6, a5, a4, a3, a2); (a1, a0, b7, b6, b5, b4); (b3, b2, b1, b0, _, _)] =>
      Some [Ascii a0 a1 a2 a3 a4 a5 a6 a7; Ascii b0 b1 b2 b3 b4 b5 b6 b7]
  | (a7, a6, a5, a4, a3, a2) :: (a1, a0, b7, b6, b5, b4)
      :: (b3, b2, b1, b0, c7, c6) :: (c5, c4, c3, c2, c1, c0) :: rest =>
      option_map
        (fun bs => Ascii a0 a1 a2 a3 a4 a5 a6 a7 :: Ascii b0 b1 b2 b3 b4 b5 b6 b7
                   :: Ascii c0 c1 c2 c3 c4 c5 c6 c7 :: bs)
        (unquanta rest)
  end.

Definition newline (c : ascii) : bool :=
  Ascii.eqb c "010"%char || Ascii.eqb c "013"%char.

Fixpoint decode_chars (cs : list ascii) : option (list sextet) :=
  match cs with
  | [] => Some []
  | c :: cs' =>
      if newline c then decode_chars cs'
      else match dec6 c, decode_chars cs' with
           | Some x, Some xs => Some (x :: xs)
           | _, _ => None
           end
  end.

(** [base64.RawURLEncoding.EncodeToString] *)
Definition EncodeToString (src : string) : string :=
  string_of_list_ascii (map enc6 (quanta (list_ascii_of_string src))).

(** [base64.RawURLEncoding.DecodeString]: carriage returns and line feeds
    are skipped, any other byte outside the alphabet (the padding character
    included) is corrupt input. [None] is [CorruptInputError]. *)
Definition DecodeString (s : string) : option string :=
  match decode_chars (list_ascii_of_string s) with
  | None => None
  | Some ss => option_map string_of_list_ascii (unquanta ss)
  end.

End base64.

(** ** package math: the float64 operations of libm that Rocq's primitive
    floats do not provide are taken as parameters wherever they are used. *)
Record libm := Libm {
  Sin : float -> float;
  Cos : float -> float;
  Atan2 : float -> float -> float
}.

(* ===================================================================== *)
(** * internal/geo *)
(* ===================================================================== *)
Module geo.
Local Open Scope float_scope.

Definition RadiusFeet : float := 100.0.
Definition FeetPerMile : float := 5280.0.
Definition EarthRadiusMiles : float := 3958.7613.

Definition FeetToMiles (f : float) : float := f / FeetPerMile.

(** [math.Pi / 180] is a constant expression, rounded once. *)
Definition degToRad : float := 0.017453292519943295.

Definition HaversineMiles (m : libm) (lat1 lng1 lat2 lng2 : float) : float :=
  let dLat := (lat2 - lat1) * degToRad in
  let dLng := (lng2 - lng1) * degToRad in
  let a := Sin m (dLat / 2) * Sin m (dLat / 2)
           + Cos m (lat1 * degToRad) * Cos m (lat2 * degToRad)
             * Sin m (dLng / 2) * Sin m (dLng / 2) in
  let c := 2 * Atan2 m (PrimFloat.sqrt a) (PrimFloat.sqrt (1 - a)) in
  EarthRadiusMiles * c.

Definition IsWithinRadius (m : libm) (lat1 lng1 lat2 lng2 radiusFeet : float) : bool :=
  let distanceMiles := HaversineMiles m lat1 lng1 lat2 lng2 in
  let distanceFeet := distanceMiles * FeetPerMile in
  distanceFeet <=? radiusFeet.

End geo.

(* ===================================================================== *)
(** * models *)
(* ===================================================================== *)

Inductive OrderStatus :=
| OrderStatusPlaced
| OrderStatusDelivered
| OrderStatusEnRoute
| OrderStatusFailed
| OrderStatusToPickUp
| OrderStatusWithdrawn.

Inductive DroneStatus := DroneStatusFixed | DroneStatusBroken.

#[global] Instance OrderStatus_eq_dec : EqDecision OrderStatus.
Proof. solve_decision. Defined.

#[global] Instance DroneStatus_eq_dec : EqDecision DroneStatus.
Proof. solve_decision. Defined.

(** The columns of [orders] other than the primary key. [None] is SQL NULL. *)
Module Order.
Record row := Row {
  OriginLat : float;
  OriginLng : float;
  DestLat : float;
  DestLng : float;
  SubmittedBy : Z;
  Status : OrderStatus;
  PlacementAt : string;
  PickupLat : option float;
  PickupLng : option float;
  DronePath : option string
}.

(** [models.Order]: a row together with its id. *)
Record t := mk { ID : Z; cols : row }.

Definition with_Status (st : OrderStatus) (r : row) : row :=
  Row (OriginLat r) (OriginLng r) (DestLat r) (DestLng r) (SubmittedBy r)
      st (PlacementAt r) (PickupLat r) (PickupLng r) (DronePath r).

Definition with_Pickup (lat lng : float) (r : row) : row :=
  Row (OriginLat r) (OriginLng r) (DestLat r) (DestLng r) (SubmittedBy r)
      (Status r) (PlacementAt r) (Some lat) (Some lng) (DronePath r).

Definition with_Locations (olat olng dlat dlng : float) (r : row) : row :=
  Row olat olng dlat dlng (SubmittedBy r)
      (Status r) (PlacementAt r) (PickupLat r) (PickupLng r) (DronePath r).

Definition with_DronePath (p : option string) (r : row) : row :=
  Row (OriginLat r) (OriginLng r) (DestLat r) (DestLng r) (SubmittedBy r)
      (Status r) (PlacementAt r) (PickupLat r) (PickupLng r) p.
End Order.
Coercion Order.cols : Order.t >-> Order.row.

(** The columns of [drones] other than the primary key. *)
Module Drone.
Record row := Row {
  Name : string;
  SerialNumber : string;
  Lat : float;
  Lng : float;
  SpeedMPH : float;
  AssignedJob : option Z;
  Status : DroneStatus
}.

(** [models.Drone] *)
Record t := mk { ID : Z; cols : row }.

Definition with_AssignedJob (j : option Z) (r : row) : row :=
  Row (Name r) (SerialNumber r) (Lat r) (Lng r) (SpeedMPH r) j (Status r).

Definition with_Status (st : DroneStatus) (r : row) : row :=
  Row (Name r) (SerialNumber r) (Lat r) (Lng r) (SpeedMPH r) (AssignedJob r) st.

Definition with_LocationAndSpeed (lat lng speed : float) (r : row) : row :=
  Row (Name r) (SerialNumber r) lat lng speed (AssignedJob r) (Status r).
End Drone.
Coercion Drone.cols : Drone.t >-> Drone.row.

(** [models.User]; [users.username] is the key of the table. *)
Module User.
Record t := mk { ID : Z; Username : string; Role : string }.
End User.

(* ===================================================================== *)
(** * The database *)
(* ===================================================================== *)

(** The three tables, the AUTOINCREMENT counters, and what the outside world
    decides for the statements still to come: the value of
    CURRENT_TIMESTAMP, and for each statement in turn whether the driver
    fails it (deadline exceeded, database busy) before it has any effect.
    An exhausted [faults] list means that no statement fails this way. *)
Record DB := mkDB {
  users : gmap string User.t;
  orders : gmap Z Order.row;
  drones : gmap Z Drone.row;
  seq_users : Z;
  seq_orders : Z;
  seq_drones : Z;
  current_timestamp : string;
  faults : list bool
}.

Definition with_users (u : gmap string User.t) (db : DB) : DB :=
  mkDB u (orders db) (drones db) (seq_users db) (seq_orders db) (seq_drones db)
       (current_timestamp db) (faults db).
Definition with_orders (o : gmap Z Order.row) (db : DB) : DB :=
  mkDB (users db) o (drones db) (seq_users db) (seq_orders db) (seq_drones db)
       (current_timestamp db) (faults db).
Definition with_drones (d : gmap Z Drone.row) (db : DB) : DB :=
  mkDB (users db) (orders db) d (seq_users db) (seq_orders db) (seq_drones db)
       (current_timestamp db) (faults db).
Definition with_faults (f : list bool) (db : DB) : DB :=
  mkDB (users db) (orders db) (drones db) (seq_users db) (seq_orders db)
       (seq_drones db) (current_timestamp db) f.
Definition with_current_timestamp (t : string) (db : DB) : DB :=
  mkDB (users db) (orders db) (drones db) (seq_users db) (seq_orders db)
       (seq_drones db) t (faults db).

(** What the outside world may change between two statements. *)
Definition with_env (t : string) (f : list bool) (db : DB) : DB :=
  with_current_timestamp t (with_faults f db).

Inductive dberr :=
| ErrDriver          (* deadline exceeded, busy, connection lost *)
| ErrUnique          (* UNIQUE constraint failed *)
| ErrForeignKey      (* FOREIGN KEY constraint failed *)
| ErrNoRows          (* sql.ErrNoRows *)
| ErrOther.          (* errors.New / fmt.Errorf of the repository *)

(** ** Computations over the database that may return an error *)
Definition M (E A : Type) : Type := DB -> DB * (E + A).

Definition ret {E A} (a : A) : M E A := fun db => (db, inr a).
Definition fail {E A} (e : E) : M E A := fun db => (db, inl e).
Definition bind {E A B} (m : M E A) (k : A -> M E B) : M E B :=
  fun db => match m db with
            | (db', inl e) => (db', inl e)
            | (db', inr a) => k a db'
            end.

Notation "x <~ m ;; k" := (bind m (fun x => k))
  (at level 100, m at next level, right associativity,
   format "'[v' x  <~  m  ;; '/' k ']'").
Notation "m ;;; k" := (bind m (fun _ => k))
  (at level 100, k at level 100, right associativity,
   format "'[v' m  ;;; '/' k ']'").

(** [if err != nil { return nil, f(err) }] *)
Definition mapErr {E E' A} (f : E -> E') (m : M E A) : M E' A :=
  fun db => match m db with
            | (db', inl e) => (db', inl (f e))
            | (db', inr a) => (db', inr a)
            end.

(** [v, err := call()] with both outcomes kept for the caller to inspect. *)
Definition attempt {E E' A} (m : M E A) : M E' (E + A) :=
  fun db => let '(db', r) := m db in (db', inr r).

(** [_ = call()]: the error is dropped. *)
Definition discard {E E' A} (m : M E A) : M E' unit :=
  fun db => (fst (m db), inr tt).

(** One SQL statement. *)
Definition exec {A} (stmt : DB -> dberr + (DB * A)) : M dberr A :=
  fun db =>
    match faults db with
    | true :: fs => (with_faults fs db, inl ErrDriver)
    | fs0 =>
        let db0 := with_faults (tail fs0) db in
        match stmt db0 with
        | inl e => (db0, inl e)
        | inr (db', a) => (db', inr a)
        end
    end.

(** A SELECT. *)
Definition query {A} (q : DB -> A) : M dberr A :=
  exec (fun db => inr (db, q db)).

(** The least key of a table above which AUTOINCREMENT allocates. *)
Definition max_key {R} (m : gmap Z R) : Z :=
  foldr Z.max 0 (map fst (map_to_list m)).

(** The rows of a table in rowid order, as a full scan visits them. *)
Definition key_le {R} (a b : Z * R) : Prop := a.1 <= b.1.
#[global] Instance key_le_dec {R} : RelDecision (@key_le R).
Proof. intros a b. unfold key_le. apply _. Defined.

Definition scan {R} (m : gmap Z R) : list (Z * R) :=
  merge_sort key_le (map_to_list m).

(* ===================================================================== *)
(** * repository *)
(* ===================================================================== *)

Module UserRepository.

(** INSERT INTO users (username); the role column defaults to 'end user'. *)
Definition Create (username : string) : M dberr User.t :=
  exec (fun db =>
    match users db !! username with
    | Some _ => inl ErrUnique
    | None =>
        let id := Z.max (seq_users db)
                    (foldr Z.max 0 (map (fun kv => User.ID kv.2) (map_to_list (users db)))) + 1 in
        let u := User.mk id username "end user" in
        inr (mkDB (<[username := u]> (users db)) (orders db) (drones db)
                  id (seq_orders db) (seq_drones db)
                  (current_timestamp db) (faults db), u)
    end).

Definition GetByUsername (username : string) : M dberr (option User.t) :=
  query (fun db => users db !! username).

(** UPDATE users SET role = ? WHERE username = ? *)
Definition UpdateRoleByUsername (username role : string) : M dberr unit :=
  exec (fun db =>
    inr (with_users
           (alter (fun u => User.mk (User.ID u) (User.Username u) role) username (users db))
           db, tt)).

(** DELETE FROM users WHERE id = ?. When a row goes, the orders it
    submitted go with it (orders.submitted_by is ON DELETE CASCADE), and the
    drones that held one of them are unassigned (drones.assigned_job is ON
    DELETE SET NULL). *)
Definition Delete (id : Z) : M dberr unit :=
  exec (fun db =>
    if bool_decide (map_Exists (fun _ u => User.ID u = id) (users db))
    then
      let gone job := bool_decide (Order.SubmittedBy <$> orders db !! job = Some id) in
      inr (mkDB (filter (fun kv => User.ID kv.2 <> id) (users db))
                (filter (fun kv => Order.SubmittedBy kv.2 <> id) (orders db))
                ((fun d => match Drone.AssignedJob d with
                           | Some job => if gone job then Drone.with_AssignedJob None d
                                         else d
                           | None => d
                           end) <$> drones db)
                (seq_users db) (seq_orders db) (seq_drones db)
                (current_timestamp db) (faults db), tt)
    else inr (db, tt)).

End UserRepository.

Module OrderRepository.

Definition GetByID (id : Z) : M dberr (option Order.t) :=
  query (fun db => Order.mk id <$> orders db !! id).

(** INSERT INTO orders (...), then the row is read back to capture
    placement_date. The foreign key on submitted_by is enforced. *)
Definition Create (o : Order.row) : M dberr Order.t :=
  id <~ exec (fun db =>
          if bool_decide (map_Exists (fun _ u => User.ID u = Order.SubmittedBy o) (users db))
          then
            let id := Z.max (seq_orders db) (max_key (orders db)) + 1 in
            let r := Order.Row (Order.OriginLat o) (Order.OriginLng o)
                       (Order.DestLat o) (Order.DestLng o) (Order.SubmittedBy o)
                       (Order.Status o) (current_timestamp db) None None None in
            inr (mkDB (users db) (<[id := r]> (orders db)) (drones db)
                      (seq_users db) id (seq_drones db)
                      (current_timestamp db) (faults db), id)
          else inl ErrForeignKey) ;;
  o2 <~ GetByID id ;;
  match o2 with
  | None => fail ErrOther
  | Some o2 => ret o2
  end.

(** UPDATE orders SET status = ? WHERE id = ? *)
Definition UpdateStatus (id : Z) (status : OrderStatus) : M dberr unit :=
  exec (fun db => inr (with_orders (alter (Order.with_Status status) id (orders db)) db, tt)).

(** UPDATE orders SET pickup_lat = ?, pickup_lng = ? WHERE id = ? *)
Definition UpdatePickupLocation (id : Z) (lat lng : float) : M dberr unit :=
  exec (fun db => inr (with_orders (alter (Order.with_Pickup lat lng) id (orders db)) db, tt)).

(** UPDATE orders SET origin_lat = ?, ... WHERE id = ?; no row affected
    is reported as [sql.ErrNoRows]. *)
Definition UpdateLocations (id : Z) (originLat originLng destLat destLng : float)
  : M dberr unit :=
  exec (fun db =>
    match orders db !! id with
    | None => inl ErrNoRows
    | Some _ =>
        inr (with_orders
               (alter (Order.with_Locations originLat originLng destLat destLng) id (orders db))
               db, tt)
    end).

(** UPDATE orders SET drone_path = CASE WHEN drone_path IS NULL OR
    drone_path = '' THEN ? ELSE drone_path || ',' || ? END WHERE id = ? *)
Definition appended (droneIDStr : string) (path : option string) : option string :=
  match path with
  | None => Some droneIDStr
  | Some p => if String.eqb p "" then Some droneIDStr
              else Some (p ++ "," ++ droneIDStr)%string
  end.

Definition AppendDronePath (orderID droneID : Z) : M dberr unit :=
  let droneIDStr := strconv.FormatInt droneID in
  exec (fun db =>
    inr (with_orders
           (alter (fun r => Order.with_DronePath (appended droneIDStr (Order.DronePath r)) r)
                  orderID (orders db))
           db, tt)).

Definition Withdraw (id : Z) : M dberr unit :=
  UpdateStatus id OrderStatusWithdrawn.

(** *** FindNextAvailableForReservation *)

(** LEFT JOIN drones d ON d.assigned_job = o.id WHERE d.id IS NULL *)
Definition unassigned (ds : gmap Z Drone.row) (orderID : Z) : bool :=
  negb (bool_decide (map_Exists (fun _ d => Drone.AssignedJob d = Some orderID) ds)).

(** o.status IN ('to pick up','placed') *)
Definition reservable (st : OrderStatus) : bool :=
  match st with
  | OrderStatusToPickUp | OrderStatusPlaced => true
  | _ => false
  end.

(** o.drone_path IS NULL OR
    instr(',' || o.drone_path || ',', ',' || ? || ',') = 0 *)
Definition not_in_path (droneID : Z) (path : option string) : bool :=
  match path with
  | None => true
  | Some p =>
      Nat.eqb (sqlite.instr ("," ++ p ++ ",")%string
                            ("," ++ strconv.FormatInt droneID ++ ",")%string) 0
  end.

Definition selectable (ds : gmap Z Drone.row) (droneID : Z) (o : Z * Order.row) : bool :=
  unassigned ds o.1 && reservable (Order.Status o.2)
  && not_in_path droneID (Order.DronePath o.2).

(** CASE WHEN o.status = 'to pick up' THEN 0 ELSE 1 END *)
Definition rank (st : OrderStatus) : Z :=
  match st with OrderStatusToPickUp => 0 | _ => 1 end.

(** ORDER BY rank, o.placement_date ASC, o.id ASC; placement_date holds
    text and is compared byte by byte. *)
Definition order_by (a b : Z * Order.row) : comparison :=
  match rank (Order.Status a.2) ?= rank (Order.Status b.2) with
  | Eq =>
      match String.compare (Order.PlacementAt a.2) (Order.PlacementAt b.2) with
      | Eq => a.1 ?= b.1
      | c => c
      end
  | c => c
  end.

Definition precedes (a b : Z * Order.row) : Prop := order_by a b <> Gt.

#[global] Instance precedes_dec : RelDecision precedes.
Proof. intros a b. unfold precedes. destruct (order_by a b); [left | left | right]; congruence. Defined.

Definition FindNextAvailableForReservation (droneID : Z) : M dberr (option Order.t) :=
  query (fun db =>
    let rows := List.filter (selectable (drones db) droneID) (map_to_list (orders db)) in
    match merge_sort precedes rows with
    | [] => None
    | (id, r) :: _ => Some (Order.mk id r)
    end).

(** *** The other queries of the repository *)

(** ORDER BY placement_date DESC, id DESC: [a] is not after [b]. *)
Definition newest_first (a b : Z * Order.row) : Prop :=
  match String.compare (Order.PlacementAt a.2) (Order.PlacementAt b.2) with
  | Gt => True
  | Eq => b.1 <= a.1
  | Lt => False
  end.

#[global] Instance newest_first_dec : RelDecision newest_first.
Proof.
  intros a b. unfold newest_first.
  destruct (String.compare _ _); [apply _ | right; tauto | left; exact I].
Defined.

(** SELECT ... FROM orders WHERE submitted_by = ?
    ORDER BY placement_date DESC, id DESC *)
Definition ListByUserID (userID : Z) : M dberr (list Order.t) :=
  query (fun db =>
    let rows := List.filter (fun kv => bool_decide (Order.SubmittedBy kv.2 = userID))
                  (map_to_list (orders db)) in
    map (fun kv => Order.mk kv.1 kv.2) (merge_sort newest_first rows)).

(** The same with LIMIT 1. *)
Definition GetByUserID (userID : Z) : M dberr (option Order.t) :=
  query (fun db =>
    let rows := List.filter (fun kv => bool_decide (Order.SubmittedBy kv.2 = userID))
                  (map_to_list (orders db)) in
    match merge_sort newest_first rows with
    | [] => None
    | (id, r) :: _ => Some (Order.mk id r)
    end).

(** SELECT o.* FROM drones d JOIN orders o ON o.id = d.assigned_job
    WHERE d.id = ? *)
Definition GetAssignedOrderForDrone (droneID : Z) : M dberr (option Order.t) :=
  query (fun db =>
    d ← drones db !! droneID;
    job ← Drone.AssignedJob d;
    Order.mk job <$> orders db !! job).

Definition FindByAssignedDrone (droneID : Z) : M dberr (option Order.t) :=
  GetAssignedOrderForDrone droneID.

Definition AddDroneToPath (orderID droneID : Z) : M dberr unit :=
  AppendDronePath orderID droneID.

(** DELETE FROM orders WHERE id = ?; the foreign key of
    drones.assigned_job is ON DELETE SET NULL. *)
Definition Delete (id : Z) : M dberr unit :=
  exec (fun db =>
    inr (mkDB (users db) (delete id (orders db))
              ((fun d => if bool_decide (Drone.AssignedJob d = Some id)
                         then Drone.with_AssignedJob None d else d) <$> drones db)
              (seq_users db) (seq_orders db) (seq_drones db)
              (current_timestamp db) (faults db), tt)).

(** UPDATE orders SET origin_lat, origin_lng, dest_lat, dest_lng, status,
    pickup_lat, pickup_lng, drone_path WHERE id = ?. The path of the Go
    struct is a string, so the column is never NULL afterwards. A nil order
    is an error before any statement. A status other than the six fails the
    CHECK of the column and changes nothing, as a failed statement does. *)
Definition Update (o : option Order.t) : M dberr unit :=
  match o with
  | None => fail ErrOther
  | Some o =>
      exec (fun db =>
        inr (with_orders
               (alter (fun r =>
                         Order.Row (Order.OriginLat o) (Order.OriginLng o)
                           (Order.DestLat o) (Order.DestLng o) (Order.SubmittedBy r)
                           (Order.Status o) (Order.PlacementAt r)
                           (Order.PickupLat o) (Order.PickupLng o)
                           (Some (default "" (Order.DronePath o))))
                      (Order.ID o) (orders db))
               db, tt))
  end.

(** A no-op: the assignment is kept in the drones table. *)
Definition UpdateAssignedDrone (id : Z) (droneID : option Z) : M dberr unit :=
  ret tt.

(** *** ListAdmin *)

Record ListOrdersAdminParams := mkListOrdersAdminParams {
  Statuses : list OrderStatus;
  SubmittedBy : option Z;
  PlacementFrom : option string;
  PlacementTo : option string;
  PageSize : Z;
  AfterSeconds : Z;
  AfterID : Z
}.

Definition pageSize (n : Z) : Z :=
  if n <=? 0 then 20 else if 100 <? n then 100 else n.

Section ListAdmin.
(** SQLite's [CAST(strftime('%s', placement_date) AS INTEGER)], NULL for a
    text that is no date. *)
Variable strftime_s : string -> option Z.
(** SQLite's [placement_date >= ?] and [placement_date <= ?] for a bound
    text, with the affinity of the DATETIME column applied to the bound:
    [placement_ge date bound] and [placement_le date bound]. *)
Variables placement_ge placement_le : string -> string -> bool.

(** The WHERE clause that [ListAdmin] assembles. *)
Definition listed (p : ListOrdersAdminParams) (kv : Z * Order.row) : bool :=
  match Statuses p with
  | [] => true
  | sts => bool_decide (Order.Status kv.2 ∈ sts)
  end
  && match SubmittedBy p with
     | Some u => bool_decide (Order.SubmittedBy kv.2 = u)
     | None => true
     end
  && match PlacementFrom p with
     | Some bound => placement_ge (Order.PlacementAt kv.2) bound
     | None => true
     end
  && match PlacementTo p with
     | Some bound => placement_le (Order.PlacementAt kv.2) bound
     | None => true
     end
  && (if (0 <? AfterSeconds p) && (0 <? AfterID p)
      then match strftime_s (Order.PlacementAt kv.2) with
           | Some sec => (sec <? AfterSeconds p)
                         || ((sec =? AfterSeconds p) && (kv.1 <? AfterID p))
           | None => false
           end
      else true).

(** SELECT ... FROM orders WHERE ... ORDER BY placement_date DESC, id DESC
    LIMIT ? *)
Definition ListAdmin (p : ListOrdersAdminParams) : M dberr (list Order.t) :=
  query (fun db =>
    map (fun kv => Order.mk kv.1 kv.2)
      (take (Z.to_nat (pageSize (PageSize p)))
         (merge_sort newest_first
            (List.filter (listed p) (map_to_list (orders db)))))).

End ListAdmin.

End OrderRepository.

Module DroneRepository.

(** Whether a drone row other than [id] has assigned_job = [orderID]:
    the UNIQUE constraint on drones.assigned_job. *)
Definition job_taken (ds : gmap Z Drone.row) (id orderID : Z) : bool :=
  bool_decide (map_Exists (fun k d => k <> id /\ Drone.AssignedJob d = Some orderID) ds).

(** The UNIQUE constraint on drones.serial_number. *)
Definition serial_taken (ds : gmap Z Drone.row) (serial : string) : bool :=
  bool_decide (map_Exists (fun _ d => Drone.SerialNumber d = serial) ds).

(** INSERT INTO drones (...) *)
Definition Create (d : Drone.row) : M dberr Drone.t :=
  exec (fun db =>
    let id := Z.max (seq_drones db) (max_key (drones db)) + 1 in
    if serial_taken (drones db) (Drone.SerialNumber d) then inl ErrUnique
    else
      match Drone.AssignedJob d with
      | Some o =>
          if job_taken (drones db) id o then inl ErrUnique
          else if bool_decide (is_Some (orders db !! o))
          then inr (mkDB (users db) (orders db) (<[id := d]> (drones db))
                         (seq_users db) (seq_orders db) id
                         (current_timestamp db) (faults db), Drone.mk id d)
          else inl ErrForeignKey
      | None =>
          inr (mkDB (users db) (orders db) (<[id := d]> (drones db))
                    (seq_users db) (seq_orders db) id
                    (current_timestamp db) (faults db), Drone.mk id d)
      end).

Definition GetByID (id : Z) : M dberr (option Drone.t) :=
  query (fun db => Drone.mk id <$> drones db !! id).

Definition first_row (p : Drone.row -> bool) (ds : gmap Z Drone.row) : option Drone.t :=
  match List.filter (fun kv => p kv.2) (scan ds) with
  | [] => None
  | (id, r) :: _ => Some (Drone.mk id r)
  end.

(** SELECT ... FROM drones WHERE serial_number = ? *)
Definition GetBySerial (serial : string) : M dberr (option Drone.t) :=
  query (fun db => first_row (fun r => String.eqb (Drone.SerialNumber r) serial) (drones db)).

(** SELECT ... FROM drones WHERE name = ?; names are not unique and the
    first row of the scan is the one returned. *)
Definition GetByName (name : string) : M dberr (option Drone.t) :=
  query (fun db => first_row (fun r => String.eqb (Drone.Name r) name) (drones db)).

Definition UpdateLocationAndSpeed (id : Z) (lat lng speed : float) : M dberr unit :=
  exec (fun db =>
    inr (with_drones (alter (Drone.with_LocationAndSpeed lat lng speed) id (drones db)) db, tt)).

Definition UpdateStatus (id : Z) (status : DroneStatus) : M dberr unit :=
  exec (fun db => inr (with_drones (alter (Drone.with_Status status) id (drones db)) db, tt)).

(** UPDATE drones SET assigned_job = ? WHERE id = ?, under the UNIQUE
    constraint of the column and its foreign key into orders. *)
Definition AssignJob (id orderID : Z) : M dberr unit :=
  exec (fun db =>
    match drones db !! id with
    | None => inr (db, tt)
    | Some _ =>
        if job_taken (drones db) id orderID then inl ErrUnique
        else if bool_decide (is_Some (orders db !! orderID))
        then inr (with_drones
                    (alter (Drone.with_AssignedJob (Some orderID)) id (drones db)) db, tt)
        else inl ErrForeignKey
    end).

(** UPDATE drones SET assigned_job = NULL WHERE id = ? *)
Definition UnassignJob (id : Z) : M dberr unit :=
  exec (fun db => inr (with_drones (alter (Drone.with_AssignedJob None) id (drones db)) db, tt)).

(** SELECT ... FROM drones WHERE assigned_job = ? *)
Definition GetByOrderID (orderID : Z) : M dberr (option Drone.t) :=
  query (fun db =>
    first_row (fun r => bool_decide (Drone.AssignedJob r = Some orderID)) (drones db)).

(** DELETE FROM drones WHERE id = ? *)
Definition Delete (id : Z) : M dberr unit :=
  exec (fun db => inr (with_drones (delete id (drones db)) db, tt)).

(** *** ListAdmin *)

Record ListDronesAdminParams := mkListDronesAdminParams {
  Status : option DroneStatus;
  AssignedOnly : option bool;
  UnassignedOnly : option bool;
  NameOrSerialContains : option string;
  PageSize : Z;
  AfterID : Z
}.

Definition pageSize (n : Z) : Z :=
  if n <=? 0 then 20 else if 100 <? n then 100 else n.

Section ListAdmin.
(** SQLite's LIKE operator: [like pattern text]. *)
Variable like : string -> string -> bool.

(** The WHERE clause that [ListAdmin] assembles. *)
Definition listed (p : ListDronesAdminParams) (kv : Z * Drone.row) : bool :=
  match Status p with
  | Some st => bool_decide (Drone.Status kv.2 = st)
  | None => true
  end
  && match AssignedOnly p with
     | Some true => bool_decide (Drone.AssignedJob kv.2 <> None)
     | _ => true
     end
  && match UnassignedOnly p with
     | Some true => bool_decide (Drone.AssignedJob kv.2 = None)
     | _ => true
     end
  && match NameOrSerialContains p with
     | Some s =>
         if String.eqb (strings.TrimSpace s) "" then true
         else
           let pattern := ("%" ++ strings.TrimSpace s ++ "%")%string in
           like pattern (Drone.Name kv.2) || like pattern (Drone.SerialNumber kv.2)
     | None => true
     end
  && (if 0 <? AfterID p then AfterID p <? kv.1 else true).

(** SELECT ... FROM drones WHERE ... ORDER BY id ASC LIMIT ? *)
Definition ListAdmin (p : ListDronesAdminParams) : M dberr (list Drone.t) :=
  query (fun db =>
    map (fun kv => Drone.mk kv.1 kv.2)
      (take (Z.to_nat (pageSize (PageSize p)))
         (List.filter (listed p) (scan (drones db))))).

End ListAdmin.

End DroneRepository.

(* ===================================================================== *)
(** * gRPC status codes *)
(* ===================================================================== *)

Module codes.
Inductive Code :=
| InvalidArgument
| NotFound
| PermissionDenied
| FailedPrecondition
| Aborted
| Internal
| Unauthenticated.
End codes.

(** [status.Error(c, msg)]; the text that [status.Errorf] formats from a
    wrapped error is not kept. *)
Module status.
Record t := Error { Code : codes.Code; Message : string }.
End status.

Definition lift {A} (r : status.t + A) : M status.t A :=
  fun db => (db, r).

(** [if err != nil { return nil, status.Errorf(c, msg+": %v", err) }] *)
Definition orError {A} (c : codes.Code) (msg : string) (m : M dberr A) : M status.t A :=
  mapErr (fun _ => status.Error c msg) m.

(* ===================================================================== *)
(** * internal/auth *)
(* ===================================================================== *)
Module auth.

Record Principal := mkPrincipal { Name : string; Kind : string }.

(** The request context, as far as the handlers read it: the principal
    that the interceptor stored, if any. *)
Definition Context := option Principal.

Definition RequirePrincipal (ctx : Context) : status.t + Principal :=
  match ctx with
  | None => inl (status.Error codes.Unauthenticated "missing principal")
  | Some p => inr p
  end.

Definition RequireKind `{unicode.CaseRanges} (ctx : Context) (kind : string) : status.t + Principal :=
  match RequirePrincipal ctx with
  | inl e => inl e
  | inr p =>
      if negb (String.eqb (Kind p) (strings.ToLower kind))
      then inl (status.Error codes.PermissionDenied "only this kind can perform this action")
      else inr p
  end.

Definition RequireDrone `{unicode.CaseRanges} (ctx : Context) : status.t + Principal :=
  RequireKind ctx "drone".

Definition RequireEndUserOrAdmin (ctx : Context) : status.t + Principal :=
  match RequirePrincipal ctx with
  | inl e => inl e
  | inr p =>
      if negb (String.eqb (Kind p) "enduser") && negb (String.eqb (Kind p) "admin")
      then inl (status.Error codes.PermissionDenied
                  "only enduser or admin can perform this action")
      else inr p
  end.

(** The users repository is always configured by [StartGRPC], so the
    [users == nil] branch is not reachable and is left out. *)
Definition RequireAdmin `{unicode.CaseRanges} (ctx : Context) : M status.t Principal :=
  p <~ lift (RequireKind ctx "admin") ;;
  u <~ orError codes.Internal "get user" (UserRepository.GetByUsername (Name p)) ;;
  match u with
  | None => fail (status.Error codes.PermissionDenied "only admin can perform this action")
  | Some u =>
      if negb (String.eqb (strings.ToLower (strings.TrimSpace (User.Role u))) "admin")
      then fail (status.Error codes.PermissionDenied "only admin can perform this action")
      else ret p
  end.

End auth.

(* ===================================================================== *)
(** * Protocol messages *)
(* ===================================================================== *)
Module userv1.
Record Coordinates := mkCoordinates { Lat : float; Lng : float }.

Record Order := mkOrder {
  Id : Z;
  Origin : Coordinates;
  Destination : Coordinates;
  Status : OrderStatus;
  SubmittedBy : Z;
  PlacementDate : string
}.

(** The nil-safe getters of the generated code. *)
Definition GetLat (c : option Coordinates) : float :=
  match c with Some c => Lat c | None => 0%float end.
Definition GetLng (c : option Coordinates) : float :=
  match c with Some c => Lng c | None => 0%float end.

Record SetOrderRequest := mkSetOrderRequest {
  SetOrder_Origin : option Coordinates;
  SetOrder_Destination : option Coordinates
}.
End userv1.

Module dronev1.
Record HeartbeatRequest := mkHeartbeatRequest {
  Location : option userv1.Coordinates;
  SpeedMph : float
}.
Record GetAssignedOrderResponse := mkGetAssignedOrderResponse {
  Order : option userv1.Order;
  EtaSeconds : float
}.
End dronev1.

Module adminv1.
Inductive DroneStatus :=
| DRONE_STATUS_UNSPECIFIED
| DRONE_STATUS_FIXED
| DRONE_STATUS_BROKEN.

Record UpdateOrderLocationRequest := mkUpdateOrderLocationRequest {
  OrderId : Z;
  Origin : option userv1.Coordinates;
  Destination : option userv1.Coordinates
}.

Record UpdateDroneStatusRequest := mkUpdateDroneStatusRequest {
  DroneId : Z;
  Status : DroneStatus
}.
Record GetDronesRequest := mkGetDronesRequest {
  GetDrones_PageSize : Z;
  GetDrones_PageToken : string;
  GetDrones_Status : option DroneStatus;
  GetDrones_AssignedOnly : option bool;
  GetDrones_UnassignedOnly : option bool;
  GetDrones_NameOrSerialContains : option string
}.

Record Drone := mkDrone {
  Drone_Id : Z;
  Drone_SerialNumber : string;
  Drone_Name : string;
  Drone_Lat : float;
  Drone_Lng : float;
  Drone_SpeedMph : float;
  Drone_AssignedJob : option Z;
  Drone_Status : DroneStatus
}.

Record GetDronesResponse := mkGetDronesResponse {
  Drones : list Drone;
  NextPageToken : string
}.

(** An element of the status filter is a status, or [None] for
    STATUS_UNSPECIFIED and for a number that names no status. *)
Record GetOrdersRequest := mkGetOrdersRequest {
  GetOrders_PageSize : Z;
  GetOrders_PageToken : string;
  GetOrders_StatusFilter : list (option OrderStatus);
  GetOrders_SubmittedBy : option Z;
  GetOrders_PlacementFrom : option string;
  GetOrders_PlacementTo : option string
}.

Record GetOrdersResponse := mkGetOrdersResponse {
  Orders : list userv1.Order;
  Orders_NextPageToken : string
}.
End adminv1.

Definition toProtoOrder (o : option Order.t) : option userv1.Order :=
  match o with
  | None => None
  | Some o =>
      Some (userv1.mkOrder (Order.ID o)
              (userv1.mkCoordinates (Order.OriginLat o) (Order.OriginLng o))
              (userv1.mkCoordinates (Order.DestLat o) (Order.DestLng o))
              (Order.Status o) (Order.SubmittedBy o) (Order.PlacementAt o))
  end.

(* ===================================================================== *)
(** * internal/grpc: DroneService *)
(* ===================================================================== *)
Module DroneServer.
Section Handlers.
Variable m : libm.
Context `{unicode.CaseRanges}.

(** By serial number, falling back to name. *)
Definition resolveDrone (principalName : string) : M status.t Drone.t :=
  dr <~ orError codes.Internal "get drone by serial"
          (DroneRepository.GetBySerial principalName) ;;
  dr <~ match dr with
        | None => orError codes.Internal "get drone by name"
                    (DroneRepository.GetByName principalName)
        | Some _ => ret dr
        end ;;
  match dr with
  | None => fail (status.Error codes.NotFound "drone not found")
  | Some dr => ret dr
  end.

(** The two writes of [ReserveOrder], from [AssignJob] on. Requests run in
    parallel, so the database these writes meet need not be the one in
    which the order was selected. *)
Definition reserve (dr : Drone.t) (ord : Order.t) : M status.t (option userv1.Order) :=
  orError codes.Aborted "assign race"
    (DroneRepository.AssignJob (Drone.ID dr) (Order.ID ord)) ;;;
  orError codes.Internal "append drone path"
    (OrderRepository.AppendDronePath (Order.ID ord) (Drone.ID dr)) ;;;
  ret (toProtoOrder (Some ord)).

Definition ReserveOrder (ctx : auth.Context) : M status.t (option userv1.Order) :=
  p <~ lift (auth.RequireDrone ctx) ;;
  dr <~ resolveDrone (auth.Name p) ;;
  if bool_decide (Drone.Status dr = DroneStatusBroken)
  then fail (status.Error codes.FailedPrecondition "drone is broken")
  else if bool_decide (Drone.AssignedJob dr <> None)
  then fail (status.Error codes.FailedPrecondition "drone already has an assigned order")
  else
    ord <~ orError codes.Internal "find order"
             (OrderRepository.FindNextAvailableForReservation (Drone.ID dr)) ;;
    match ord with
    | None => fail (status.Error codes.FailedPrecondition "no available orders to reserve")
    | Some ord => reserve dr ord
    end.

(** [ord, _ = s.Orders.GetByID(ctx, id)] *)
Definition reread (id : Z) : M status.t (option Order.t) :=
  r <~ attempt (OrderRepository.GetByID id) ;;
  ret (match r with inr o => o | inl _ => None end).

Definition GrabOrder (ctx : auth.Context) : M status.t (option userv1.Order) :=
  p <~ lift (auth.RequireDrone ctx) ;;
  dr <~ resolveDrone (auth.Name p) ;;
  match Drone.AssignedJob dr with
  | None => fail (status.Error codes.FailedPrecondition "no assigned order")
  | Some job =>
      ord <~ orError codes.Internal "get order" (OrderRepository.GetByID job) ;;
      match ord with
      | None =>
          discard (DroneRepository.UnassignJob (Drone.ID dr)) ;;;
          fail (status.Error codes.NotFound "order not found")
      | Some ord =>
          if bool_decide (Order.Status ord <> OrderStatusPlaced)
             && bool_decide (Order.Status ord <> OrderStatusToPickUp)
          then fail (status.Error codes.FailedPrecondition "cannot grab order with this status")
          else
            let '(targetLat, targetLng) :=
              match bool_decide (Order.Status ord = OrderStatusToPickUp),
                    Order.PickupLat ord, Order.PickupLng ord with
              | true, Some lat, Some lng => (lat, lng)
              | _, _, _ => (Order.OriginLat ord, Order.OriginLng ord)
              end in
            let distance :=
              geo.HaversineMiles m (Drone.Lat dr) (Drone.Lng dr) targetLat targetLng in
            if (geo.FeetToMiles geo.RadiusFeet <? distance)%float
            then fail (status.Error codes.FailedPrecondition "not within pickup radius")
            else
              orError codes.Internal "set en route"
                (OrderRepository.UpdateStatus (Order.ID ord) OrderStatusEnRoute) ;;;
              ord <~ reread (Order.ID ord) ;;
              ret (toProtoOrder ord)
      end
  end.

Definition CompleteOrder (ctx : auth.Context) (delivered : bool)
  : M status.t (option userv1.Order) :=
  p <~ lift (auth.RequireDrone ctx) ;;
  dr <~ resolveDrone (auth.Name p) ;;
  match Drone.AssignedJob dr with
  | None => fail (status.Error codes.FailedPrecondition "no assigned order")
  | Some job =>
      ord <~ orError codes.Internal "get order" (OrderRepository.GetByID job) ;;
      match ord with
      | None =>
          discard (DroneRepository.UnassignJob (Drone.ID dr)) ;;;
          fail (status.Error codes.NotFound "order not found")
      | Some ord =>
          let distance :=
            geo.HaversineMiles m (Drone.Lat dr) (Drone.Lng dr)
              (Order.DestLat ord) (Order.DestLng ord) in
          if (geo.FeetToMiles geo.RadiusFeet <? distance)%float
          then fail (status.Error codes.FailedPrecondition "not within destination radius")
          else
            let finalStatus :=
              if delivered then OrderStatusDelivered else OrderStatusFailed in
            orError codes.Internal "update status"
              (OrderRepository.UpdateStatus (Order.ID ord) finalStatus) ;;;
            orError codes.Internal "unassign"
              (DroneRepository.UnassignJob (Drone.ID dr)) ;;;
            ord <~ reread (Order.ID ord) ;;
            ret (toProtoOrder ord)
      end
  end.

Definition MarkBroken (ctx : auth.Context) : M status.t (option userv1.Order) :=
  p <~ lift (auth.RequireDrone ctx) ;;
  dr <~ resolveDrone (auth.Name p) ;;
  affected <~
    match Drone.AssignedJob dr with
    | None => ret None
    | Some job =>
        ord <~ orError codes.Internal "get order" (OrderRepository.GetByID job) ;;
        affected <~
          match ord with
          | Some ord =>
              if bool_decide (Order.Status ord = OrderStatusEnRoute)
              then
                orError codes.Internal "update status"
                  (OrderRepository.UpdateStatus (Order.ID ord) OrderStatusToPickUp) ;;;
                orError codes.Internal "update pickup location"
                  (OrderRepository.UpdatePickupLocation (Order.ID ord)
                     (Drone.Lat dr) (Drone.Lng dr)) ;;;
                ret (Some ord)
              else ret None
          | None => ret None
          end ;;
        discard (DroneRepository.UnassignJob (Drone.ID dr)) ;;;
        ret affected
    end ;;
  orError codes.Internal "update drone status"
    (DroneRepository.UpdateStatus (Drone.ID dr) DroneStatusBroken) ;;;
  affected <~ match affected with
              | Some a => reread (Order.ID a)
              | None => ret None
              end ;;
  ret (toProtoOrder affected).

Definition Heartbeat (ctx : auth.Context) (req : option dronev1.HeartbeatRequest)
  : M status.t unit :=
  p <~ lift (auth.RequireDrone ctx) ;;
  match req with
  | Some (dronev1.mkHeartbeatRequest (Some loc) speed) =>
      dr <~ resolveDrone (auth.Name p) ;;
      orError codes.Internal "update location"
        (DroneRepository.UpdateLocationAndSpeed (Drone.ID dr)
           (userv1.Lat loc) (userv1.Lng loc) speed)
  | _ => fail (status.Error codes.InvalidArgument "location required")
  end.

Definition calculateETA (ord : Order.t) (dr : Drone.t) : float :=
  if (Drone.SpeedMPH dr <=? 0)%float then 0%float
  else
    match Order.Status ord with
    | OrderStatusPlaced | OrderStatusToPickUp =>
        let '(startLat, startLng) :=
          match bool_decide (Order.Status ord = OrderStatusToPickUp),
                Order.PickupLat ord, Order.PickupLng ord with
          | true, Some lat, Some lng => (lat, lng)
          | _, _, _ => (Order.OriginLat ord, Order.OriginLng ord)
          end in
        let distToPickup :=
          geo.HaversineMiles m (Drone.Lat dr) (Drone.Lng dr) startLat startLng in
        let distToDestination :=
          geo.HaversineMiles m startLat startLng (Order.DestLat ord) (Order.DestLng ord) in
        ((distToPickup + distToDestination) / Drone.SpeedMPH dr * 3600)%float
    | OrderStatusEnRoute =>
        let distToDestination :=
          geo.HaversineMiles m (Drone.Lat dr) (Drone.Lng dr)
            (Order.DestLat ord) (Order.DestLng ord) in
        (distToDestination / Drone.SpeedMPH dr * 3600)%float
    | _ => 0%float
    end.

Definition GetAssignedOrder (ctx : auth.Context)
  : M status.t dronev1.GetAssignedOrderResponse :=
  p <~ lift (auth.RequireDrone ctx) ;;
  dr <~ resolveDrone (auth.Name p) ;;
  match Drone.AssignedJob dr with
  | None => fail (status.Error codes.FailedPrecondition "no assigned order")
  | Some job =>
      ord <~ orError codes.Internal "get order" (OrderRepository.GetByID job) ;;
      match ord with
      | None => fail (status.Error codes.Internal "assigned order not found")
      | Some ord =>
          let etaSeconds := calculateETA ord dr in
          ret (dronev1.mkGetAssignedOrderResponse (toProtoOrder (Some ord)) etaSeconds)
      end
  end.

End Handlers.
End DroneServer.

(* ===================================================================== *)
(** * internal/grpc: UserOrderService *)
(* ===================================================================== *)
Module Server.

Definition cursorSeparator : ascii := "|"%char.

Definition resolveCurrentUser (p : auth.Principal) : M status.t User.t :=
  u <~ orError codes.Internal "get user" (UserRepository.GetByUsername (auth.Name p)) ;;
  match u with
  | None => fail (status.Error codes.NotFound "user not found")
  | Some u => ret u
  end.

Definition repositoryOrderFromReq (userID : Z) (req : option userv1.SetOrderRequest)
  : Order.row :=
  let origin := req ≫= userv1.SetOrder_Origin in
  let destination := req ≫= userv1.SetOrder_Destination in
  Order.Row (userv1.GetLat origin) (userv1.GetLng origin)
    (userv1.GetLat destination) (userv1.GetLng destination)
    userID OrderStatusPlaced "" None None None.

Definition SetOrder (ctx : auth.Context) (req : option userv1.SetOrderRequest)
  : M status.t (option userv1.Order) :=
  p <~ lift (auth.RequireEndUserOrAdmin ctx) ;;
  u <~ resolveCurrentUser p ;;
  ord <~ orError codes.Internal "create order"
           (OrderRepository.Create (repositoryOrderFromReq (User.ID u) req)) ;;
  ret (toProtoOrder (Some ord)).

(** A nil request reads as order id 0. *)
Definition WithdrawOrder (ctx : auth.Context) (orderId : Z)
  : M status.t (option userv1.Order) :=
  if bool_decide (orderId = 0)
  then fail (status.Error codes.InvalidArgument "order_id is required")
  else
    p <~ lift (auth.RequireEndUserOrAdmin ctx) ;;
    u <~ resolveCurrentUser p ;;
    ord <~ orError codes.Internal "get order" (OrderRepository.GetByID orderId) ;;
    match ord with
    | None => fail (status.Error codes.NotFound "order not found")
    | Some ord =>
        if bool_decide (Order.SubmittedBy ord <> User.ID u)
        then fail (status.Error codes.PermissionDenied "cannot withdraw another user's order")
        else
          orError codes.Internal "withdraw" (OrderRepository.Withdraw orderId) ;;;
          ord <~ orError codes.Internal "get order" (OrderRepository.GetByID orderId) ;;
          ret (toProtoOrder ord)
    end.

Definition encodeCursor (seconds id : Z) : string :=
  let raw := (strconv.FormatInt seconds ++ String cursorSeparator ""
              ++ strconv.FormatInt id)%string in
  base64.EncodeToString raw.

Inductive cursorError :=
| ErrBase64
| ErrCursorFormat
| ErrParseSeconds
| ErrParseID.

Definition decodeCursor (token : string) : cursorError + (Z * Z) :=
  match base64.DecodeString token with
  | None => inl ErrBase64
  | Some b =>
      match strings.SplitN2 b cursorSeparator with
      | [p0; p1] =>
          match strconv.ParseInt p0 with
          | inl _ => inl ErrParseSeconds
          | inr sec =>
              match strconv.ParseInt p1 with
              | inl _ => inl ErrParseID
              | inr pid => inr (sec, pid)
              end
          end
      | _ => inl ErrCursorFormat
      end
  end.

Section Time.
(** [time.Parse(time.RFC3339, s)] and [time.ParseInLocation("2006-01-02
    15:04:05", s, time.UTC)], each followed by [Unix()]; [None] for a text
    that does not parse. *)
Variables parseRFC3339 parseSQLite : string -> option Z.

Definition placementToUnixSeconds (s : string) : option Z :=
  if String.eqb s "" then None
  else match parseRFC3339 s with
       | Some t => Some t
       | None => parseSQLite s
       end.

End Time.

(** The start of [ListOrders], the one step of it that is represented: an
    empty page token is the first page, any other token is decoded, and a
    token that does not decode is an invalid argument. The listing itself
    only reads. *)
Definition pageCursor (pageToken : string) : status.t + (Z * Z) :=
  if String.eqb pageToken "" then inr (0, 0)
  else match decodeCursor pageToken with
       | inl _ => inl (status.Error codes.InvalidArgument "invalid page_token")
       | inr cursor => inr cursor
       end.

End Server.

(* ===================================================================== *)
(** * internal/grpc: AdminService *)
(* ===================================================================== *)
Module AdminServer.

Section GetOrders.
Variable strftime_s : string -> option Z.
Variables placement_ge placement_le : string -> string -> bool.
Variables parseRFC3339 parseSQLite : string -> option Z.
Context `{unicode.CaseRanges}.

(** [req.PlacementFrom] and [req.PlacementTo]: trimmed, and absent when
    nothing is left. *)
Definition placementBound (v : option string) : option string :=
  match v with
  | Some v => let v := strings.TrimSpace v in
              if String.eqb v "" then None else Some v
  | None => None
  end.

Definition GetOrders (ctx : auth.Context) (req : option adminv1.GetOrdersRequest)
  : M status.t adminv1.GetOrdersResponse :=
  auth.RequireAdmin ctx ;;;
  let req := default (adminv1.mkGetOrdersRequest 0 "" [] None None None) req in
  let size := OrderRepository.pageSize (adminv1.GetOrders_PageSize req) in
  cursor <~ (if String.eqb (strings.TrimSpace (adminv1.GetOrders_PageToken req)) ""
             then ret (0, 0)
             else match Server.decodeCursor (adminv1.GetOrders_PageToken req) with
                  | inl _ => fail (status.Error codes.InvalidArgument "invalid page_token")
                  | inr cursor => ret cursor
                  end) ;;
  let statuses := omap id (adminv1.GetOrders_StatusFilter req) in
  list <~ orError codes.Internal "list orders"
            (OrderRepository.ListAdmin strftime_s placement_ge placement_le
               (OrderRepository.mkListOrdersAdminParams statuses
                  (adminv1.GetOrders_SubmittedBy req)
                  (placementBound (adminv1.GetOrders_PlacementFrom req))
                  (placementBound (adminv1.GetOrders_PlacementTo req))
                  size cursor.1 cursor.2)) ;;
  let last :=
    fold_left (fun last (o : Order.t) =>
                 match Server.placementToUnixSeconds parseRFC3339 parseSQLite
                         (Order.PlacementAt o) with
                 | Some sec => (sec, Order.ID o)
                 | None => last
                 end) list (0, 0) in
  ret (adminv1.mkGetOrdersResponse
         (omap (fun o => toProtoOrder (Some o)) list)
         (if (Z.of_nat (length list) =? size) && negb (last.2 =? 0)
          then Server.encodeCursor last.1 last.2 else "")).

End GetOrders.

Definition UpdateOrderLocation `{unicode.CaseRanges} (ctx : auth.Context)
    (req : option adminv1.UpdateOrderLocationRequest)
  : M status.t (option userv1.Order) :=
  auth.RequireAdmin ctx ;;;
  match req with
  | Some (adminv1.mkUpdateOrderLocationRequest orderId (Some origin) (Some destination)) =>
      if bool_decide (orderId = 0)
      then fail (status.Error codes.InvalidArgument
                   "order_id, origin and destination are required")
      else
        mapErr (fun err => match err with
                           | ErrNoRows => status.Error codes.NotFound "order not found"
                           | _ => status.Error codes.Internal "update order"
                           end)
          (OrderRepository.UpdateLocations orderId
             (userv1.Lat origin) (userv1.Lng origin)
             (userv1.Lat destination) (userv1.Lng destination)) ;;;
        ord <~ orError codes.Internal "get order" (OrderRepository.GetByID orderId) ;;
        match ord with
        | None => fail (status.Error codes.NotFound "order not found")
        | Some ord => ret (toProtoOrder (Some ord))
        end
  | _ => fail (status.Error codes.InvalidArgument
                 "order_id, origin and destination are required")
  end.

Definition UpdateDroneStatus `{unicode.CaseRanges} (ctx : auth.Context)
    (req : option adminv1.UpdateDroneStatusRequest)
  : M status.t Drone.t :=
  auth.RequireAdmin ctx ;;;
  match req with
  | None => fail (status.Error codes.InvalidArgument "drone_id is required")
  | Some req =>
      if bool_decide (adminv1.DroneId req = 0)
      then fail (status.Error codes.InvalidArgument "drone_id is required")
      else
        match adminv1.Status req with
        | adminv1.DRONE_STATUS_UNSPECIFIED =>
            fail (status.Error codes.InvalidArgument "status must be FIXED or BROKEN")
        | st =>
            let st := match st with
                      | adminv1.DRONE_STATUS_BROKEN => DroneStatusBroken
                      | _ => DroneStatusFixed
                      end in
            mapErr (fun err => match err with
                               | ErrNoRows => status.Error codes.NotFound "drone not found"
                               | _ => status.Error codes.Internal "update status"
                               end)
              (DroneRepository.UpdateStatus (adminv1.DroneId req) st) ;;;
            d <~ orError codes.Internal "get drone"
                   (DroneRepository.GetByID (adminv1.DroneId req)) ;;
            match d with
            | None => fail (status.Error codes.NotFound "drone not found")
            | Some d => ret d
            end
        end
  end.

Definition toProtoAdminDrone (d : Drone.t) : adminv1.Drone :=
  adminv1.mkDrone (Drone.ID d) (Drone.SerialNumber d) (Drone.Name d)
    (Drone.Lat d) (Drone.Lng d) (Drone.SpeedMPH d) (Drone.AssignedJob d)
    match Drone.Status d with
    | DroneStatusFixed => adminv1.DRONE_STATUS_FIXED
    | DroneStatusBroken => adminv1.DRONE_STATUS_BROKEN
    end.

Definition strPtr (v : option string) : option string :=
  match v with
  | None => None
  | Some s => if String.eqb (strings.TrimSpace s) "" then None else Some s
  end.

Section GetDrones.
Variable like : string -> string -> bool.
Context `{unicode.CaseRanges}.

(** A nil request reads as the empty request. The page token is the
    decimal id of the last drone of the page before. *)
Definition GetDrones (ctx : auth.Context) (req : option adminv1.GetDronesRequest)
  : M status.t adminv1.GetDronesResponse :=
  auth.RequireAdmin ctx ;;;
  let req := default (adminv1.mkGetDronesRequest 0 "" None None None None) req in
  let size := DroneRepository.pageSize (adminv1.GetDrones_PageSize req) in
  let t := strings.TrimSpace (adminv1.GetDrones_PageToken req) in
  afterID <~ (if String.eqb t "" then ret 0
              else match fmt.Sscanf_d t with
                   | None => fail (status.Error codes.InvalidArgument "invalid page_token")
                   | Some v => ret v
                   end) ;;
  let st := match adminv1.GetDrones_Status req with
            | Some adminv1.DRONE_STATUS_FIXED => Some DroneStatusFixed
            | Some adminv1.DRONE_STATUS_BROKEN => Some DroneStatusBroken
            | _ => None
            end in
  list <~ orError codes.Internal "list drones"
            (DroneRepository.ListAdmin like
               (DroneRepository.mkListDronesAdminParams st
                  (adminv1.GetDrones_AssignedOnly req)
                  (adminv1.GetDrones_UnassignedOnly req)
                  (strPtr (adminv1.GetDrones_NameOrSerialContains req))
                  size afterID)) ;;
  let last := List.last (map Drone.ID list) 0 in
  ret (adminv1.mkGetDronesResponse (map toProtoAdminDrone list)
         (if (Z.of_nat (length list) =? size) && negb (last =? 0)
          then strconv.FormatInt last else "")).

End GetDrones.

End AdminServer.

(* ===================================================================== *)
(** * The service as a transition system *)
(* ===================================================================== *)

(** The remote procedure calls that write to the database, and
    [GetAssignedOrder]. The listing calls ([ListOrders], [GetOrders],
    [GetDrones]) only issue SELECT statements and are not represented. *)
Inductive Call :=
| CallSetOrder (ctx : auth.Context) (req : option userv1.SetOrderRequest)
| CallWithdrawOrder (ctx : auth.Context) (orderId : Z)
| CallReserveOrder (ctx : auth.Context)
| CallGrabOrder (ctx : auth.Context)
| CallCompleteOrder (ctx : auth.Context) (delivered : bool)
| CallMarkBroken (ctx : auth.Context)
| CallHeartbeat (ctx : auth.Context) (req : option dronev1.HeartbeatRequest)
| CallGetAssignedOrder (ctx : auth.Context)
| CallUpdateOrderLocation (ctx : auth.Context) (req : option adminv1.UpdateOrderLocationRequest)
| CallUpdateDroneStatus (ctx : auth.Context) (req : option adminv1.UpdateDroneStatusRequest).

Definition outcome {E A} (r : DB * (E + A)) : DB * (E + unit) :=
  (r.1, match r.2 with inl e => inl e | inr _ => inr tt end).

(** The database after a call, and whether the call succeeded. *)
Definition serve `{unicode.CaseRanges} (m : libm) (c : Call) (db : DB) : DB * (status.t + unit) :=
  match c with
  | CallSetOrder ctx req => outcome (Server.SetOrder ctx req db)
  | CallWithdrawOrder ctx orderId => outcome (Server.WithdrawOrder ctx orderId db)
  | CallReserveOrder ctx => outcome (DroneServer.ReserveOrder ctx db)
  | CallGrabOrder ctx => outcome (DroneServer.GrabOrder m ctx db)
  | CallCompleteOrder ctx delivered => outcome (DroneServer.CompleteOrder m ctx delivered db)
  | CallMarkBroken ctx => outcome (DroneServer.MarkBroken ctx db)
  | CallHeartbeat ctx req => outcome (DroneServer.Heartbeat ctx req db)
  | CallGetAssignedOrder ctx => outcome (DroneServer.GetAssignedOrder m ctx db)
  | CallUpdateOrderLocation ctx req => outcome (AdminServer.UpdateOrderLocation ctx req db)
  | CallUpdateDroneStatus ctx req => outcome (AdminServer.UpdateDroneStatus ctx req db)
  end.

(** The repository methods, as seeding scripts, tests and requests still in
    progress call them one at a time. *)
Inductive RepoCall :=
| Users_Create (username : string)
| Users_GetByUsername (username : string)
| Users_UpdateRoleByUsername (username role : string)
| Orders_Create (o : Order.row)
| Orders_GetByID (id : Z)
| Orders_UpdateStatus (id : Z) (st : OrderStatus)
| Orders_UpdatePickupLocation (id : Z) (lat lng : float)
| Orders_UpdateLocations (id : Z) (originLat originLng destLat destLng : float)
| Orders_AppendDronePath (orderID droneID : Z)
| Orders_FindNextAvailableForReservation (droneID : Z)
| Drones_Create (d : Drone.row)
| Drones_GetByID (id : Z)
| Drones_GetBySerial (serial : string)
| Drones_GetByName (name : string)
| Drones_UpdateLocationAndSpeed (id : Z) (lat lng speed : float)
| Drones_UpdateStatus (id : Z) (st : DroneStatus)
| Drones_AssignJob (id orderID : Z)
| Drones_UnassignJob (id : Z).

Definition call (c : RepoCall) (db : DB) : DB * (dberr + unit) :=
  match c with
  | Users_Create n => outcome (UserRepository.Create n db)
  | Users_GetByUsername n => outcome (UserRepository.GetByUsername n db)
  | Users_UpdateRoleByUsername n r => outcome (UserRepository.UpdateRoleByUsername n r db)
  | Orders_Create o => outcome (OrderRepository.Create o db)
  | Orders_GetByID id => outcome (OrderRepository.GetByID id db)
  | Orders_UpdateStatus id st => outcome (OrderRepository.UpdateStatus id st db)
  | Orders_UpdatePickupLocation id lat lng =>
      outcome (OrderRepository.UpdatePickupLocation id lat lng db)
  | Orders_UpdateLocations id a b c d => outcome (OrderRepository.UpdateLocations id a b c d db)
  | Orders_AppendDronePath o d => outcome (OrderRepository.AppendDronePath o d db)
  | Orders_FindNextAvailableForReservation d =>
      outcome (OrderRepository.FindNextAvailableForReservation d db)
  | Drones_Create d => outcome (DroneRepository.Create d db)
  | Drones_GetByID id => outcome (DroneRepository.GetByID id db)
  | Drones_GetBySerial s => outcome (DroneRepository.GetBySerial s db)
  | Drones_GetByName n => outcome (DroneRepository.GetByName n db)
  | Drones_UpdateLocationAndSpeed id a b c =>
      outcome (DroneRepository.UpdateLocationAndSpeed id a b c db)
  | Drones_UpdateStatus id st => outcome (DroneRepository.UpdateStatus id st db)
  | Drones_AssignJob id o => outcome (DroneRepository.AssignJob id o db)
  | Drones_UnassignJob id => outcome (DroneRepository.UnassignJob id db)
  end.

(** The database that [db.Open] creates. *)
Definition empty_db : DB := mkDB ∅ ∅ ∅ 0 0 0 "" [].

(** The states the database can be in: it starts empty; the clock and the
    driver behave as they like; repository methods run one at a time, in any
    order; and so do whole remote procedure calls. *)
Inductive reachable `{unicode.CaseRanges} (m : libm) : DB -> Prop :=
| reach_open : reachable m empty_db
| reach_env db t f : reachable m db -> reachable m (with_env t f db)
| reach_repo db c : reachable m db -> reachable m (call c db).1
| reach_rpc db c : reachable m db -> reachable m (serve m c db).1.

(* ===================================================================== *)
(** * Vocabulary of the specification *)
(* ===================================================================== *)

(** No byte of [s] is [c]. *)
Fixpoint avoids (c : ascii) (s : string) : Prop :=
  match s with
  | EmptyString => True
  | String x s' => x <> c /\ avoids c s'
  end.


(** The driver fails none of the statements to come. *)
Definition no_faults (db : DB) : Prop := faults db = [].

(** ** The selection policy, in the words of the specification *)

(** The comma-delimited elements of a drone path. *)
Definition path_elements (path : option string) : list string :=
  match path with
  | None => []
  | Some p => strings.Split p ","%char
  end.

(** The three filter predicates on an order of the store. *)
Definition available (db : DB) (droneID : Z) (o : Order.t) : Prop :=
  orders db !! Order.ID o = Some (Order.cols o)
  /\ (forall k d, drones db !! k = Some d -> Drone.AssignedJob d <> Some (Order.ID o))
  /\ (Order.Status o = OrderStatusToPickUp \/ Order.Status o = OrderStatusPlaced)
  /\ ~ In (strconv.FormatInt droneID) (path_elements (Order.DronePath o)).

(** [a] is not after [b]: 'to pick up' before 'placed', then ascending
    placementAt, then ascending id. *)
Definition not_after (a b : Order.t) : Prop :=
  (Order.Status a = OrderStatusToPickUp /\ Order.Status b = OrderStatusPlaced)
  \/ (Order.Status a = Order.Status b
      /\ (String.compare (Order.PlacementAt a) (Order.PlacementAt b) = Lt
          \/ (Order.PlacementAt a = Order.PlacementAt b /\ Order.ID a <= Order.ID b))).

Definition first_available (db : DB) (droneID : Z) (o : Order.t) : Prop :=
  available db droneID o
  /\ forall o', available db droneID o' -> not_after o o'.

(** ** A small fleet

    One user, three orders placed one second apart (the second handed off
    and waiting to be picked up, the third already tried by drone 1), and
    three idle drones. *)
Definition order_at (lat lng : float) (st : OrderStatus) (placed : string)
    (path : option string) : Order.row :=
  Order.Row lat lng (lat + 1)%float (lng + 1)%float 1 st placed None None path.

Definition drone_at (name serial : string) (lat lng : float) (job : option Z)
    (st : DroneStatus) : Drone.row :=
  Drone.Row name serial lat lng 10%float job st.

Definition fleet_db : DB :=
  mkDB (<[ "u" := User.mk 1 "u" "end user" ]>
          (<[ "root" := User.mk 2 "root" " Admin" ]> ∅))
       (<[ 1 := order_at 0 0 OrderStatusPlaced "2024-01-02 03:04:05" None ]>
          (<[ 2 := order_at 0 0 OrderStatusToPickUp "2024-01-02 03:04:06" None ]>
             (<[ 3 := order_at 0 0 OrderStatusPlaced "2024-01-02 03:04:07" (Some "1") ]> ∅)))
       (<[ 1 := drone_at "alpha" "SER-1" 0 0 None DroneStatusFixed ]>
          (<[ 2 := drone_at "bravo" "SER-2" 0 0 None DroneStatusFixed ]>
             (<[ 3 := drone_at "charlie" "SER-3" 0 0 None DroneStatusFixed ]> ∅)))
       2 3 3 "2024-01-02 03:04:08" [].

(** The same fleet later on: drone 1 carries order 2 and is half way, drone
    2 has reserved order 1 and waits at its origin, order 3 was delivered. *)
Definition flight_db : DB :=
  mkDB (<[ "u" := User.mk 1 "u" "end user" ]>
          (<[ "root" := User.mk 2 "root" " Admin" ]> ∅))
       (<[ 1 := order_at 0 0 OrderStatusPlaced "2024-01-02 03:04:05" (Some "2") ]>
          (<[ 2 := order_at 0 0 OrderStatusEnRoute "2024-01-02 03:04:06" (Some "1") ]>
             (<[ 3 := order_at 0 0 OrderStatusDelivered "2024-01-02 03:04:07" (Some "1,3") ]> ∅)))
       (<[ 1 := drone_at "alpha" "SER-1" 0.5 0.5 (Some 2) DroneStatusFixed ]>
          (<[ 2 := drone_at "bravo" "SER-2" 0 0 (Some 1) DroneStatusFixed ]>
             (<[ 3 := drone_at "charlie" "SER-3" 1 1 None DroneStatusFixed ]> ∅)))
       2 3 3 "2024-01-02 04:00:00" [].

Definition as_drone (serial : string) : auth.Context :=
  Some (auth.mkPrincipal serial "drone").

Definition as_user (name : string) : auth.Context :=
  Some (auth.mkPrincipal name "enduser").

(** A case table for the examples. Of the runes beyond ASCII it lowers
    U+0130, the capital I with a dot above, to 'i' and the Kelvin sign
    U+212A to 'k', as the table of Go does, and leaves the others alone. *)
#[global] Instance sample_case : unicode.CaseRanges :=
  {| unicode.To_lower r := if r =? 304 then 105 else if r =? 8490 then 107 else r |}.

(** A libm good enough near zero: sin x is x, cos x is 1, atan2 y x is y/x. *)
Definition small_angle : libm :=
  Libm (fun x => x) (fun _ => 1%float) (fun y x => (y / x)%float).

(** ** Page tokens, in the words of the specification *)

(** The 64 characters of the URL-safe alphabet. *)
Definition base64url_char (c : ascii) : bool :=
  let n := N_of_ascii c in
  (((65 <=? n) && (n <=? 90)) || ((97 <=? n) && (n <=? 122))
   || ((48 <=? n) && (n <=? 57)) || (n =? 45) || (n =? 95))%N.

(** Valid unpadded URL-safe base64: only characters of the alphabet, and
    not a single character beyond a multiple of four. Trailing bits are not
    required to be zero. *)
Definition valid_base64url (s : string) : Prop :=
  Forall (fun c => base64url_char c = true) (list_ascii_of_string s)
  /\ (String.length s mod 4 <> 1)%nat.

(** The text without its carriage returns and line feeds. *)
Fixpoint without_newlines (s : string) : string :=
  match s with
  | EmptyString => EmptyString
  | String c s' =>
      if base64.newline c then without_newlines s' else String c (without_newlines s')
  end.

(** ** The admin gate, in the words of the specification *)

(** The persisted row of [name] exists and its role, lowercased and
    trimmed, is "admin". *)
Definition persisted_admin `{unicode.CaseRanges} (db : DB) (name : string) : Prop :=
  exists u, users db !! name = Some u
            /\ strings.ToLower (strings.TrimSpace (User.Role u)) = "admin".

Definition permission_denied {A} (r : status.t + A) : Prop :=
  exists msg, r = inl (status.Error codes.PermissionDenied msg).

(** ** What an edit of the coordinates leaves alone *)

(** Every column other than the four coordinates is the same. *)
Definition same_but_locations (o o' : Order.row) : Prop :=
  Order.Status o' = Order.Status o
  /\ Order.PlacementAt o' = Order.PlacementAt o
  /\ Order.SubmittedBy o' = Order.SubmittedBy o
  /\ Order.PickupLat o' = Order.PickupLat o
  /\ Order.PickupLng o' = Order.PickupLng o
  /\ Order.DronePath o' = Order.DronePath o.

(** Between two databases: the same users and drones, the same order ids,
    the order [id] changed in its coordinates at most, every other order
    untouched. *)
Definition only_locations_of (id : Z) (db db' : DB) : Prop :=
  users db' = users db
  /\ drones db' = drones db
  /\ forall k,
       match orders db !! k, orders db' !! k with
       | Some o, Some o' => same_but_locations o o' /\ (k <> id -> o' = o)
       | None, None => True
       | _, _ => False
       end.

(** ** Calls by a drone, in the words of the specification *)

(** The call with context [ctx] on [db] is authenticated as a drone and
    resolves to the drone row [dr]; [db1] is the database left to the steps
    that follow (the tables of [db], with the driver further on). *)
Definition resolved (db : DB) (ctx : auth.Context) (dr : Drone.t) (db1 : DB) : Prop :=
  exists p, ctx = Some p /\ auth.Kind p = "drone"
            /\ DroneServer.resolveDrone (auth.Name p) db = (db1, inr dr).

(** Where the drone goes first: the origin, or the pickup coordinates when
    the status is 'to pick up' and both are set. *)
Definition start_of (o : Order.row) : float * float :=
  match Order.Status o, Order.PickupLat o, Order.PickupLng o with
  | OrderStatusToPickUp, Some lat, Some lng => (lat, lng)
  | _, _, _ => (Order.OriginLat o, Order.OriginLng o)
  end.

(** Within 100 feet: the Haversine distance in miles is at most
    [FeetToMiles 100]. A distance that is not a number is within no
    radius. *)
Definition within_radius (m : libm) (lat lng : float) (target : float * float) : Prop :=
  (geo.HaversineMiles m lat lng target.1 target.2
   <=? geo.FeetToMiles geo.RadiusFeet)%float = true.

(** The Haversine distance is not a number: a coordinate is infinite or
    not a number itself. *)
Definition no_distance (m : libm) (lat lng : float) (target : float * float) : Prop :=
  PrimFloat.is_nan (geo.HaversineMiles m lat lng target.1 target.2) = true.

(** [m] with the special cases that package math documents: [Sin] and
    [Cos] of an infinity or of a NaN are NaN, and so is [Atan2] of a NaN. *)
Definition special_cases (m : libm) : libm :=
  let undefined x := PrimFloat.is_nan x || PrimFloat.is_infinity x in
  Libm (fun x => if undefined x then PrimFloat.nan else Sin m x)
       (fun x => if undefined x then PrimFloat.nan else Cos m x)
       (fun y x => if PrimFloat.is_nan y || PrimFloat.is_nan x then PrimFloat.nan
                   else Atan2 m y x).

Definition failed_precondition {A} (r : status.t + A) : Prop :=
  exists msg, r = inl (status.Error codes.FailedPrecondition msg).

(** A drone row once marked broken: unassigned, status 'broken', the rest
    as it was. *)
Definition grounded (r : Drone.row) : Drone.row :=
  Drone.with_Status DroneStatusBroken (Drone.with_AssignedJob None r).

(** An order row once handed off at [lat], [lng]. *)
Definition handed_off (lat lng : float) (o : Order.row) : Order.row :=
  Order.with_Pickup lat lng (Order.with_Status OrderStatusToPickUp o).

(** ** Assignment, in the words of the specification *)

(** At most one drone per order: an order id is the assigned job of at most
    one drone row. *)
Definition one_drone_per_order (ds : gmap Z Drone.row) : Prop :=
  forall d1 d2 r1 r2 o,
    ds !! d1 = Some r1 -> ds !! d2 = Some r2 ->
    Drone.AssignedJob r1 = Some o -> Drone.AssignedJob r2 = Some o ->
    d1 = d2.

(** A drone other than [d] holds the order [o]. *)
Definition held_by_another (db : DB) (d o : Z) : Prop :=
  exists d' r', d' <> d /\ drones db !! d' = Some r'
                /\ Drone.AssignedJob r' = Some o.

(** ** Order statuses, in the words of the specification *)

Definition terminal (st : OrderStatus) : Prop :=
  st = OrderStatusDelivered \/ st = OrderStatusFailed \/ st = OrderStatusWithdrawn.

Definition status_of (db : DB) (id : Z) : option OrderStatus :=
  Order.Status <$> orders db !! id.

(** The two calls that write a status without looking at the present
    one. The call [c] is the withdrawal of the order [id] by the user who
    submitted it: the user row of the principal exists and its id is the
    order's submitted_by. *)
Definition withdrawal_by_submitter (db : DB) (c : Call) (id : Z) : Prop :=
  exists ctx p u o,
    c = CallWithdrawOrder ctx id /\ ctx = Some p
    /\ users db !! auth.Name p = Some u /\ orders db !! id = Some o
    /\ Order.SubmittedBy o = User.ID u.

(** The call [c] is a completion by the drone that holds the order [id]. *)
Definition completion_by_holder (db : DB) (c : Call) (id : Z) : Prop :=
  exists ctx delivered dr db1,
    c = CallCompleteOrder ctx delivered /\ resolved db ctx dr db1
    /\ Drone.AssignedJob dr = Some id.

(** ** Predicates on computations *)

(** A computation keeps [I]: from a database in [I] it ends in one, whether
    it returns a value or an error. *)
Definition preserves {E A} (I : DB -> Prop) (m : M E A) : Prop :=
  forall db, I db -> I (m db).1.

(** A property of the tables alone does not see the driver. *)
Definition on_tables (I : DB -> Prop) : Prop :=
  forall db f, I db -> I (with_faults f db).

(** At most one drone per order, as a property of the database. *)
Definition unique_assignment (db : DB) : Prop := one_drone_per_order (drones db).

(** From a database in [P], the computation ends in [Q a] when it returns
    [a] and in [R] when it returns an error. *)
Definition triple {E A} (P : DB -> Prop) (m : M E A)
    (Q : A -> DB -> Prop) (R : DB -> Prop) : Prop :=
  forall db, P db ->
    match m db with
    | (db', inr a) => Q a db'
    | (db', inl _) => R db'
    end.

(** The order [id] has the status [st]. *)
Definition status_at (id : Z) (st : OrderStatus) (db : DB) : Prop :=
  status_of db id = Some st.


(* ===================================================================== *)
(** * The service with the other repository methods *)
(* ===================================================================== *)

(** The repository methods that no handler calls; tests, seeding scripts
    and maintenance do. With those of [RepoCall] they are all the methods
    of the three repositories that write. The listing methods, which are
    not in either type, only read: in the embedding a SELECT changes the
    driver's schedule and nothing else, as [with_env] does. *)
Inductive RepoCallMore :=
| Users_Delete (id : Z)
| Orders_Update (o : option Order.t)
| Orders_UpdateAssignedDrone (id : Z) (droneID : option Z)
| Orders_Withdraw (id : Z)
| Orders_FindByAssignedDrone (droneID : Z)
| Orders_Delete (id : Z)
| Orders_GetByUserID (userID : Z)
| Orders_ListByUserID (userID : Z)
| Orders_GetAssignedOrderForDrone (droneID : Z)
| Orders_AddDroneToPath (orderID droneID : Z)
| Drones_GetByOrderID (orderID : Z)
| Drones_Delete (id : Z).

Definition call_more (c : RepoCallMore) (db : DB) : DB * (dberr + unit) :=
  match c with
  | Users_Delete id => outcome (UserRepository.Delete id db)
  | Orders_Update o => outcome (OrderRepository.Update o db)
  | Orders_UpdateAssignedDrone id d => outcome (OrderRepository.UpdateAssignedDrone id d db)
  | Orders_Withdraw id => outcome (OrderRepository.Withdraw id db)
  | Orders_FindByAssignedDrone d => outcome (OrderRepository.FindByAssignedDrone d db)
  | Orders_Delete id => outcome (OrderRepository.Delete id db)
  | Orders_GetByUserID u => outcome (OrderRepository.GetByUserID u db)
  | Orders_ListByUserID u => outcome (OrderRepository.ListByUserID u db)
  | Orders_GetAssignedOrderForDrone d =>
      outcome (OrderRepository.GetAssignedOrderForDrone d db)
  | Orders_AddDroneToPath o d => outcome (OrderRepository.AddDroneToPath o d db)
  | Drones_GetByOrderID o => outcome (DroneRepository.GetByOrderID o db)
  | Drones_Delete id => outcome (DroneRepository.Delete id db)
  end.

(** The states of the database when these methods run as well. *)
Inductive reachable_all `{unicode.CaseRanges} (m : libm) : DB -> Prop :=
| reach_all_open : reachable_all m empty_db
| reach_all_env db t f : reachable_all m db -> reachable_all m (with_env t f db)
| reach_all_repo db c : reachable_all m db -> reachable_all m (call c db).1
| reach_all_more db c : reachable_all m db -> reachable_all m (call_more c db).1
| reach_all_rpc db c : reachable_all m db -> reachable_all m (serve m c db).1.

(** Every assigned job is the id of an order of the table. *)
Definition assignments_refer (db : DB) : Prop :=
  forall k d o, drones db !! k = Some d -> Drone.AssignedJob d = Some o ->
                is_Some (orders db !! o).

(* ===================================================================== *)
(** * internal/config *)
(* ===================================================================== *)
Module config.

(** The environment of the process, as [os.LookupEnv] reads it. *)
Definition Environ := gmap string string.

Record Config := mkConfig {
  Database_Path : string;
  GRPC_Address : string;
  Auth_JWTSecret : string
}.

Definition getEnv (env : Environ) (key defaultVal : string) : string :=
  match env !! key with
  | Some value => value
  | None => defaultVal
  end.

(** [strconv.Atoi] reads what [strconv.ParseInt(s, 10, 64)] reads. *)
Definition getEnvInt (env : Environ) (key : string) (defaultVal : Z) : strconv.NumError + Z :=
  match env !! key with
  | Some value => strconv.ParseInt value
  | None => inr defaultVal
  end.

Definition Load (env : Environ) : string + Config :=
  let cfg := mkConfig (getEnv env "DB_PATH" "app.db")
               (getEnv env "GRPC_ADDRESS" ":50051")
               (getEnv env "JWT_SECRET" "") in
  if String.eqb (Auth_JWTSecret cfg) ""
  then inl "JWT_SECRET environment variable is not set; required for production"
  else inr cfg.

Definition LoadWithDefaults (env : Environ) : string + Config :=
  inr (mkConfig (getEnv env "DB_PATH" "app.db")
         (getEnv env "GRPC_ADDRESS" ":50051")
         (getEnv env "JWT_SECRET" "dev-secret-change-me")).

(** [fmt.Sprintf] with two %s verbs. *)
Definition String (c : Config) : string :=
  ("Config{DB: " ++ Database_Path c ++ ", gRPC: " ++ GRPC_Address c
   ++ ", Auth: *** (masked) ***}")%string.

End config.

(** ** Order of the rows of a listing *)

(** Strictly ascending ids. *)
Definition key_lt {R} (a b : Z * R) : Prop := a.1 < b.1.
(* ===================================================================== *)
(** * Properties *)
(* ===================================================================== *)

(** ** Decimal text *)

Lemma avoids_digits c d :
  (forall x, In x (list_ascii_of_string "0123456789") -> x <> c) ->
  avoids c (NilEmpty.string_of_uint d).
Proof.
  intros Hc.
  induction d; simpl; try exact I; (split; [apply Hc; simpl; tauto | assumption]).
Qed.

Lemma avoids_FormatInt c n :
  (forall x, In x (list_ascii_of_string "-0123456789") -> x <> c) ->
  avoids c (strconv.FormatInt n).
Proof.
  intros Hc.
  assert (Hd : forall d, avoids c (NilEmpty.string_of_uint d)).
  { intros d. apply avoids_digits. intros x Hx. apply Hc. simpl in *. tauto. }
  assert (Hz : forall d, avoids c (NilZero.string_of_uint d)).
  { intros d. destruct d; try apply Hd. simpl. split; [apply Hc; simpl; tauto | exact I]. }
  unfold strconv.FormatInt.
  destruct (Z.to_int n) as [d | d]; simpl.
  - apply Hz.
  - split; [apply Hc; simpl; tauto | apply Hz].
Qed.

Lemma FormatInt_no_comma n : avoids ","%char (strconv.FormatInt n).
Proof.
  apply avoids_FormatInt. intros x Hx. simpl in Hx.
  repeat (destruct Hx as [<- | Hx]; [discriminate |]). destruct Hx.
Qed.

Lemma FormatInt_no_separator n : avoids Server.cursorSeparator (strconv.FormatInt n).
Proof.
  apply avoids_FormatInt. intros x Hx. simpl in Hx.
  repeat (destruct Hx as [<- | Hx]; [discriminate |]). destruct Hx.
Qed.

(** ** The comma-padded membership test of the selection query *)

Lemma Split_cons s sep : exists h t, strings.Split s sep = h :: t.
Proof.
  induction s as [| c s IH]; simpl; [eauto |].
  destruct (Ascii.eqb c sep); [eauto |].
  destruct IH as (h & t & ->). eauto.
Qed.

Lemma Split_sep s sep : strings.Split (String sep s) sep = EmptyString :: strings.Split s sep.
Proof. simpl. now rewrite Ascii.eqb_refl. Qed.

Lemma Split_other c s sep h t :
  c <> sep -> strings.Split s sep = h :: t ->
  strings.Split (String c s) sep = String c h :: t.
Proof.
  intros Hc Hs. simpl. rewrite Hs.
  destruct (Ascii.eqb_spec c sep); [contradiction | reflexivity].
Qed.

Lemma append_nil s : ("" ++ s)%string = s.
Proof. reflexivity. Qed.

Lemma append_String c s t : (String c s ++ t)%string = String c (s ++ t).
Proof. reflexivity. Qed.

Ltac norm_append := rewrite ?append_String, ?append_nil in *.

Lemma prefix_cons a s1 b s2 :
  String.prefix (String a s1) (String b s2)
  = if Ascii.eqb a b then String.prefix s1 s2 else false.
Proof.
  cbn [String.prefix].
  destruct (ascii_dec a b), (Ascii.eqb_spec a b); congruence.
Qed.

Lemma prefix_nonempty_nil a s1 : String.prefix (String a s1) "" = false.
Proof. reflexivity. Qed.

Lemma prefix_nil s : String.prefix "" s = true.
Proof. destruct s; reflexivity. Qed.

Lemma eqb_ne (a b : ascii) : a <> b -> Ascii.eqb a b = false.
Proof. intros H. now destruct (Ascii.eqb_spec a b). Qed.

(** With the trailing comma in place, [d] is a prefix exactly when the first
    element of the path is [d]. *)
Lemma prefix_first_element d p h t :
  avoids ","%char d ->
  strings.Split p ","%char = h :: t ->
  String.prefix (d ++ ",") (p ++ ",") = true <-> h = d.
Proof.
  revert p h t. induction d as [| x d IH]; intros p h t Hd Hs.
  - destruct p as [| c p]; norm_append.
    + injection Hs as <- <-. now rewrite prefix_cons, Ascii.eqb_refl, prefix_nil.
    + rewrite prefix_cons, prefix_nil.
      destruct (Ascii.eqb_spec ","%char c) as [<- | Hne].
      * rewrite Split_sep in Hs. injection Hs as <- <-. done.
      * destruct (Split_cons p ","%char) as (h' & t' & Hp).
        rewrite (Split_other c p _ h' t') in Hs by congruence.
        injection Hs as <- <-. split; discriminate.
  - destruct Hd as [Hx Hd].
    destruct p as [| c p]; norm_append.
    + injection Hs as <- <-. rewrite prefix_cons, (eqb_ne _ _ Hx).
      split; discriminate.
    + rewrite prefix_cons.
      destruct (Ascii.eqb_spec x c) as [<- | Hne].
      * destruct (Split_cons p ","%char) as (h' & t' & Hp).
        rewrite (Split_other x p _ h' t') in Hs by assumption.
        injection Hs as <- <-.
        rewrite (IH p h' t' Hd Hp). split; [now intros -> | now intros [= ->]].
      * split; [discriminate |]. intros ->.
        destruct (Ascii.eqb_spec c ","%char) as [-> | Hc].
        -- rewrite Split_sep in Hs. discriminate.
        -- destruct (Split_cons p ","%char) as (h' & t' & Hp).
           rewrite (Split_other c p _ h' t') in Hs by assumption.
           injection Hs as Hs _. congruence.
Qed.

Lemma instr_unfold c X Y :
  sqlite.instr (String c X) Y
  = if String.prefix Y (String c X) then 1%nat
    else match sqlite.instr X Y with
         | O => 0%nat
         | S n => S (S n)
         end.
Proof. reflexivity. Qed.

Lemma instr_after_first d p h t :
  avoids ","%char d ->
  strings.Split p ","%char = h :: t ->
  sqlite.instr (p ++ ",") ("," ++ d ++ ",") = 0%nat <-> ~ In d t.
Proof.
  intros Hd. revert h t. induction p as [| c p IH]; intros h t Hs.
  - cbn [strings.Split] in Hs. injection Hs as <- <-.
    norm_append. rewrite instr_unfold, prefix_cons, Ascii.eqb_refl.
    assert (E : String.prefix (d ++ ",") "" = false) by (destruct d; reflexivity).
    rewrite E. cbn [sqlite.instr]. rewrite prefix_nonempty_nil.
    split; [intros _ [] | reflexivity].
  - destruct (Split_cons p ","%char) as (h' & t' & Hp).
    specialize (IH h' t' Hp).
    norm_append. rewrite instr_unfold, prefix_cons.
    destruct (Ascii.eqb_spec ","%char c) as [<- | Hne].
    + rewrite Split_sep, Hp in Hs. injection Hs as <- <-.
      pose proof (prefix_first_element d p h' t' Hd Hp) as Hpre.
      destruct (String.prefix (d ++ ",") (p ++ ",")).
      * split; [discriminate |]. intros Hn. exfalso. apply Hn. left. now apply Hpre.
      * destruct (sqlite.instr (p ++ ",") (String "," (d ++ ","))).
        -- split; [| reflexivity]. intros _ [Hh | Ht].
           ++ apply Hpre in Hh. discriminate.
           ++ now apply IH.
        -- split; [discriminate |]. intros Hn.
           assert (Hz : S n = 0%nat) by (apply IH; intros Ht; apply Hn; now right).
           discriminate.
    + rewrite (Split_other c p _ h' t') in Hs by congruence.
      injection Hs as <- <-.
      destruct (sqlite.instr (p ++ ",") (String "," (d ++ ","))).
      * tauto.
      * split; [discriminate |]. intros Hn. apply IH in Hn. discriminate.
Qed.

(** The substring test on the comma-padded strings is membership among the
    comma-delimited elements: 12 is not found inside 123. *)
Lemma instr_comma_padded d p :
  avoids ","%char d ->
  sqlite.instr ("," ++ p ++ ",") ("," ++ d ++ ",") = 0%nat
  <-> ~ In d (strings.Split p ","%char).
Proof.
  intros Hd.
  exact (instr_after_first d (String "," p) "" (strings.Split p ","%char) Hd
           (Split_sep p ","%char)).
Qed.

(** ** The ordering of the selection query *)

Lemma ascii_compare_lt (a b : ascii) :
  Ascii.compare a b = Lt <-> (N_of_ascii a < N_of_ascii b)%N.
Proof. unfold Ascii.compare. apply N.compare_lt_iff. Qed.

Lemma ascii_compare_eq (a b : ascii) : Ascii.compare a b = Eq <-> a = b.
Proof.
  split; [apply Ascii.compare_eq_iff |].
  intros ->. unfold Ascii.compare. apply N.compare_refl.
Qed.

Lemma string_compare_refl s : String.compare s s = Eq.
Proof.
  induction s as [| c s IH]; cbn; [reflexivity |].
  now rewrite (proj2 (ascii_compare_eq c c) eq_refl).
Qed.

Lemma string_compare_lt_trans a b c :
  String.compare a b = Lt -> String.compare b c = Lt -> String.compare a c = Lt.
Proof.
  revert b c. induction a as [| x a IH]; intros [| y b] [| z c]; cbn; try congruence.
  destruct (Ascii.compare x y) eqn:Hxy; try discriminate;
    destruct (Ascii.compare y z) eqn:Hyz; try discriminate; intros Hab Hbc.
  - apply Ascii.compare_eq_iff in Hxy, Hyz. subst.
    rewrite (proj2 (ascii_compare_eq z z) eq_refl). eauto.
  - apply Ascii.compare_eq_iff in Hxy. subst. now rewrite Hyz.
  - apply Ascii.compare_eq_iff in Hyz. subst. now rewrite Hxy.
  - apply (proj1 (ascii_compare_lt _ _)) in Hxy.
    apply (proj1 (ascii_compare_lt _ _)) in Hyz.
    assert (H : Ascii.compare x z = Lt) by (apply ascii_compare_lt; lia).
    now rewrite H.
Qed.

Lemma order_by_antisym a b :
  OrderRepository.order_by b a = CompOpp (OrderRepository.order_by a b).
Proof.
  unfold OrderRepository.order_by.
  rewrite (Z.compare_antisym (OrderRepository.rank (Order.Status a.2))
             (OrderRepository.rank (Order.Status b.2))).
  rewrite (String.compare_antisym (Order.PlacementAt b.2) (Order.PlacementAt a.2)).
  rewrite (Z.compare_antisym a.1 b.1).
  destruct (OrderRepository.rank (Order.Status a.2)
            ?= OrderRepository.rank (Order.Status b.2)); cbn; try reflexivity.
  destruct (String.compare (Order.PlacementAt a.2) (Order.PlacementAt b.2));
    cbn; reflexivity.
Qed.

(** What [precedes] says, spelled out. *)
Lemma precedes_iff a b :
  OrderRepository.precedes a b <->
  OrderRepository.rank (Order.Status a.2) < OrderRepository.rank (Order.Status b.2)
  \/ (OrderRepository.rank (Order.Status a.2) = OrderRepository.rank (Order.Status b.2)
      /\ (String.compare (Order.PlacementAt a.2) (Order.PlacementAt b.2) = Lt
          \/ (Order.PlacementAt a.2 = Order.PlacementAt b.2 /\ a.1 <= b.1))).
Proof.
  unfold OrderRepository.precedes, OrderRepository.order_by.
  destruct (Z.compare_spec (OrderRepository.rank (Order.Status a.2))
              (OrderRepository.rank (Order.Status b.2))) as [E | L | G].
  - destruct (String.compare (Order.PlacementAt a.2) (Order.PlacementAt b.2)) eqn:C.
    + apply String.compare_eq_iff in C.
      destruct (Z.compare_spec a.1 b.1) as [Ei | Li | Gi]; split; intros Hx;
        try congruence;
        try (right; split; [assumption | right; split; [assumption | lia]]).
      destruct Hx as [Hx | (_ & [Hx | (_ & Hx)])]; try lia. discriminate.
    + split; [intros _ | congruence]. right. split; [assumption | now left].
    + split; [congruence |]. intros [Hx | (_ & [Hx | (Hx & _)])]; try lia; try congruence.
      rewrite Hx, string_compare_refl in C. discriminate.
  - split; [intros _; now left | congruence].
  - split; [congruence |]. intros [Hx | (Hx & _)]; lia.
Qed.

#[global] Instance precedes_trans : Transitive OrderRepository.precedes.
Proof.
  intros a b c. rewrite !precedes_iff.
  intros [H1 | (E1 & H1)] [H2 | (E2 & H2)]; try (left; lia).
  right. split; [lia |].
  destruct H1 as [L1 | (P1 & I1)], H2 as [L2 | (P2 & I2)].
  - left. eapply string_compare_lt_trans; eassumption.
  - left. now rewrite <- P2.
  - left. now rewrite P1.
  - right. split; [congruence | lia].
Qed.

#[global] Instance precedes_total : Total OrderRepository.precedes.
Proof.
  intros a b. unfold OrderRepository.precedes.
  rewrite (order_by_antisym a b).
  destruct (OrderRepository.order_by a b); cbn; [left | left | right]; congruence.
Qed.

Lemma precedes_both a b :
  OrderRepository.precedes a b -> OrderRepository.precedes b a -> a.1 = b.1.
Proof.
  rewrite !precedes_iff.
  intros [H1 | (E1 & H1)] [H2 | (E2 & H2)]; try lia.
  destruct H1 as [L1 | (P1 & I1)], H2 as [L2 | (P2 & I2)]; try lia.
  - pose proof (string_compare_lt_trans _ _ _ L1 L2) as H.
    rewrite string_compare_refl in H. discriminate.
  - rewrite P2, string_compare_refl in L1. discriminate.
  - rewrite P1, string_compare_refl in L2. discriminate.
Qed.

(** The first row of a sorted selection. *)
Lemma merge_sort_head {A} (R : relation A) `{!RelDecision R, !Transitive R, !Total R}
    (l : list A) :
  match merge_sort R l with
  | [] => l = []
  | x :: _ => In x l /\ forall y, In y l -> R x y
  end.
Proof.
  pose proof (StronglySorted_merge_sort R l) as Hs.
  pose proof (merge_sort_Permutation R l) as Hp.
  destruct (merge_sort R l) as [| x s].
  - now apply Permutation_nil in Hp.
  - split.
    + apply list_elem_of_In. rewrite <- Hp. left.
    + intros y Hy. apply list_elem_of_In in Hy. rewrite <- Hp in Hy.
      apply StronglySorted_inv in Hs as [_ Hall].
      apply elem_of_cons in Hy as [-> | Hy].
      * destruct (total R x x); assumption.
      * rewrite Forall_forall in Hall. now apply Hall.
Qed.

(** ** Statements when the driver does not fail *)

Lemma with_faults_id db : with_faults (faults db) db = db.
Proof. now destruct db. Qed.

Lemma exec_no_faults {A} (stmt : DB -> dberr + (DB * A)) db :
  no_faults db ->
  exec stmt db = match stmt db with
                 | inl e => (db, inl e)
                 | inr (db', a) => (db', inr a)
                 end.
Proof.
  unfold no_faults, exec. intros H. rewrite H. cbn [tail].
  rewrite <- H, with_faults_id. reflexivity.
Qed.

Lemma query_no_faults {A} (q : DB -> A) db :
  no_faults db -> query q db = (db, inr (q db)).
Proof. intros H. unfold query. now rewrite exec_no_faults. Qed.

(** ** Running the combinators *)

Lemma run_bind {E A B} (m : M E A) (k : A -> M E B) db db' a :
  m db = (db', inr a) -> bind m k db = k a db'.
Proof. unfold bind. now intros ->. Qed.

Lemma run_bind_err {E A B} (m : M E A) (k : A -> M E B) db db' e :
  m db = (db', inl e) -> bind m k db = (db', inl e).
Proof. unfold bind. now intros ->. Qed.

Lemma run_orError {A} c msg (m : M dberr A) db db' a :
  m db = (db', inr a) -> orError c msg m db = (db', inr a).
Proof. unfold orError, mapErr. now intros ->. Qed.

Lemma run_orError_err {A} c msg (m : M dberr A) db db' e :
  m db = (db', inl e) -> orError c msg m db = (db', inl (status.Error c msg)).
Proof. unfold orError, mapErr. now intros ->. Qed.

(** The statements of the repositories, when the driver does not fail. *)
Section NoFaults.
Variable db : DB.
Hypothesis Hf : no_faults db.

Lemma Users_GetByUsername_run n :
  UserRepository.GetByUsername n db = (db, inr (users db !! n)).
Proof. exact (query_no_faults _ db Hf). Qed.

Lemma Orders_GetByID_run id :
  OrderRepository.GetByID id db = (db, inr (Order.mk id <$> orders db !! id)).
Proof. exact (query_no_faults _ db Hf). Qed.

Lemma Orders_UpdateStatus_run id st :
  OrderRepository.UpdateStatus id st db
  = (with_orders (alter (Order.with_Status st) id (orders db)) db, inr tt).
Proof. unfold OrderRepository.UpdateStatus. now rewrite exec_no_faults. Qed.

End NoFaults.

(** ** C1: the selection policy *)

Lemma unassigned_iff ds o :
  OrderRepository.unassigned ds o = true
  <-> forall k d, ds !! k = Some d -> Drone.AssignedJob d <> Some o.
Proof.
  unfold OrderRepository.unassigned.
  rewrite negb_true_iff, bool_decide_eq_false, map_Exists_lookup.
  split.
  - intros Hn k d Hk Hj. apply Hn. eauto.
  - intros Hall (k & d & Hk & Hj). exact (Hall k d Hk Hj).
Qed.

Lemma not_in_path_iff droneID path :
  OrderRepository.not_in_path droneID path = true
  <-> ~ In (strconv.FormatInt droneID) (path_elements path).
Proof.
  destruct path as [p |]; cbn [OrderRepository.not_in_path path_elements].
  - rewrite Nat.eqb_eq. apply instr_comma_padded, FormatInt_no_comma.
  - split; [intros _ [] | reflexivity].
Qed.

Lemma reservable_iff st :
  OrderRepository.reservable st = true
  <-> st = OrderStatusToPickUp \/ st = OrderStatusPlaced.
Proof. destruct st; cbn; split; intros H; try discriminate; auto; destruct H; discriminate. Qed.

Lemma selected_iff db droneID id r :
  In (id, r) (List.filter (OrderRepository.selectable (drones db) droneID)
                (map_to_list (orders db)))
  <-> available db droneID (Order.mk id r).
Proof.
  rewrite filter_In, <- list_elem_of_In, elem_of_map_to_list.
  unfold OrderRepository.selectable, available.
  rewrite !andb_true_iff, unassigned_iff, reservable_iff, not_in_path_iff.
  cbn. tauto.
Qed.

Lemma precedes_not_after (a b : Order.t) :
  OrderRepository.reservable (Order.Status a) = true ->
  OrderRepository.reservable (Order.Status b) = true ->
  OrderRepository.precedes (Order.ID a, Order.cols a) (Order.ID b, Order.cols b)
  <-> not_after a b.
Proof.
  intros Ha Hb. rewrite precedes_iff. unfold not_after. cbn [fst snd].
  destruct a as [ia ra], b as [ib rb]; cbn [Order.ID Order.cols] in *.
  destruct (Order.Status ra), (Order.Status rb); try discriminate; cbn;
    intuition (try lia; try congruence).
Qed.

(** C1. When the query runs, [FindNextAvailableForReservation d] returns an
    order exactly when that order passes the three filters (held by no
    drone, status 'to pick up' or 'placed', [d] not among the
    comma-delimited elements of its path) and is first among the orders that
    do, 'to pick up' before 'placed', then by ascending placementAt, then by
    ascending id; it returns no order exactly when none passes the filters. *)
Theorem FindNextAvailableForReservation_policy (db : DB) (d : Z) :
  no_faults db ->
  exists r : option Order.t,
    OrderRepository.FindNextAvailableForReservation d db = (db, inr r)
    /\ (forall o, r = Some o <-> first_available db d o)
    /\ (r = None <-> forall o, ~ available db d o).
Proof.
  intros Hf. unfold OrderRepository.FindNextAvailableForReservation.
  rewrite (query_no_faults _ _ Hf).
  set (rows := List.filter (OrderRepository.selectable (drones db) d)
                 (map_to_list (orders db))).
  assert (Hrows : forall id r, In (id, r) rows <-> available db d (Order.mk id r))
    by (intros; apply selected_iff).
  assert (Hres : forall o, available db d o ->
                           OrderRepository.reservable (Order.Status o) = true).
  { intros o (_ & _ & Hst & _). now apply reservable_iff. }
  pose proof (merge_sort_head OrderRepository.precedes rows) as Hhead.
  destruct (merge_sort OrderRepository.precedes rows) as [| [id r] rest] eqn:Hsort.
  - exists None. split; [reflexivity |]. split.
    + intros o. split; [discriminate |]. intros [Ha _].
      destruct o as [i x]. apply Hrows in Ha. rewrite Hhead in Ha. destruct Ha.
    + split; [| reflexivity]. intros _ [i x] Ha.
      apply Hrows in Ha. rewrite Hhead in Ha. destruct Ha.
  - destruct Hhead as [Hin Hmin].
    assert (Hfirst : first_available db d (Order.mk id r)).
    { split; [now apply Hrows |]. intros [i x] Ha.
      apply precedes_not_after; [apply Hres; now apply Hrows | now apply Hres |].
      apply (Hmin (i, x)). now apply Hrows. }
    exists (Some (Order.mk id r)). split; [reflexivity |]. split.
    + intros o. split; [now intros [= <-] |]. intros [Ha Ho].
      destruct o as [i x].
      assert (Hi : i = id).
      { apply (precedes_both (i, x) (id, r)).
        - apply (precedes_not_after (Order.mk i x) (Order.mk id r));
            [now apply Hres | apply Hres; now apply Hrows |].
          apply Ho. now apply Hrows.
        - apply (Hmin (i, x)). now apply Hrows. }
      subst i. f_equal. f_equal.
      destruct Ha as (Hx & _). destruct Hfirst as ((Hr & _) & _).
      cbn in Hx, Hr. congruence.
    + split; [discriminate |]. intros Hnone. exfalso.
      apply (Hnone (Order.mk id r)). now apply Hrows.
Qed.

Example fleet_first_reservation :
  (OrderRepository.FindNextAvailableForReservation 1 fleet_db).2
  = inr (Some (Order.mk 2 (order_at 0 0 OrderStatusToPickUp "2024-01-02 03:04:06" None))).
Proof. vm_compute. reflexivity. Qed.

Lemma FindNextAvailableForReservation_policy_witness :
  exists r : option Order.t,
    OrderRepository.FindNextAvailableForReservation 1 fleet_db = (fleet_db, inr r)
    /\ (forall o, r = Some o <-> first_available fleet_db 1 o)
    /\ (r = None <-> forall o, ~ available fleet_db 1 o).
Proof.
  apply (FindNextAvailableForReservation_policy fleet_db 1). reflexivity.
Defined.

(** ** Decimal text read back *)

Lemma of_uint_to_uint p : Z.of_uint (Pos.to_uint p) = Z.pos p.
Proof. unfold Z.of_uint. now rewrite DecimalPos.Unsigned.of_to. Qed.

Lemma ParseInt_unsigned c rest u :
  c <> "-"%char -> c <> "+"%char ->
  NilEmpty.uint_of_string (String c rest) = Some u ->
  Z.of_uint u < 2 ^ 63 ->
  strconv.ParseInt (String c rest) = inr (Z.of_uint u).
Proof.
  intros Hm Hp Hu Hr. unfold strconv.ParseInt.
  rewrite (eqb_ne _ _ Hm), (eqb_ne _ _ Hp). cbn [orb negb andb].
  rewrite Hu.
  destruct (Z.leb_spec (2 ^ 63) (Z.of_uint u)); [lia | reflexivity].
Qed.

Lemma ParseInt_digits u :
  u <> Decimal.Nil -> Z.of_uint u < 2 ^ 63 ->
  strconv.ParseInt (NilEmpty.string_of_uint u) = inr (Z.of_uint u).
Proof.
  intros Hn Hr.
  pose proof (NilEmpty.usu u) as Hu.
  destruct u; try contradiction; cbn [NilEmpty.string_of_uint] in *;
    (apply ParseInt_unsigned; [discriminate | discriminate | assumption | assumption]).
Qed.

Lemma ParseInt_minus_digits u :
  u <> Decimal.Nil -> Z.of_uint u <= 2 ^ 63 ->
  strconv.ParseInt (String "-" (NilEmpty.string_of_uint u)) = inr (- Z.of_uint u).
Proof.
  intros Hn Hr. unfold strconv.ParseInt.
  rewrite Ascii.eqb_refl, orb_true_r. cbn [negb andb].
  rewrite (NilEmpty.usu u).
  destruct (Z.ltb_spec (2 ^ 63) (Z.of_uint u)); [lia |].
  destruct u; try contradiction; reflexivity.
Qed.

Lemma NilZero_string_of_uint_nonnil u :
  u <> Decimal.Nil -> NilZero.string_of_uint u = NilEmpty.string_of_uint u.
Proof. destruct u; [contradiction | reflexivity ..]. Qed.

(** Every [int64] is read back from its decimal text. *)
Lemma ParseInt_FormatInt n :
  - 2 ^ 63 <= n < 2 ^ 63 -> strconv.ParseInt (strconv.FormatInt n) = inr n.
Proof.
  intros Hn. unfold strconv.FormatInt.
  destruct n as [| p | p]; cbn [Z.to_int NilZero.string_of_int].
  - reflexivity.
  - rewrite NilZero_string_of_uint_nonnil by apply DecimalPos.Unsigned.to_uint_nonnil.
    rewrite ParseInt_digits.
    + now rewrite of_uint_to_uint.
    + apply DecimalPos.Unsigned.to_uint_nonnil.
    + rewrite of_uint_to_uint. lia.
  - rewrite NilZero_string_of_uint_nonnil by apply DecimalPos.Unsigned.to_uint_nonnil.
    rewrite ParseInt_minus_digits.
    + now rewrite of_uint_to_uint.
    + apply DecimalPos.Unsigned.to_uint_nonnil.
    + rewrite of_uint_to_uint. lia.
Qed.

Lemma cut_at_separator sep a b :
  avoids sep a -> strings.cut sep (a ++ String sep b) = Some (a, b).
Proof.
  induction a as [| c a IH]; intros Ha; norm_append; cbn [strings.cut].
  - now rewrite Ascii.eqb_refl.
  - destruct Ha as [Hc Ha]. rewrite (eqb_ne _ _ Hc), (IH Ha). reflexivity.
Qed.

(** ** Base64 *)

Lemma dec6_enc6 x : base64.dec6 (base64.enc6 x) = Some x.
Proof.
  destruct x as [[[[[b5 b4] b3] b2] b1] b0].
  destruct b5, b4, b3, b2, b1, b0; reflexivity.
Qed.

Lemma newline_enc6 x : base64.newline (base64.enc6 x) = false.
Proof.
  destruct x as [[[[[b5 b4] b3] b2] b1] b0].
  destruct b5, b4, b3, b2, b1, b0; reflexivity.
Qed.

Lemma decode_chars_enc6 xs : base64.decode_chars (map base64.enc6 xs) = Some xs.
Proof.
  induction xs as [| x xs IH]; cbn [map base64.decode_chars]; [reflexivity |].
  now rewrite newline_enc6, dec6_enc6, IH.
Qed.

Lemma list_ind3 {A} (P : list A -> Prop) :
  P [] -> (forall a, P [a]) -> (forall a b, P [a; b]) ->
  (forall a b c l, P l -> P (a :: b :: c :: l)) ->
  forall l, P l.
Proof.
  intros H0 H1 H2 H3. fix IH 1.
  intros [| a [| b [| c l]]]; [exact H0 | apply H1 | apply H2 | apply H3, IH].
Qed.

Lemma list_ind4 {A} (P : list A -> Prop) :
  P [] -> (forall a, P [a]) -> (forall a b, P [a; b]) -> (forall a b c, P [a; b; c]) ->
  (forall a b c d l, P l -> P (a :: b :: c :: d :: l)) ->
  forall l, P l.
Proof.
  intros H0 H1 H2 H3 H4. fix IH 1.
  intros [| a [| b [| c [| d l]]]];
    [exact H0 | apply H1 | apply H2 | apply H3 | apply H4, IH].
Qed.

Lemma unquanta_quanta bs : base64.unquanta (base64.quanta bs) = Some bs.
Proof.
  induction bs as [| a | a b | a b c l IH] using list_ind3.
  - reflexivity.
  - now destruct a.
  - now destruct a, b.
  - destruct a, b, c. cbn [base64.quanta base64.unquanta]. now rewrite IH.
Qed.

(** Decoding undoes encoding. *)
Lemma DecodeString_EncodeToString s :
  base64.DecodeString (base64.EncodeToString s) = Some s.
Proof.
  unfold base64.DecodeString, base64.EncodeToString.
  rewrite list_ascii_of_string_of_list_ascii, decode_chars_enc6, unquanta_quanta.
  cbn [option_map]. now rewrite string_of_list_ascii_of_string.
Qed.

Example encodeCursor_test : Server.encodeCursor 1700000000 42 = "MTcwMDAwMDAwMHw0Mg".
Proof. reflexivity. Qed.

Example EncodeToString_high_bytes :
  base64.EncodeToString (String "255" (String "254" (String "253" ""))) = "__79".
Proof. reflexivity. Qed.

Example decodeCursor_test : Server.decodeCursor "MTcwMDAwMDAwMHw0Mg" = inr (1700000000, 42).
Proof. reflexivity. Qed.

Example decodeCursor_stars : Server.decodeCursor "***" = inl Server.ErrBase64.
Proof. reflexivity. Qed.

Example decodeCursor_extra_parts :
  Server.decodeCursor "bm90fG51bWJlcnxleHRyYQ" = inl Server.ErrParseSeconds.
Proof. reflexivity. Qed.

Example decodeCursor_padding : Server.decodeCursor "MQ==" = inl Server.ErrBase64.
Proof. reflexivity. Qed.

(** ** C9: page tokens *)

Lemma dec6_alphabet c x : base64.dec6 c = Some x -> base64url_char c = true.
Proof.
  destruct c as [b0 b1 b2 b3 b4 b5 b6 b7].
  destruct b0, b1, b2, b3, b4, b5, b6, b7; vm_compute; congruence.
Qed.

Lemma decode_chars_valid cs xs :
  base64.decode_chars cs = Some xs ->
  Forall (fun c => base64url_char c = true)
    (list_ascii_of_string (without_newlines (string_of_list_ascii cs)))
  /\ String.length (without_newlines (string_of_list_ascii cs)) = length xs.
Proof.
  revert xs. induction cs as [| c cs IH]; intros xs H;
    cbn [base64.decode_chars string_of_list_ascii without_newlines] in *.
  - injection H as <-. split; [constructor | reflexivity].
  - destruct (base64.newline c); [now apply IH |].
    destruct (base64.dec6 c) as [x |] eqn:Hc; [| discriminate].
    destruct (base64.decode_chars cs) as [xs' |]; [| discriminate].
    injection H as <-. destruct (IH xs' eq_refl) as [Hall Hlen].
    cbn [list_ascii_of_string String.length length]. split.
    + constructor; [eapply dec6_alphabet; eassumption | assumption].
    + now rewrite Hlen.
Qed.

Lemma unquanta_length xs bs :
  base64.unquanta xs = Some bs -> (length xs mod 4 <> 1)%nat.
Proof.
  revert bs. induction xs as [| a | a b | a b c | a b c d l IH] using list_ind4;
    intros bs H; cbn [length]; try (cbn; lia).
  - destruct a as [[[[[? ?] ?] ?] ?] ?]. discriminate.
  - destruct a as [[[[[? ?] ?] ?] ?] ?], b as [[[[[? ?] ?] ?] ?] ?],
      c as [[[[[? ?] ?] ?] ?] ?], d as [[[[[? ?] ?] ?] ?] ?].
    cbn [base64.unquanta] in H.
    destruct (base64.unquanta l) as [bs' |] eqn:Hl; [| discriminate].
    specialize (IH bs' eq_refl).
    replace (S (S (S (S (length l))))) with (length l + 1 * 4)%nat by lia.
    now rewrite Nat.Div0.mod_add.
Qed.

(** What decodes is valid once its carriage returns and line feeds are
    taken out. *)
Lemma DecodeString_valid s b :
  base64.DecodeString s = Some b -> valid_base64url (without_newlines s).
Proof.
  unfold base64.DecodeString, valid_base64url.
  destruct (base64.decode_chars (list_ascii_of_string s)) as [xs |] eqn:Hd;
    [| discriminate].
  destruct (base64.unquanta xs) as [bs |] eqn:Hu; [| discriminate]. intros _.
  apply decode_chars_valid in Hd. rewrite string_of_list_ascii_of_string in Hd.
  destruct Hd as [Hall Hlen]. split; [assumption |].
  rewrite Hlen. eapply unquanta_length; eassumption.
Qed.

Lemma decodeCursor_encodeCursor seconds id :
  - 2 ^ 63 <= seconds < 2 ^ 63 -> - 2 ^ 63 <= id < 2 ^ 63 ->
  Server.decodeCursor (Server.encodeCursor seconds id) = inr (seconds, id).
Proof.
  intros Hs Hi. unfold Server.decodeCursor, Server.encodeCursor.
  cbv zeta. rewrite DecodeString_EncodeToString. unfold strings.SplitN2.
  rewrite append_String, append_nil.
  rewrite cut_at_separator by apply FormatInt_no_separator.
  now rewrite !ParseInt_FormatInt.
Qed.

(** C9, as stated, fails: a token with a line feed in it is not URL-safe
    base64, and [decodeCursor] reads it all the same, because the decoder
    skips carriage returns and line feeds. *)
Lemma decodeCursor_line_feed_counterexample :
  ~ (forall token, ~ valid_base64url token ->
                   exists e, Server.decodeCursor token = inl e).
Proof.
  intros H.
  destruct (H ("MXwy" ++ String "010" "")%string) as [e He].
  - intros [Hall _]. rewrite Forall_forall in Hall.
    specialize (Hall "010"%char). vm_compute in Hall.
    assert (Hf : false = true) by (apply Hall; repeat constructor).
    discriminate.
  - vm_compute in He. discriminate.
Qed.

(** C9, amended. A cursor of a nonnegative [s] and a positive [i] (both
    [int64]) is read back exactly; and a token fails to decode, which
    [ListOrders] reports as an invalid argument, whenever it is not valid
    URL-safe base64 once its carriage returns and line feeds are taken
    out. *)
Theorem decodeCursor_round_trip_and_rejection (s i : Z) (token : string) :
  (0 <= s < 2 ^ 63 -> 0 < i < 2 ^ 63 ->
   Server.decodeCursor (Server.encodeCursor s i) = inr (s, i))
  /\ (~ valid_base64url (without_newlines token) ->
      Server.decodeCursor token = inl Server.ErrBase64
      /\ Server.pageCursor token
         = inl (status.Error codes.InvalidArgument "invalid page_token")).
Proof.
  split.
  - intros Hs Hi. apply decodeCursor_encodeCursor; lia.
  - intros Hv.
    assert (Hd : Server.decodeCursor token = inl Server.ErrBase64).
    { unfold Server.decodeCursor.
      destruct (base64.DecodeString token) as [b |] eqn:Hd; [| reflexivity].
      exfalso. apply Hv. eapply DecodeString_valid; eassumption. }
    split; [exact Hd |]. unfold Server.pageCursor. rewrite Hd.
    destruct (String.eqb_spec token "") as [-> | _]; [| reflexivity].
    exfalso. apply Hv. split; [constructor | cbn; lia].
Qed.

Lemma decodeCursor_round_trip_and_rejection_witness :
  Server.decodeCursor (Server.encodeCursor 1700000000 42) = inr (1700000000, 42)
  /\ Server.decodeCursor "***invalid***" = inl Server.ErrBase64.
Proof.
  destruct (decodeCursor_round_trip_and_rejection 1700000000 42 "***invalid***")
    as [Hround Hreject].
  split.
  - apply Hround; lia.
  - apply Hreject. intros [Hall _]. rewrite Forall_forall in Hall.
    assert (Hf : base64url_char "*"%char = true) by (apply Hall; vm_compute; constructor).
    vm_compute in Hf. discriminate.
Defined.

(** ** C8: the admin gate *)

Lemma RequireKind_admin {cases : unicode.CaseRanges} ctx p :
  auth.RequireKind ctx "admin" = inr p -> ctx = Some p /\ auth.Kind p = "admin".
Proof.
  unfold auth.RequireKind, auth.RequirePrincipal.
  destruct ctx as [q |]; [| discriminate].
  change (strings.ToLower "admin") with "admin".
  destruct (String.eqb_spec (auth.Kind q) "admin"); cbn [negb]; [| discriminate].
  now intros [= <-].
Qed.

(** C8. Authorization succeeds only if the principal's kind is "admin" and
    the persisted user row of that name exists with a role that, trimmed
    and lowercased, is "admin"; when the lookup runs, a principal that
    claims kind "admin" without such a row receives PermissionDenied; and
    each of the four admin calls returns the gate's error as it is, having
    done nothing else. *)
Theorem RequireAdmin_spoof_defense {cases : unicode.CaseRanges}
    (ctx : auth.Context) (db : DB) :
  (forall db' p, auth.RequireAdmin ctx db = (db', inr p) ->
     ctx = Some p /\ auth.Kind p = "admin" /\ persisted_admin db (auth.Name p))
  /\ (no_faults db ->
      forall p, ctx = Some p -> auth.Kind p = "admin" ->
        ~ persisted_admin db (auth.Name p) ->
        (auth.RequireAdmin ctx db).1 = db
        /\ permission_denied (auth.RequireAdmin ctx db).2)
  /\ (forall db' e, auth.RequireAdmin ctx db = (db', inl e) ->
        (forall strftime_s placement_ge placement_le parseRFC3339 parseSQLite req,
           AdminServer.GetOrders strftime_s placement_ge placement_le
             parseRFC3339 parseSQLite ctx req db = (db', inl e))
        /\ (forall req, AdminServer.UpdateOrderLocation ctx req db = (db', inl e))
        /\ (forall like req, AdminServer.GetDrones like ctx req db = (db', inl e))
        /\ (forall req, AdminServer.UpdateDroneStatus ctx req db = (db', inl e))).
Proof.
  split; [| split].
  - intros db' p. unfold auth.RequireAdmin, bind, lift.
    destruct (auth.RequireKind ctx "admin") as [e | q] eqn:Hk; [discriminate |].
    apply RequireKind_admin in Hk as [-> Hkind].
    unfold orError, mapErr, UserRepository.GetByUsername, query, exec.
    destruct (faults db) as [| [|] fs]; cbn; try discriminate;
      (destruct (users db !! auth.Name q) as [u |] eqn:Hu; [| discriminate];
       destruct (String.eqb_spec (strings.ToLower (strings.TrimSpace (User.Role u))) "admin")
         as [Hr | Hr]; cbn [negb]; [| discriminate];
       intros [= _ <-]; repeat split; try assumption; now exists u).
  - intros Hf p -> Hkind Hnot.
    assert (Hk : auth.RequireKind (Some p) "admin" = inr p).
    { unfold auth.RequireKind, auth.RequirePrincipal. now rewrite Hkind. }
    unfold auth.RequireAdmin. rewrite Hk.
    rewrite (run_bind _ _ db db p) by reflexivity.
    rewrite (run_bind _ _ _ _ _ (run_orError _ _ _ _ _ _ (Users_GetByUsername_run db Hf _))).
    destruct (users db !! auth.Name p) as [u |] eqn:Hu.
    + destruct (String.eqb_spec (strings.ToLower (strings.TrimSpace (User.Role u))) "admin")
        as [Hr | Hr]; cbn [negb].
      * exfalso. apply Hnot. now exists u.
      * split; [reflexivity | eexists; reflexivity].
    + split; [reflexivity | eexists; reflexivity].
  - intros db' e H. repeat split; intros.
    + unfold AdminServer.GetOrders, bind. now rewrite H.
    + unfold AdminServer.UpdateOrderLocation, bind. now rewrite H.
    + unfold AdminServer.GetDrones, bind. now rewrite H.
    + unfold AdminServer.UpdateDroneStatus, bind. now rewrite H.
Qed.

(** User "u" of the fleet has the role "end user" and claims the kind
    "admin": the gate denies permission, and so does [GetDrones]. *)
Lemma RequireAdmin_spoof_defense_witness :
  let ctx := Some (auth.mkPrincipal "u" "admin") in
  permission_denied (auth.RequireAdmin ctx fleet_db).2
  /\ permission_denied (AdminServer.GetDrones (fun _ _ => true) ctx None fleet_db).2.
Proof.
  cbv zeta.
  destruct (RequireAdmin_spoof_defense (Some (auth.mkPrincipal "u" "admin")) fleet_db)
    as (_ & Hdeny & Hcalls).
  assert (Hgate : permission_denied
                    (auth.RequireAdmin (Some (auth.mkPrincipal "u" "admin")) fleet_db).2).
  { apply (Hdeny eq_refl (auth.mkPrincipal "u" "admin") eq_refl eq_refl).
    unfold persisted_admin. intros (u & Hu & Hr).
    vm_compute in Hu. injection Hu as <-.
    vm_compute in Hr. discriminate. }
  split; [exact Hgate |].
  destruct (auth.RequireAdmin (Some (auth.mkPrincipal "u" "admin")) fleet_db)
    as [db' [e | p]] eqn:Hrun.
  - destruct (Hcalls db' e eq_refl) as (_ & _ & Hdrones & _).
    rewrite (Hdrones (fun _ _ => true) None).
    destruct Hgate as [msg Hmsg]. exists msg. cbn [snd] in *. congruence.
  - destruct Hgate as [msg Hmsg]. discriminate.
Defined.

(** The role is compared as Go compares it. A stored role " ADM" followed
    by U+0130, the capital I with a dot above, "N" and the no-break space
    U+00A0 passes the gate under a case table that lowers U+0130 to 'i', as
    the table of Go does; so does "Admin" between ASCII blanks under every
    table. *)
Example RequireAdmin_unicode_role :
  let dotted := String (ascii_of_N 196) (String (ascii_of_N 176) "") in
  let nbsp := String (ascii_of_N 194) (String (ascii_of_N 160) "") in
  strings.ToLower (strings.TrimSpace (" ADM" ++ dotted ++ "N" ++ nbsp)) = "admin"
  /\ forall cases : unicode.CaseRanges,
       @strings.ToLower cases (strings.TrimSpace " Admin  ") = "admin".
Proof. split; [vm_compute; reflexivity | intros cases; reflexivity]. Qed.

(** ** Properties kept by every step of a computation *)

Section Preserves.
Context {E : Type} (I : DB -> Prop).

Lemma preserves_ret {A} (a : A) : preserves I (@ret E A a).
Proof. now intros db. Qed.

Lemma preserves_fail {A} (e : E) : preserves I (@fail E A e).
Proof. now intros db. Qed.

Lemma preserves_bind {A B} (m : M E A) (k : A -> M E B) :
  preserves I m -> (forall a, preserves I (k a)) -> preserves I (bind m k).
Proof.
  intros Hm Hk db Hdb. unfold bind. specialize (Hm db Hdb).
  destruct (m db) as [db' [e | a]]; [exact Hm | exact (Hk a db' Hm)].
Qed.

Lemma preserves_mapErr {E' A} (f : E' -> E) (m : M E' A) :
  preserves I m -> preserves I (mapErr f m).
Proof.
  intros Hm db Hdb. unfold mapErr. specialize (Hm db Hdb).
  now destruct (m db) as [db' [e | a]].
Qed.

Lemma preserves_attempt {E' A} (m : M E' A) :
  preserves I m -> preserves I (@attempt E' E A m).
Proof.
  intros Hm db Hdb. unfold attempt. specialize (Hm db Hdb).
  now destruct (m db) as [db' r].
Qed.

Lemma preserves_discard {E' A} (m : M E' A) :
  preserves I m -> preserves I (@discard E' E A m).
Proof. intros Hm db Hdb. exact (Hm db Hdb). Qed.

End Preserves.

Lemma preserves_lift I {A} (r : status.t + A) : preserves I (lift r).
Proof. now intros db. Qed.

Lemma preserves_orError I {A} c msg (m : M dberr A) :
  preserves I m -> preserves I (orError c msg m).
Proof. apply preserves_mapErr. Qed.

Lemma preserves_exec (I : DB -> Prop) {A} (stmt : DB -> dberr + (DB * A)) :
  (forall db f, I db -> I (with_faults f db)) ->
  (forall db db' a, I db -> stmt db = inr (db', a) -> I db') ->
  preserves I (exec stmt).
Proof.
  intros Hfaults Hstmt db Hdb. unfold exec.
  assert (H0 : forall f, I (match stmt (with_faults f db) with
                           | inl e => (with_faults f db, inl e)
                           | inr (db', a) => (db', inr a)
                           end).1).
  { intros f. destruct (stmt (with_faults f db)) as [e | [db' a]] eqn:Hs; cbn.
    - now apply Hfaults.
    - eapply Hstmt; [apply (Hfaults db f Hdb) | exact Hs]. }
  destruct (faults db) as [| [|] fs]; [apply H0 | now apply Hfaults | apply H0].
Qed.

Lemma preserves_query (I : DB -> Prop) {A} (q : DB -> A) :
  (forall db f, I db -> I (with_faults f db)) -> preserves I (query q).
Proof.
  intros Hfaults. apply preserves_exec; [assumption |].
  now intros db db' a Hdb [= <- _].
Qed.

Create HintDb preserve.

Ltac preserve_step :=
  first
    [ solve [auto with preserve]
    | apply preserves_bind; [| intros ?]
    | apply preserves_ret
    | apply preserves_fail
    | apply preserves_lift
    | apply preserves_orError
    | apply preserves_mapErr
    | apply preserves_attempt
    | apply preserves_discard
    | apply preserves_query; solve [auto with preserve]
    | match goal with
      | |- preserves _ (match ?x with _ => _ end) => destruct x
      end
    | solve [auto with preserve] ].

Ltac preserve := repeat preserve_step.

(** ** C10: what an edit of the coordinates leaves alone *)

Lemma only_locations_of_refl id db : only_locations_of id db db.
Proof.
  repeat split; try reflexivity.
  intros k. destruct (orders db !! k); [| exact I].
  repeat split; reflexivity.
Qed.

Lemma only_locations_of_faults id db0 : on_tables (only_locations_of id db0).
Proof. intros db f H. exact H. Qed.

Lemma UpdateLocations_only_locations id db0 a b c d :
  preserves (only_locations_of id db0) (OrderRepository.UpdateLocations id a b c d).
Proof.
  apply preserves_exec; [apply only_locations_of_faults |].
  intros db db' [] (Hu & Hd & Ho) Hstmt.
  destruct (orders db !! id) as [o |] eqn:Hid; [| discriminate].
  injection Hstmt as <-. repeat split; [exact Hu | exact Hd |].
  intros k. specialize (Ho k). cbn [orders with_orders].
  rewrite lookup_alter. destruct (decide (id = k)) as [<- | Hne].
  - rewrite Hid in *. cbn. destruct (orders db0 !! id) as [o0 |]; [| exact Ho].
    destruct Ho as [(H1 & H2 & H3 & H4 & H5 & H6) _].
    split; [repeat split; assumption | congruence].
  - exact Ho.
Qed.

#[local] Hint Resolve only_locations_of_faults UpdateLocations_only_locations : preserve.

(** The order id of a request; a nil request reads as 0. *)
Lemma UpdateOrderLocation_only_locations {cases : unicode.CaseRanges} ctx req db0 :
  preserves
    (only_locations_of (match req with Some r => adminv1.OrderId r | None => 0 end) db0)
    (AdminServer.UpdateOrderLocation ctx req).
Proof.
  unfold AdminServer.UpdateOrderLocation, auth.RequireAdmin,
    UserRepository.GetByUsername, OrderRepository.GetByID.
  preserve.
Qed.

(** C10. An admin [UpdateOrderLocation], and the repository's
    [UpdateLocations] under it, changes nothing but the four coordinates of
    the order it names: that order keeps its status, placementAt,
    submittedBy, pickup coordinates and drone path, whatever its status is;
    every other order, every user and every drone row is as before. This
    holds of every call, the successful ones included. *)
Theorem UpdateOrderLocation_frame {cases : unicode.CaseRanges}
    (ctx : auth.Context) (req : adminv1.UpdateOrderLocationRequest) (db : DB)
    (id : Z) (originLat originLng destLat destLng : float) :
  only_locations_of (adminv1.OrderId req) db
    (AdminServer.UpdateOrderLocation ctx (Some req) db).1
  /\ only_locations_of id db
       (OrderRepository.UpdateLocations id originLat originLng destLat destLng db).1.
Proof.
  split.
  - apply (UpdateOrderLocation_only_locations ctx (Some req) db db),
      only_locations_of_refl.
  - apply (UpdateLocations_only_locations id db), only_locations_of_refl.
Qed.

(** ** Resolving the calling drone *)

Lemma scan_lookup {R} (ds : gmap Z R) id r :
  In (id, r) (scan ds) <-> ds !! id = Some r.
Proof.
  unfold scan. rewrite <- list_elem_of_In, merge_sort_Permutation.
  apply elem_of_map_to_list.
Qed.

Lemma first_row_Some p ds dr :
  DroneRepository.first_row p ds = Some dr ->
  ds !! Drone.ID dr = Some (Drone.cols dr) /\ p (Drone.cols dr) = true.
Proof.
  unfold DroneRepository.first_row.
  destruct (List.filter (fun kv => p kv.2) (scan ds)) as [| [id r] l] eqn:Hfl;
    [discriminate |].
  intros [= <-]. cbn.
  assert (Hin : In (id, r) (List.filter (fun kv => p kv.2) (scan ds)))
    by (rewrite Hfl; now left).
  apply filter_In in Hin as [Hin Hp]. split; [now apply scan_lookup | exact Hp].
Qed.

(** A SELECT leaves the tables alone and only moves the driver on. *)
Lemma query_inv {A} (q : DB -> A) db db1 a :
  query q db = (db1, inr a) ->
  db1 = with_faults (tail (faults db)) db /\ a = q db1.
Proof.
  unfold query, exec. destruct (faults db) as [| [|] fs]; cbn; try discriminate;
    now intros [= <- <-].
Qed.

Lemma resolveDrone_inv name db db1 dr :
  DroneServer.resolveDrone name db = (db1, inr dr) ->
  drones db !! Drone.ID dr = Some (Drone.cols dr)
  /\ exists f, db1 = with_faults f db.
Proof.
  unfold DroneServer.resolveDrone, bind, orError, mapErr,
    DroneRepository.GetBySerial, DroneRepository.GetByName.
  destruct (query _ db) as [db2 [e | r1]] eqn:H1; cbn; [intros [=] |].
  apply query_inv in H1 as [Hdb2 Hr1].
  destruct r1 as [d1 |]; cbn.
  - intros [= <- <-]. split; [| eexists; exact Hdb2].
    symmetry in Hr1. apply first_row_Some in Hr1 as [Hs _].
    rewrite Hdb2 in Hs. exact Hs.
  - destruct (query _ db2) as [db3 [e | r2]] eqn:H2; cbn; [intros [=] |].
    apply query_inv in H2 as [Hdb3 Hr2].
    destruct r2 as [d2 |]; cbn; [| intros [=]].
    intros [= <- <-]. split; [| rewrite Hdb3, Hdb2; now eexists].
    symmetry in Hr2. apply first_row_Some in Hr2 as [Hn _].
    rewrite Hdb3, Hdb2 in Hn. exact Hn.
Qed.

Lemma resolved_row db ctx dr db1 :
  resolved db ctx dr db1 -> drones db !! Drone.ID dr = Some (Drone.cols dr).
Proof. intros (p & _ & _ & H). now apply resolveDrone_inv in H as [H _]. Qed.

Lemma RequireDrone_ok {cases : unicode.CaseRanges} p :
  auth.Kind p = "drone" -> auth.RequireDrone (Some p) = inr p.
Proof.
  intros H. unfold auth.RequireDrone, auth.RequireKind, auth.RequirePrincipal.
  now rewrite H.
Qed.

(** What a drone handler does once the caller is resolved. *)
Lemma as_resolved {cases : unicode.CaseRanges} {A} db ctx dr db1 (k : Drone.t -> M status.t A) :
  resolved db ctx dr db1 ->
  (p <~ lift (auth.RequireDrone ctx) ;;
   dr <~ DroneServer.resolveDrone (auth.Name p) ;;
   k dr) db = k dr db1.
Proof.
  intros (p & -> & Hk & Hr). rewrite (RequireDrone_ok p Hk).
  rewrite (run_bind _ _ db db p) by reflexivity.
  now rewrite (run_bind _ _ db db1 dr Hr).
Qed.

Lemma resolved_flight_1 :
  resolved flight_db (as_drone "SER-1")
    (Drone.mk 1 (drone_at "alpha" "SER-1" 0.5 0.5 (Some 2) DroneStatusFixed)) flight_db.
Proof. exists (auth.mkPrincipal "SER-1" "drone"). repeat split. Qed.

Lemma resolved_flight_2 :
  resolved flight_db (as_drone "bravo")
    (Drone.mk 2 (drone_at "bravo" "SER-2" 0 0 (Some 1) DroneStatusFixed)) flight_db.
Proof. exists (auth.mkPrincipal "bravo" "drone"). repeat split. Qed.

Lemma resolved_no_faults db ctx dr db1 :
  no_faults db -> resolved db ctx dr db1 -> db1 = db.
Proof.
  intros Hf (p & _ & _ & Hr). revert Hr.
  unfold DroneServer.resolveDrone, bind, orError, mapErr,
    DroneRepository.GetBySerial, DroneRepository.GetByName.
  rewrite (query_no_faults _ _ Hf).
  destruct (DroneRepository.first_row _ _) as [d1 |].
  - now intros [= <- _].
  - rewrite (query_no_faults _ _ Hf).
    destruct (DroneRepository.first_row _ _) as [d2 |]; now intros [= <- _].
Qed.

(** The database a resolution leaves differs from the one it met in the
    schedule of faults only. *)
Lemma resolved_faults db ctx dr db1 :
  resolved db ctx dr db1 -> exists f, db1 = with_faults f db.
Proof. intros (p & _ & _ & Hr). now apply resolveDrone_inv in Hr as [_ Hr]. Qed.

(** Symbolic execution of a handler: the combinators and the statements
    are unfolded and run on a database given by its fields. *)
Ltac run :=
  cbv beta iota zeta delta
    [bind orError mapErr discard attempt lift ret fail exec query outcome
     faults users orders drones seq_users seq_orders seq_drones current_timestamp
     with_users with_orders with_drones with_faults with_current_timestamp with_env
     tail fst snd
     UserRepository.GetByUsername
     OrderRepository.GetByID OrderRepository.UpdateStatus
     OrderRepository.UpdatePickupLocation OrderRepository.UpdateLocations
     OrderRepository.AppendDronePath OrderRepository.Withdraw
     DroneRepository.GetByID DroneRepository.UpdateLocationAndSpeed
     DroneRepository.UpdateStatus DroneRepository.UnassignJob
     DroneServer.reread
     Order.ID Order.cols Drone.ID Drone.cols
     fmap option_fmap option_map].

(** The same when the driver may fail: one case per statement that the
    schedule of faults reaches. *)
Ltac fault_cases :=
  repeat first
    [ progress run
    | match goal with
      | |- context [match ?f with [] => _ | _ :: _ => _ end] =>
          is_var f; destruct f as [| [|] f]
      end ].

(** ** C6: the estimated time of arrival *)

(** C6. For a drone whose assigned order exists, [GetAssignedOrder] returns
    an ETA of 0 when the speed is at most 0; otherwise, for 'placed' and 'to
    pick up', the distance from the drone to the start plus the distance
    from the start to the destination, over the speed, times 3600; for 'en
    route' the distance from the drone to the destination, over the speed,
    times 3600; and 0 for any other status. *)
Theorem GetAssignedOrder_eta {cases : unicode.CaseRanges}
    (m : libm) (ctx : auth.Context) (db : DB) (dr : Drone.t) (job : Z) (o : Order.row) :
  no_faults db -> resolved db ctx dr db ->
  Drone.AssignedJob dr = Some job -> orders db !! job = Some o ->
  exists resp,
    DroneServer.GetAssignedOrder m ctx db = (db, inr resp)
    /\ dronev1.Order resp = toProtoOrder (Some (Order.mk job o))
    /\ let eta := dronev1.EtaSeconds resp in
       let speed := Drone.SpeedMPH dr in
       let start := start_of o in
       let haversine := geo.HaversineMiles m in
       ((speed <=? 0)%float = true -> eta = 0%float)
       /\ ((speed <=? 0)%float = false ->
           (Order.Status o = OrderStatusPlaced \/ Order.Status o = OrderStatusToPickUp ->
            eta = ((haversine (Drone.Lat dr) (Drone.Lng dr) start.1 start.2
                    + haversine start.1 start.2 (Order.DestLat o) (Order.DestLng o))
                   / speed * 3600)%float)
           /\ (Order.Status o = OrderStatusEnRoute ->
               eta = (haversine (Drone.Lat dr) (Drone.Lng dr)
                        (Order.DestLat o) (Order.DestLng o) / speed * 3600)%float)
           /\ (Order.Status o <> OrderStatusPlaced ->
               Order.Status o <> OrderStatusToPickUp ->
               Order.Status o <> OrderStatusEnRoute -> eta = 0%float)).
Proof.
  intros Hf Hres Hjob Ho. unfold DroneServer.GetAssignedOrder.
  rewrite (as_resolved _ _ _ _ _ Hres), Hjob.
  rewrite (run_bind _ _ _ _ _ (run_orError _ _ _ _ _ _ (Orders_GetByID_run db Hf job))).
  rewrite Ho. cbn [fmap option_fmap option_map]. eexists. split; [reflexivity |].
  split; [reflexivity |]. cbn [dronev1.EtaSeconds]. cbv zeta.
  unfold DroneServer.calculateETA, start_of. cbn [Order.cols Order.ID].
  destruct (Drone.SpeedMPH dr <=? 0)%float.
  - split; [reflexivity | discriminate].
  - split; [discriminate |]. intros _.
    destruct (Order.Status o) eqn:Hst; cbn;
      repeat split; try (intros; congruence); try (intros [? | ?]; congruence);
      intros _;
      destruct (Order.PickupLat o), (Order.PickupLng o); reflexivity.
Qed.

Lemma GetAssignedOrder_eta_witness :
  exists resp,
    DroneServer.GetAssignedOrder small_angle (as_drone "SER-1") flight_db
    = (flight_db, inr resp)
    /\ dronev1.EtaSeconds resp
       = (geo.HaversineMiles small_angle 0.5 0.5 1 1 / 10 * 3600)%float.
Proof.
  destruct (GetAssignedOrder_eta small_angle (as_drone "SER-1") flight_db
              (Drone.mk 1 (drone_at "alpha" "SER-1" 0.5 0.5 (Some 2) DroneStatusFixed))
              2 (order_at 0 0 OrderStatusEnRoute "2024-01-02 03:04:06" (Some "1"))
              eq_refl resolved_flight_1 eq_refl eq_refl)
    as (resp & Hrun & _ & _ & Heta).
  exists resp. split; [exact Hrun |].
  destruct (Heta eq_refl) as (_ & Hen & _). exact (Hen eq_refl).
Defined.

(** ** The distance test of the handlers *)

Lemma SFcompare_antisym (x y : SpecFloat.spec_float) :
  SpecFloat.SFcompare y x = option_map CompOpp (SpecFloat.SFcompare x y).
Proof.
  destruct x as [sx | sx | | sx mx ex], y as [sy | sy | | sy my ey]; cbn;
    try reflexivity;
    try (destruct sx; reflexivity); try (destruct sy; reflexivity);
    try (destruct sx, sy; reflexivity).
  destruct sx, sy; try reflexivity;
    rewrite (Z.compare_antisym ey ex);
    destruct (ey ?= ex)%Z; cbn; try reflexivity;
    change (Pos.compare_cont Eq my mx) with (Pos.compare my mx);
    change (Pos.compare_cont Eq mx my) with (Pos.compare mx my);
    rewrite (Pos.compare_antisym mx my); now destruct (mx ?= my)%positive.
Qed.

Lemma SFcompare_None (x y : SpecFloat.spec_float) :
  SpecFloat.SFcompare x y = None
  <-> SpecFloat.SFeqb x x = false \/ SpecFloat.SFeqb y y = false.
Proof.
  unfold SpecFloat.SFeqb.
  destruct x as [sx | sx | | sx mx ex], y as [sy | sy | | sy my ey]; cbn;
    repeat match goal with
    | |- context [if ?b then _ else _] => destruct b
    | |- context [match (?a ?= ?b)%Z with _ => _ end] => rewrite Z.compare_refl
    | |- context [Pos.compare_cont Eq ?a ?a] =>
        change (Pos.compare_cont Eq a a) with (Pos.compare a a);
        rewrite Pos.compare_refl
    end; cbn; intuition discriminate.
Qed.

(** [!(d > r)] is [d <= r] unless [d] is not a number. *)
Lemma not_gt_iff (r d : float) :
  PrimFloat.is_nan r = false ->
  (r <? d)%float = false <-> (d <=? r)%float = true \/ PrimFloat.is_nan d = true.
Proof.
  unfold PrimFloat.is_nan.
  rewrite FloatAxioms.ltb_spec, FloatAxioms.leb_spec, !FloatAxioms.eqb_spec.
  intros Hr. apply negb_false_iff in Hr.
  assert (Hd : negb (SpecFloat.SFeqb (Prim2SF d) (Prim2SF d)) = true
               <-> SpecFloat.SFeqb (Prim2SF d) (Prim2SF d) = false)
    by apply negb_true_iff.
  unfold SpecFloat.SFltb, SpecFloat.SFleb.
  rewrite (SFcompare_antisym (Prim2SF r) (Prim2SF d)).
  pose proof (SFcompare_None (Prim2SF r) (Prim2SF d)) as Hn.
  destruct (SpecFloat.SFcompare (Prim2SF r) (Prim2SF d)) as [[| |] |]; cbn; split;
    intros H; try discriminate; try (now left); try reflexivity.
  all: try (destruct H as [H | H]; [discriminate |]; apply Hd in H;
            destruct Hn as [_ Hn]; specialize (Hn (or_intror H)); discriminate).
  destruct (proj1 Hn eq_refl) as [E | E]; [congruence | right; now apply Hd].
Qed.

(** The test of [GrabOrder] and [CompleteOrder], [distance > radius], lets
    a call through when the drone is within the radius, and also when the
    distance is not a number. *)
Lemma radius_test_iff (m : libm) (lat lng : float) (target : float * float) :
  (geo.FeetToMiles geo.RadiusFeet
   <? geo.HaversineMiles m lat lng target.1 target.2)%float = false
  <-> within_radius m lat lng target \/ no_distance m lat lng target.
Proof. apply not_gt_iff. reflexivity. Qed.

(** ** C5: the geofenced grab *)

Lemma lookup_alter_Some {R} (f : R -> R) (t : gmap Z R) id r :
  t !! id = Some r -> alter f id t !! id = Some (f r).
Proof. intros H. now rewrite lookup_alter_eq, H. Qed.

Lemma grab_status_test (st : OrderStatus) :
  bool_decide (st <> OrderStatusPlaced) && bool_decide (st <> OrderStatusToPickUp)
  = negb (OrderRepository.reservable st).
Proof. destruct st; reflexivity. Qed.

Lemma grab_target (o : Order.row) :
  match bool_decide (Order.Status o = OrderStatusToPickUp),
        Order.PickupLat o, Order.PickupLng o with
  | true, Some lat, Some lng => (lat, lng)
  | _, _, _ => (Order.OriginLat o, Order.OriginLng o)
  end = start_of o.
Proof.
  unfold start_of.
  destruct (Order.Status o), (Order.PickupLat o), (Order.PickupLng o); reflexivity.
Qed.

Lemma reservable_inv (st : OrderStatus) :
  OrderRepository.reservable st = true ->
  st = OrderStatusPlaced \/ st = OrderStatusToPickUp.
Proof. destruct st; intros [=]; auto. Qed.

(** [GrabOrder] when no statement fails. *)
Lemma GrabOrder_no_faults {cases : unicode.CaseRanges}
    (m : libm) (ctx : auth.Context) (db : DB) (dr : Drone.t) (job : Z) (o : Order.row) :
  no_faults db -> resolved db ctx dr db ->
  Drone.AssignedJob dr = Some job -> orders db !! job = Some o ->
  let grabbable :=
    Order.Status o = OrderStatusPlaced \/ Order.Status o = OrderStatusToPickUp in
  let near := within_radius m (Drone.Lat dr) (Drone.Lng dr) (start_of o)
              \/ no_distance m (Drone.Lat dr) (Drone.Lng dr) (start_of o) in
  let after := DroneServer.GrabOrder m ctx db in
  (~ (grabbable /\ near) -> after.1 = db /\ failed_precondition after.2)
  /\ (grabbable /\ near ->
      after.2 = inr (toProtoOrder
                       (Some (Order.mk job (Order.with_Status OrderStatusEnRoute o))))
      /\ orders after.1 !! job = Some (Order.with_Status OrderStatusEnRoute o)
      /\ (forall k, k <> job -> orders after.1 !! k = orders db !! k)
      /\ drones after.1 = drones db).
Proof.
  intros Hf Hres Hjob Ho grabbable near after.
  assert (Hafter :
    after =
    if negb (OrderRepository.reservable (Order.Status o))
    then (db, inl (status.Error codes.FailedPrecondition
                     "cannot grab order with this status"))
    else if (geo.FeetToMiles geo.RadiusFeet
             <? geo.HaversineMiles m (Drone.Lat dr) (Drone.Lng dr)
                  (start_of o).1 (start_of o).2)%float
    then (db, inl (status.Error codes.FailedPrecondition "not within pickup radius"))
    else (with_orders (alter (Order.with_Status OrderStatusEnRoute) job (orders db)) db,
          inr (toProtoOrder
                 (Some (Order.mk job (Order.with_Status OrderStatusEnRoute o)))))).
  { subst after. unfold DroneServer.GrabOrder.
    rewrite (as_resolved _ _ _ _ _ Hres), Hjob.
    rewrite (run_bind _ _ _ _ _ (run_orError _ _ _ _ _ _ (Orders_GetByID_run db Hf job))).
    rewrite Ho. cbn [fmap option_fmap option_map Order.cols Order.ID].
    rewrite grab_status_test.
    destruct (negb (OrderRepository.reservable (Order.Status o))); [reflexivity |].
    rewrite grab_target. destruct (start_of o) as [targetLat targetLng]. cbn [fst snd].
    destruct (geo.FeetToMiles geo.RadiusFeet <? _)%float; [reflexivity |].
    rewrite (run_bind _ _ _ _ _
               (run_orError _ _ _ _ _ _ (Orders_UpdateStatus_run db Hf job _))).
    unfold DroneServer.reread, attempt, bind.
    rewrite Orders_GetByID_run by exact Hf.
    cbn [orders with_orders]. rewrite lookup_alter_eq, Ho. reflexivity. }
  rewrite Hafter. clear Hafter after. subst grabbable near.
  pose proof (radius_test_iff m (Drone.Lat dr) (Drone.Lng dr) (start_of o)) as Htest.
  destruct (Order.Status o) eqn:Hst; cbn [OrderRepository.reservable negb];
    try (split; [intros _; split; [reflexivity | eexists; reflexivity]
                | intros [[? | ?] _]; congruence]);
    (destruct (geo.FeetToMiles geo.RadiusFeet <? _)%float;
     [ split; [intros _; split; [reflexivity | eexists; reflexivity]
              | intros [_ Hn]; apply Htest in Hn; discriminate]
     | split; [intros Hn; exfalso; apply Hn; split; [auto | now apply Htest] |];
       intros _; cbn [fst snd orders drones with_orders];
       repeat split;
       [ now apply lookup_alter_Some
       | intros k Hk; now rewrite lookup_alter_ne by congruence ] ]).
Qed.

(** A successful [GrabOrder], whatever the driver does. *)
Lemma GrabOrder_on_success {cases : unicode.CaseRanges}
    (m : libm) (ctx : auth.Context) (db db1 : DB) (dr : Drone.t) resp :
  resolved db ctx dr db1 ->
  let after := DroneServer.GrabOrder m ctx db in
  after.2 = inr resp ->
  exists job o,
    Drone.AssignedJob dr = Some job /\ orders db !! job = Some o
    /\ (Order.Status o = OrderStatusPlaced \/ Order.Status o = OrderStatusToPickUp)
    /\ (within_radius m (Drone.Lat dr) (Drone.Lng dr) (start_of o)
        \/ no_distance m (Drone.Lat dr) (Drone.Lng dr) (start_of o))
    /\ orders after.1 !! job = Some (Order.with_Status OrderStatusEnRoute o).
Proof.
  intros Hres after.
  destruct (resolved_faults _ _ _ _ Hres) as [f ->].
  subst after. unfold DroneServer.GrabOrder.
  rewrite (as_resolved _ _ _ _ _ Hres). clear Hres.
  destruct dr as [id [n s la ln sp j st]].
  destruct db as [us os ds su so sd now fs0].
  cbn [Drone.AssignedJob Drone.cols Drone.ID Drone.Lat Drone.Lng].
  destruct j as [job |]; [| run; intros [=]].
  run.
  destruct f as [| [|] f]; run; try (intros [=]; fail).
  all: destruct (os !! job) as [o |] eqn:Ho; run; try (intros [=]; fail).
  all: rewrite grab_status_test, grab_target.
  all: destruct (OrderRepository.reservable (Order.Status o)) eqn:Hr;
    cbn [negb]; [| intros [=]].
  all: apply reservable_inv in Hr.
  all: destruct (start_of o) as [tla tln] eqn:Hs; cbn [fst snd].
  all: destruct (_ <? _)%float eqn:Hnear; run; try (intros [=]; fail).
  all: fault_cases; try (intros [=]; fail).
  all: intros _; exists job, o; split; [reflexivity |]; split; [exact Ho |];
    split; [exact Hr |]; split; [apply radius_test_iff; rewrite Hs; exact Hnear |];
    rewrite ?lookup_alter_eq, Ho; reflexivity.
Qed.

(** C5. A drone that has reported an infinite latitude grabs its order
    from anywhere. Drone 2 holds order 1, which is 'placed' with its origin
    at (0, 0). The drone sends a heartbeat with latitude +Inf, which
    [Heartbeat] stores as it is. The Haversine distance from the drone to
    the origin is then not a number: the drone is not within 100 feet, and
    [geo.IsWithinRadius] says so as well. Yet [GrabOrder] succeeds and the
    order is 'en route', because its test [distance > radius] is false of a
    distance that is not a number. *)
Theorem GrabOrder_infinite_latitude :
  let m := special_cases small_angle in
  let beat := Some (dronev1.mkHeartbeatRequest
                      (Some (userv1.mkCoordinates infinity 0)) 10) in
  let db := (DroneServer.Heartbeat (as_drone "SER-2") beat flight_db).1 in
  let after := DroneServer.GrabOrder m (as_drone "SER-2") db in
  drones db !! 2 = Some (drone_at "bravo" "SER-2" infinity 0 (Some 1) DroneStatusFixed)
  /\ orders db !! 1
     = Some (order_at 0 0 OrderStatusPlaced "2024-01-02 03:04:05" (Some "2"))
  /\ ~ within_radius m infinity 0 (0, 0)%float
  /\ geo.IsWithinRadius m infinity 0 0 0 geo.RadiusFeet = false
  /\ (exists resp, after.2 = inr resp)
  /\ status_of after.1 1 = Some OrderStatusEnRoute.
Proof.
  repeat split; try (vm_compute; reflexivity).
  - unfold within_radius. vm_compute. discriminate.
  - eexists. vm_compute. reflexivity.
Qed.

(** X24. For a drone whose assigned order [o] exists: [GrabOrder] succeeds only
    if [o] is 'placed' or 'to pick up' and the distance test passes, that
    is, the drone is within 100 feet of the pickup target (the origin, or
    the pickup coordinates of a 'to pick up' order that has both) or the
    distance to it is not a number; and after a success the order's status
    is 'en route', whatever the driver does. When no statement fails, the
    call fails with a precondition error, changing nothing, unless the two
    conditions hold, and succeeds when they do. [db1] is the database as
    the resolution of the caller leaves it. *)
Theorem GrabOrder_geofence {cases : unicode.CaseRanges}
    (m : libm) (ctx : auth.Context) (db db1 : DB) (dr : Drone.t)
    (job : Z) (o : Order.row) :
  resolved db ctx dr db1 ->
  Drone.AssignedJob dr = Some job -> orders db !! job = Some o ->
  let grabbable :=
    Order.Status o = OrderStatusPlaced \/ Order.Status o = OrderStatusToPickUp in
  let near := within_radius m (Drone.Lat dr) (Drone.Lng dr) (start_of o)
              \/ no_distance m (Drone.Lat dr) (Drone.Lng dr) (start_of o) in
  let after := DroneServer.GrabOrder m ctx db in
  (forall resp, after.2 = inr resp ->
     grabbable /\ near
     /\ orders after.1 !! job = Some (Order.with_Status OrderStatusEnRoute o))
  /\ (no_faults db ->
      (~ (grabbable /\ near) -> after.1 = db /\ failed_precondition after.2)
      /\ (grabbable /\ near ->
          after.2 = inr (toProtoOrder
                           (Some (Order.mk job (Order.with_Status OrderStatusEnRoute o))))
          /\ orders after.1 !! job = Some (Order.with_Status OrderStatusEnRoute o)
          /\ (forall k, k <> job -> orders after.1 !! k = orders db !! k)
          /\ drones after.1 = drones db)).
Proof.
  intros Hres Hjob Ho grabbable near after. split.
  - intros resp Hok.
    destruct (GrabOrder_on_success m ctx db db1 dr resp Hres Hok)
      as (job' & o' & Hjob' & Ho' & Hg & Hn & Hst).
    rewrite Hjob in Hjob'. injection Hjob' as <-.
    rewrite Ho in Ho'. injection Ho' as <-.
    repeat split; assumption.
  - intros Hf. rewrite (resolved_no_faults _ _ _ _ Hf Hres) in Hres.
    exact (GrabOrder_no_faults m ctx db dr job o Hf Hres Hjob Ho).
Qed.

Lemma GrabOrder_geofence_witness :
  (DroneServer.GrabOrder small_angle (as_drone "bravo") flight_db).2
  = inr (toProtoOrder
           (Some (Order.mk 1
                    (order_at 0 0 OrderStatusEnRoute "2024-01-02 03:04:05" (Some "2"))))).
Proof.
  destruct (GrabOrder_geofence small_angle (as_drone "bravo") flight_db flight_db
              (Drone.mk 2 (drone_at "bravo" "SER-2" 0 0 (Some 1) DroneStatusFixed))
              1 (order_at 0 0 OrderStatusPlaced "2024-01-02 03:04:05" (Some "2"))
              resolved_flight_2 eq_refl eq_refl) as [_ Hrun].
  destruct (Hrun eq_refl) as [_ Hok].
  apply Hok. split; [left; reflexivity | left; reflexivity].
Defined.

(** ** C4: marking a drone broken *)

(** [MarkBroken] when no statement fails. *)
Lemma MarkBroken_no_faults {cases : unicode.CaseRanges} (ctx : auth.Context) (db : DB) (dr : Drone.t) :
  no_faults db -> resolved db ctx dr db ->
  let after := DroneServer.MarkBroken ctx db in
  (forall job o,
     Drone.AssignedJob dr = Some job -> orders db !! job = Some o ->
     Order.Status o = OrderStatusEnRoute ->
     let o' := handed_off (Drone.Lat dr) (Drone.Lng dr) o in
     after.2 = inr (toProtoOrder (Some (Order.mk job o')))
     /\ orders after.1 !! job = Some o'
     /\ drones after.1 !! Drone.ID dr = Some (grounded dr))
  /\ (Drone.AssignedJob dr = None
      \/ (exists job, Drone.AssignedJob dr = Some job
                      /\ ~ exists o, orders db !! job = Some o
                                     /\ Order.Status o = OrderStatusEnRoute) ->
      after.2 = inr None
      /\ orders after.1 = orders db
      /\ drones after.1 !! Drone.ID dr = Some (grounded dr)).
Proof.
  intros Hf Hres after.
  pose proof (resolved_row _ _ _ _ Hres) as Hrow.
  subst after. unfold DroneServer.MarkBroken.
  rewrite (as_resolved _ _ _ _ _ Hres). clear Hres.
  destruct dr as [id [n s la ln sp j st]].
  destruct db as [us os ds su so sd now fs].
  unfold no_faults in Hf. cbn in Hf, Hrow |- *. subst fs.
  split.
  - intros job o -> Ho Hen. run. rewrite Ho. run.
    rewrite (bool_decide_eq_true_2 _ Hen). run.
    rewrite !lookup_alter_eq, Ho, Hrow. repeat split.
  - intros [-> | (job & -> & Hno)].
    + run. rewrite lookup_alter_eq, Hrow. repeat split.
    + run. destruct (os !! job) as [o |] eqn:Ho; run.
      * destruct (bool_decide_reflect (Order.Status o = OrderStatusEnRoute)) as [Hen | _].
        -- exfalso. apply Hno. eauto.
        -- run. rewrite !lookup_alter_eq, Hrow. repeat split.
      * rewrite !lookup_alter_eq, Hrow. repeat split.
Qed.

(** A successful [MarkBroken], whatever the driver does. *)
Lemma MarkBroken_on_success {cases : unicode.CaseRanges}
    (ctx : auth.Context) (db db1 : DB) (dr : Drone.t) resp :
  resolved db ctx dr db1 ->
  let after := DroneServer.MarkBroken ctx db in
  after.2 = inr resp ->
  Drone.Status <$> drones after.1 !! Drone.ID dr = Some DroneStatusBroken
  /\ (forall job o,
        Drone.AssignedJob dr = Some job -> orders db !! job = Some o ->
        Order.Status o = OrderStatusEnRoute ->
        orders after.1 !! job = Some (handed_off (Drone.Lat dr) (Drone.Lng dr) o))
  /\ ((~ exists job o, Drone.AssignedJob dr = Some job /\ orders db !! job = Some o
                       /\ Order.Status o = OrderStatusEnRoute) ->
      orders after.1 = orders db).
Proof.
  intros Hres after.
  pose proof (resolved_row _ _ _ _ Hres) as Hrow.
  destruct (resolved_faults _ _ _ _ Hres) as [f ->].
  subst after. unfold DroneServer.MarkBroken.
  rewrite (as_resolved _ _ _ _ _ Hres). clear Hres.
  destruct dr as [id [n s la ln sp j st]].
  destruct db as [us os ds su so sd now fs0].
  cbn in Hrow |- *.
  destruct j as [job |].
  - run.
    destruct f as [| [|] f]; run; try (intros [=]; fail).
    all: destruct (os !! job) as [o |] eqn:Ho; run.
    all: try destruct (bool_decide_reflect (Order.Status o = OrderStatusEnRoute))
               as [Hen | Hen].
    all: fault_cases; try (intros [=]; fail).
    all: intros _; split; [rewrite ?lookup_alter_eq, Hrow; reflexivity |]; split;
      [ intros job' o' [= <-]; rewrite ?Ho; intros [= <-]; try contradiction; intros _;
        rewrite ?lookup_alter_eq, Ho; reflexivity
      | intros Hno; try reflexivity; exfalso; apply Hno; eauto ].
  - fault_cases; try (intros [=]; fail).
    all: intros _; split; [rewrite ?lookup_alter_eq, Hrow; reflexivity |]; split;
      [intros ? ? [=] | reflexivity].
Qed.

(** C4. [MarkBroken] drops the error of the statement that clears the
    assignment. Drone 1 carries order 2, which is 'en route'; the fifth
    statement of the call, the unassign, fails and the others run. The call
    succeeds and returns the order, and the drone is 'broken' with order 2
    still assigned to it. The order is 'to pick up' but no drone can
    reserve it: the selection query skips an order that a drone row holds,
    whichever drone asks. *)
Theorem MarkBroken_unassign_error_dropped :
  let db := with_faults [false; false; false; false; true] flight_db in
  let after := DroneServer.MarkBroken (as_drone "SER-1") db in
  drones db !! 1 = Some (drone_at "alpha" "SER-1" 0.5 0.5 (Some 2) DroneStatusFixed)
  /\ status_of db 2 = Some OrderStatusEnRoute
  /\ (exists resp, after.2 = inr (Some resp))
  /\ status_of after.1 2 = Some OrderStatusToPickUp
  /\ drones after.1 !! 1
     = Some (drone_at "alpha" "SER-1" 0.5 0.5 (Some 2) DroneStatusBroken)
  /\ forall d, (OrderRepository.FindNextAvailableForReservation d after.1).2 = inr None.
Proof.
  repeat split; try eexists; vm_compute; reflexivity.
Qed.

(** The error of the last lookup is dropped as well: when it alone fails,
    the handoff is done and the call succeeds without an order in its
    response. *)
Example MarkBroken_reread_error_dropped :
  let db := with_faults [false; false; false; false; false; false; true] flight_db in
  let after := DroneServer.MarkBroken (as_drone "SER-1") db in
  after.2 = inr None
  /\ status_of after.1 2 = Some OrderStatusToPickUp
  /\ drones after.1 !! 1 = Some (drone_at "alpha" "SER-1" 0.5 0.5 None DroneStatusBroken).
Proof. repeat split; vm_compute; reflexivity. Qed.

(** X25. For a drone that calls [MarkBroken]. After a successful call,
    whatever the driver does: the drone is 'broken'; if its assigned order
    existed and was 'en route', that order is 'to pick up' with the drone's
    coordinates as pickup coordinates; otherwise no order has changed. When
    no statement of the call fails, the call succeeds, the drone is
    unassigned, and the handed-off order is returned (no order when there
    was no handoff). [db1] is the database as the resolution of the caller
    leaves it. *)
Theorem MarkBroken_handoff {cases : unicode.CaseRanges} (ctx : auth.Context) (db db1 : DB) (dr : Drone.t) :
  resolved db ctx dr db1 ->
  let after := DroneServer.MarkBroken ctx db in
  let en_route job o :=
    Drone.AssignedJob dr = Some job /\ orders db !! job = Some o
    /\ Order.Status o = OrderStatusEnRoute in
  (forall resp, after.2 = inr resp ->
     Drone.Status <$> drones after.1 !! Drone.ID dr = Some DroneStatusBroken
     /\ (forall job o, en_route job o ->
           orders after.1 !! job = Some (handed_off (Drone.Lat dr) (Drone.Lng dr) o))
     /\ ((~ exists job o, en_route job o) -> orders after.1 = orders db))
  /\ (no_faults db ->
      drones after.1 !! Drone.ID dr = Some (grounded dr)
      /\ (forall job o, en_route job o ->
            after.2 = inr (toProtoOrder
                             (Some (Order.mk job
                                      (handed_off (Drone.Lat dr) (Drone.Lng dr) o)))))
      /\ ((~ exists job o, en_route job o) -> after.2 = inr None)).
Proof.
  intros Hres after en_route. split.
  - intros resp Hok.
    destruct (MarkBroken_on_success ctx db db1 dr resp Hres Hok) as (Hb & Hh & Hn).
    split; [exact Hb |]. split; [| exact Hn].
    intros job o (Hj & Ho & Hen). now apply Hh.
  - intros Hf. rewrite (resolved_no_faults _ _ _ _ Hf Hres) in Hres.
    destruct (MarkBroken_no_faults ctx db dr Hf Hres) as [Hhand Hnone].
    assert (Hcases : (exists job o, en_route job o)
                     \/ (Drone.AssignedJob dr = None
                         \/ exists job, Drone.AssignedJob dr = Some job
                              /\ ~ exists o, orders db !! job = Some o
                                             /\ Order.Status o = OrderStatusEnRoute)).
    { subst en_route. destruct (Drone.AssignedJob dr) as [job |]; [| auto].
      destruct (orders db !! job) as [o |] eqn:Ho.
      - destruct (decide (Order.Status o = OrderStatusEnRoute)) as [Hen | Hen].
        + left. eauto.
        + right. right. exists job. split; [reflexivity |].
          intros (o' & Ho' & Hen'). congruence.
      - right. right. exists job. split; [reflexivity |].
        intros (o' & Ho' & _). congruence. }
    split; [| split].
    + destruct Hcases as [(job & o & Hj & Ho & Hen) | Hc].
      * now destruct (Hhand job o Hj Ho Hen) as (_ & _ & Hd).
      * now destruct (Hnone Hc) as (_ & _ & Hd).
    + intros job o (Hj & Ho & Hen). now destruct (Hhand job o Hj Ho Hen) as (Hr & _).
    + intros Hno. destruct Hcases as [Hyes | Hc]; [contradiction |].
      now destruct (Hnone Hc) as (Hr & _).
Qed.

Lemma MarkBroken_handoff_witness :
  (DroneServer.MarkBroken (as_drone "SER-1") flight_db).2
  = inr (toProtoOrder
           (Some (Order.mk 2
                    (handed_off 0.5 0.5
                       (order_at 0 0 OrderStatusEnRoute "2024-01-02 03:04:06" (Some "1"))))))
  /\ drones (DroneServer.MarkBroken (as_drone "SER-1") flight_db).1 !! 1
     = Some (drone_at "alpha" "SER-1" 0.5 0.5 None DroneStatusBroken).
Proof.
  destruct (MarkBroken_handoff (as_drone "SER-1") flight_db flight_db
              (Drone.mk 1 (drone_at "alpha" "SER-1" 0.5 0.5 (Some 2) DroneStatusFixed))
              resolved_flight_1) as [_ Hrun].
  destruct (Hrun eq_refl) as (Hdrone & Hret & _).
  split; [| exact Hdrone].
  exact (Hret 2 (order_at 0 0 OrderStatusEnRoute "2024-01-02 03:04:06" (Some "1"))
           (conj eq_refl (conj eq_refl eq_refl))).
Defined.

(** ** C7: a failed handoff write *)

(** C7. When a drone carries an 'en route' order and the statement that
    sets the order's status to 'to pick up' fails, [MarkBroken] returns an
    error and no row has changed: the drone is not marked broken and the
    order is still 'en route'. [db1] is the database as the resolution of
    the caller leaves it; of the statements that follow, the lookup of the
    order runs and the handoff write fails. *)
Theorem MarkBroken_handoff_write_fails {cases : unicode.CaseRanges}
    (ctx : auth.Context) (db db1 : DB) (dr : Drone.t) (job : Z) (o : Order.row)
    (fs : list bool) :
  resolved db ctx dr db1 ->
  Drone.AssignedJob dr = Some job -> orders db !! job = Some o ->
  Order.Status o = OrderStatusEnRoute ->
  faults db1 = false :: true :: fs ->
  let after := DroneServer.MarkBroken ctx db in
  after.2 = inl (status.Error codes.Internal "update status")
  /\ drones after.1 = drones db
  /\ orders after.1 = orders db
  /\ Drone.Status <$> drones after.1 !! Drone.ID dr = Some (Drone.Status dr).
Proof.
  intros Hres Hj Ho Hen Hfs after.
  pose proof (resolved_row _ _ _ _ Hres) as Hrow.
  assert (Hdb1 : exists f, db1 = with_faults f db).
  { destruct Hres as (p & _ & _ & Hr). now apply resolveDrone_inv in Hr as [_ Hr]. }
  destruct Hdb1 as [f ->].
  subst after. unfold DroneServer.MarkBroken.
  rewrite (as_resolved _ _ _ _ _ Hres). clear Hres.
  destruct dr as [id [n s la ln sp j st]].
  destruct db as [us os ds su so sd now fs0].
  cbn in Hj, Ho, Hfs, Hrow |- *. subst j f.
  run. rewrite Ho. run. rewrite (bool_decide_eq_true_2 _ Hen). run.
  repeat split. now rewrite Hrow.
Qed.

Lemma MarkBroken_handoff_write_fails_witness :
  let db := with_faults [false; false; true] flight_db in
  (DroneServer.MarkBroken (as_drone "SER-1") db).2
  = inl (status.Error codes.Internal "update status")
  /\ Drone.Status <$> drones (DroneServer.MarkBroken (as_drone "SER-1") db).1 !! 1
     = Some DroneStatusFixed.
Proof.
  assert (Hres : resolved (with_faults [false; false; true] flight_db) (as_drone "SER-1")
                   (Drone.mk 1 (drone_at "alpha" "SER-1" 0.5 0.5 (Some 2) DroneStatusFixed))
                   (with_faults [false; true] flight_db)).
  { exists (auth.mkPrincipal "SER-1" "drone"). repeat split. }
  destruct (MarkBroken_handoff_write_fails (as_drone "SER-1")
              (with_faults [false; false; true] flight_db)
              (with_faults [false; true] flight_db)
              (Drone.mk 1 (drone_at "alpha" "SER-1" 0.5 0.5 (Some 2) DroneStatusFixed))
              2 (order_at 0 0 OrderStatusEnRoute "2024-01-02 03:04:06" (Some "1")) []
              Hres eq_refl eq_refl eq_refl eq_refl) as (Herr & _ & _ & Hst).
  split; [exact Herr | exact Hst].
Defined.

(** ** C2: at most one drone per order *)

Lemma one_drone_per_order_alter f id ds :
  (forall r, Drone.AssignedJob (f r) = Drone.AssignedJob r
             \/ Drone.AssignedJob (f r) = None) ->
  one_drone_per_order ds -> one_drone_per_order (alter f id ds).
Proof.
  intros Hf Hu d1 d2 r1 r2 o H1 H2 J1 J2.
  assert (Hback : forall d r, alter f id ds !! d = Some r ->
                              Drone.AssignedJob r = Some o ->
                              exists r', ds !! d = Some r' /\ Drone.AssignedJob r' = Some o).
  { intros d r Hd Hj. rewrite lookup_alter in Hd.
    destruct (decide (id = d)) as [<- | Hne]; [| eauto].
    destruct (ds !! id) as [r' |]; [| discriminate]. injection Hd as <-.
    exists r'. split; [reflexivity |]. destruct (Hf r') as [He | He]; congruence. }
  destruct (Hback d1 r1 H1 J1) as (r1' & H1' & J1').
  destruct (Hback d2 r2 H2 J2) as (r2' & H2' & J2').
  exact (Hu d1 d2 r1' r2' o H1' H2' J1' J2').
Qed.

Lemma job_taken_false ds id o :
  DroneRepository.job_taken ds id o = false ->
  forall k r, ds !! k = Some r -> Drone.AssignedJob r = Some o -> k = id.
Proof.
  unfold DroneRepository.job_taken. rewrite bool_decide_eq_false, map_Exists_lookup.
  intros Hn k r Hk Hj. destruct (decide (k = id)) as [-> | Hne]; [reflexivity |].
  exfalso. apply Hn. eauto.
Qed.

Lemma job_taken_true db d o :
  held_by_another db d o -> DroneRepository.job_taken (drones db) d o = true.
Proof.
  intros (d' & r' & Hne & Hd & Hj). unfold DroneRepository.job_taken.
  rewrite bool_decide_eq_true, map_Exists_lookup. eauto.
Qed.

Lemma one_drone_per_order_assign ds id o :
  DroneRepository.job_taken ds id o = false ->
  one_drone_per_order ds ->
  one_drone_per_order (alter (Drone.with_AssignedJob (Some o)) id ds).
Proof.
  intros Hfree Hu d1 d2 r1 r2 o' H1 H2 J1 J2.
  pose proof (job_taken_false ds id o Hfree) as Hid.
  rewrite lookup_alter in H1, H2.
  destruct (decide (id = d1)) as [<- | N1], (decide (id = d2)) as [<- | N2];
    try reflexivity.
  - destruct (ds !! id) as [r |]; [| discriminate]. injection H1 as <-.
    cbn in J1. injection J1 as <-. symmetry. eauto.
  - destruct (ds !! id) as [r |]; [| discriminate]. injection H2 as <-.
    cbn in J2. injection J2 as <-. eauto.
  - eauto.
Qed.

Lemma one_drone_per_order_insert ds id d :
  (forall o, Drone.AssignedJob d = Some o ->
             DroneRepository.job_taken ds id o = false) ->
  one_drone_per_order ds -> one_drone_per_order (<[id := d]> ds).
Proof.
  intros Hfree Hu d1 d2 r1 r2 o H1 H2 J1 J2.
  rewrite lookup_insert in H1, H2.
  destruct (decide (id = d1)) as [<- | N1], (decide (id = d2)) as [<- | N2];
    try reflexivity.
  - injection H1 as <-. symmetry.
    exact (job_taken_false ds id o (Hfree o J1) d2 r2 H2 J2).
  - injection H2 as <-.
    exact (job_taken_false ds id o (Hfree o J2) d1 r1 H1 J1).
  - eauto.
Qed.

Lemma unique_assignment_faults : on_tables unique_assignment.
Proof. intros db f H. exact H. Qed.

Lemma preserves_same_drones (P : gmap Z Drone.row -> Prop) {A}
    (stmt : DB -> dberr + (DB * A)) :
  (forall db db' a, stmt db = inr (db', a) -> drones db' = drones db) ->
  preserves (fun db => P (drones db)) (exec stmt).
Proof.
  intros Hsame. apply preserves_exec.
  - intros db f H. exact H.
  - intros db db' a H Hs. now rewrite (Hsame db db' a Hs).
Qed.

Ltac same_drones :=
  apply (preserves_same_drones one_drone_per_order);
  let Hs := fresh "Hs" in
  intros ? ? ? Hs;
  repeat match type of Hs with
         | context [match ?x with _ => _ end] => destruct x
         end;
  try discriminate; injection Hs as <-; try reflexivity.

Lemma Users_Create_unique n : preserves unique_assignment (UserRepository.Create n).
Proof. same_drones. Qed.

Lemma Users_UpdateRole_unique n r :
  preserves unique_assignment (UserRepository.UpdateRoleByUsername n r).
Proof. same_drones. Qed.

Lemma Orders_UpdateStatus_unique id st :
  preserves unique_assignment (OrderRepository.UpdateStatus id st).
Proof. same_drones. Qed.

Lemma Orders_UpdatePickupLocation_unique id lat lng :
  preserves unique_assignment (OrderRepository.UpdatePickupLocation id lat lng).
Proof. same_drones. Qed.

Lemma Orders_UpdateLocations_unique id a b c d :
  preserves unique_assignment (OrderRepository.UpdateLocations id a b c d).
Proof. same_drones. Qed.

Lemma Orders_AppendDronePath_unique o d :
  preserves unique_assignment (OrderRepository.AppendDronePath o d).
Proof. same_drones. Qed.

Lemma Orders_Create_unique o : preserves unique_assignment (OrderRepository.Create o).
Proof.
  unfold OrderRepository.Create. apply preserves_bind.
  - same_drones.
  - intros id. apply preserves_bind.
    + apply preserves_query, unique_assignment_faults.
    + intros [o2 |]; [apply preserves_ret | apply preserves_fail].
Qed.

Lemma Drones_alter_unique f id :
  (forall r, Drone.AssignedJob (f r) = Drone.AssignedJob r
             \/ Drone.AssignedJob (f r) = None) ->
  preserves unique_assignment
    (exec (fun db => inr (with_drones (alter f id (drones db)) db, tt))).
Proof.
  intros Hf. apply preserves_exec; [apply unique_assignment_faults |].
  intros db db' [] H [= <-]. now apply one_drone_per_order_alter.
Qed.

Lemma Drones_UpdateLocationAndSpeed_unique id a b c :
  preserves unique_assignment (DroneRepository.UpdateLocationAndSpeed id a b c).
Proof. apply Drones_alter_unique. intros r. now left. Qed.

Lemma Drones_UpdateStatus_unique id st :
  preserves unique_assignment (DroneRepository.UpdateStatus id st).
Proof. apply Drones_alter_unique. intros r. now left. Qed.

Lemma Drones_UnassignJob_unique id :
  preserves unique_assignment (DroneRepository.UnassignJob id).
Proof. apply Drones_alter_unique. intros r. now right. Qed.

Lemma Drones_AssignJob_unique id o :
  preserves unique_assignment (DroneRepository.AssignJob id o).
Proof.
  apply preserves_exec; [apply unique_assignment_faults |].
  intros db db' [] H Hs.
  destruct (drones db !! id); [| now injection Hs as <-].
  destruct (DroneRepository.job_taken (drones db) id o) eqn:Hfree; [discriminate |].
  destruct (bool_decide _); [| discriminate].
  injection Hs as <-. now apply one_drone_per_order_assign.
Qed.

Lemma Drones_Create_unique d : preserves unique_assignment (DroneRepository.Create d).
Proof.
  apply preserves_exec; [apply unique_assignment_faults |].
  intros db db' a H Hs.
  cbv zeta in Hs.
  destruct (DroneRepository.serial_taken _ _); [discriminate |].
  destruct (Drone.AssignedJob d) as [o |] eqn:Hj.
  - destruct (DroneRepository.job_taken (drones db) _ o) eqn:Hfree; [discriminate |].
    destruct (bool_decide _); [| discriminate].
    injection Hs as <- _. apply one_drone_per_order_insert; [| exact H].
    intros o' Ho'. congruence.
  - injection Hs as <- _. apply one_drone_per_order_insert; [| exact H].
    intros o' Ho'. congruence.
Qed.

#[local] Hint Resolve unique_assignment_faults
  Users_Create_unique Users_UpdateRole_unique
  Orders_UpdateStatus_unique Orders_UpdatePickupLocation_unique
  Orders_UpdateLocations_unique Orders_AppendDronePath_unique Orders_Create_unique
  Drones_UpdateLocationAndSpeed_unique Drones_UpdateStatus_unique
  Drones_UnassignJob_unique Drones_AssignJob_unique Drones_Create_unique : preserve.

Ltac unfold_handlers :=
  unfold serve, call, outcome,
    Server.SetOrder, Server.WithdrawOrder, Server.resolveCurrentUser,
    DroneServer.ReserveOrder, DroneServer.reserve, DroneServer.GrabOrder,
    DroneServer.CompleteOrder, DroneServer.MarkBroken, DroneServer.Heartbeat,
    DroneServer.GetAssignedOrder, DroneServer.resolveDrone, DroneServer.reread,
    AdminServer.UpdateOrderLocation, AdminServer.UpdateDroneStatus,
    auth.RequireAdmin, OrderRepository.Withdraw,
    UserRepository.GetByUsername, OrderRepository.GetByID,
    OrderRepository.FindNextAvailableForReservation,
    DroneRepository.GetByID, DroneRepository.GetBySerial, DroneRepository.GetByName.

Lemma serve_unique {cases : unicode.CaseRanges} m c db :
  unique_assignment db -> unique_assignment (serve m c db).1.
Proof.
  intros H.
  destruct c; cbn [serve outcome fst];
    match goal with
    | |- unique_assignment (?h db).1 =>
        revert db H; change (preserves unique_assignment h)
    end;
    unfold_handlers; preserve.
Qed.

Lemma call_unique c db :
  unique_assignment db -> unique_assignment (call c db).1.
Proof.
  intros H.
  destruct c; cbn [call outcome fst];
    match goal with
    | |- unique_assignment (?h db).1 =>
        revert db H; change (preserves unique_assignment h)
    end;
    unfold_handlers; preserve.
Qed.

Lemma reachable_unique {cases : unicode.CaseRanges} m db : reachable m db -> unique_assignment db.
Proof.
  induction 1 as [| db t f _ IH | db c _ IH | db c _ IH].
  - intros d1 d2 r1 r2 o H1. cbn in H1. rewrite lookup_empty in H1. discriminate.
  - exact IH.
  - now apply call_unique.
  - now apply serve_unique.
Qed.

(** C2. In every reachable state an order id is the assigned job of at most
    one drone row. [AssignJob d o], run while a drone other than [d] holds
    [o], fails with a uniqueness violation and changes no row, so that [d]
    is as unassigned as before; and [ReserveOrder], whose writes start with
    that [AssignJob], then returns Aborted with the message "assign race". *)
Theorem at_most_one_drone_per_order {cases : unicode.CaseRanges}
    (m : libm) (db : DB) (d o : Z) (r : Drone.row) (dr : Drone.t) (ord : Order.t) :
  (reachable m db -> one_drone_per_order (drones db))
  /\ (no_faults db -> drones db !! d = Some r -> held_by_another db d o ->
      DroneRepository.AssignJob d o db = (db, inl ErrUnique)
      /\ (Drone.ID dr = d -> Order.ID ord = o ->
          DroneServer.reserve dr ord db
          = (db, inl (status.Error codes.Aborted "assign race")))).
Proof.
  split; [apply reachable_unique |].
  intros Hf Hd Hheld.
  assert (Hassign : DroneRepository.AssignJob d o db = (db, inl ErrUnique)).
  { unfold DroneRepository.AssignJob. rewrite (exec_no_faults _ _ Hf), Hd.
    now rewrite (job_taken_true db d o Hheld). }
  split; [exact Hassign |].
  intros <- <-. unfold DroneServer.reserve.
  now rewrite (run_bind_err _ _ _ _ _ (run_orError_err _ _ _ _ _ _ Hassign)).
Qed.

(** Two drones of the fleet select the same order; drone 1 reserves it
    first, and the writes of drone 2 then lose the race. *)
Example fleet_same_candidate :
  (OrderRepository.FindNextAvailableForReservation 1 fleet_db).2
  = (OrderRepository.FindNextAvailableForReservation 2 fleet_db).2.
Proof. vm_compute. reflexivity. Qed.

Lemma at_most_one_drone_per_order_witness :
  let db1 := (DroneServer.ReserveOrder (as_drone "SER-1") fleet_db).1 in
  one_drone_per_order (drones (serve small_angle (CallReserveOrder (as_drone "SER-1"))
                                 (call (Users_Create "u") empty_db).1).1)
  /\ DroneServer.reserve (Drone.mk 2 (drone_at "bravo" "SER-2" 0 0 None DroneStatusFixed))
       (Order.mk 2 (order_at 0 0 OrderStatusToPickUp "2024-01-02 03:04:06" None))
       db1
     = (db1, inl (status.Error codes.Aborted "assign race")).
Proof.
  split.
  - apply (proj1 (at_most_one_drone_per_order small_angle _ 0 0
                    (drone_at "alpha" "SER-1" 0 0 None DroneStatusFixed)
                    (Drone.mk 0 (drone_at "alpha" "SER-1" 0 0 None DroneStatusFixed))
                    (Order.mk 0 (order_at 0 0 OrderStatusPlaced "" None)))).
    apply reach_rpc, reach_repo, reach_open.
  - apply (proj2 (at_most_one_drone_per_order small_angle
                    (DroneServer.ReserveOrder (as_drone "SER-1") fleet_db).1 2 2
                    (drone_at "bravo" "SER-2" 0 0 None DroneStatusFixed)
                    (Drone.mk 2 (drone_at "bravo" "SER-2" 0 0 None DroneStatusFixed))
                    (Order.mk 2 (order_at 0 0 OrderStatusToPickUp "2024-01-02 03:04:06"
                                   None)))
             eq_refl eq_refl); [| reflexivity | reflexivity].
    exists 1, (drone_at "alpha" "SER-1" 0 0 (Some 2) DroneStatusFixed).
    repeat split. discriminate.
Defined.

(** ** C3: terminal statuses *)

(** C3, as stated, fails. Order 3 of the flight is 'delivered' and its
    submitter withdraws it; order 1 is withdrawn while drone 2 holds it, and
    once that drone reports itself at the destination its [CompleteOrder]
    turns 'withdrawn' into 'delivered'. Every call succeeds. *)
Lemma terminal_status_overwritten :
  (status_of flight_db 3 = Some OrderStatusDelivered
   /\ serve small_angle (CallWithdrawOrder (as_user "u") 3) flight_db
      = (with_orders
           (alter (Order.with_Status OrderStatusWithdrawn) 3 (orders flight_db))
           flight_db, inr tt)
   /\ status_of (serve small_angle (CallWithdrawOrder (as_user "u") 3) flight_db).1 3
      = Some OrderStatusWithdrawn)
  /\ (let db1 := (serve small_angle (CallWithdrawOrder (as_user "u") 1) flight_db).1 in
      let at_destination :=
        Some (dronev1.mkHeartbeatRequest (Some (userv1.mkCoordinates 1 1)) 10) in
      let db2 := (serve small_angle (CallHeartbeat (as_drone "SER-2") at_destination) db1).1 in
      let last := serve small_angle (CallCompleteOrder (as_drone "SER-2") true) db2 in
      status_of db1 1 = Some OrderStatusWithdrawn
      /\ status_of db2 1 = Some OrderStatusWithdrawn
      /\ last.2 = inr tt
      /\ status_of last.1 1 = Some OrderStatusDelivered).
Proof. repeat split; vm_compute; reflexivity. Qed.

(** *** Pre- and postconditions *)

Lemma triple_preserves {E A} (I : DB -> Prop) (m : M E A) :
  preserves I m -> triple I m (fun _ => I) I.
Proof.
  intros H db Hdb. specialize (H db Hdb). now destruct (m db) as [db' [e | a]].
Qed.

Lemma preserves_triple {E A} (I : DB -> Prop) (m : M E A) :
  triple I m (fun _ => I) I -> preserves I m.
Proof.
  intros H db Hdb. specialize (H db Hdb). now destruct (m db) as [db' [e | a]].
Qed.

Lemma triple_bind {E A B} P (m : M E A) (k : A -> M E B) Q' Q R :
  triple P m Q' R -> (forall a, triple (Q' a) (k a) Q R) -> triple P (bind m k) Q R.
Proof.
  intros Hm Hk db Hdb. unfold bind. specialize (Hm db Hdb).
  destruct (m db) as [db' [e | a]]; [exact Hm | exact (Hk a db' Hm)].
Qed.

Lemma triple_orError {A} P c msg (m : M dberr A) Q R :
  triple P m Q R -> triple P (orError c msg m) Q R.
Proof.
  intros Hm db Hdb. unfold orError, mapErr. specialize (Hm db Hdb).
  now destruct (m db) as [db' [e | a]].
Qed.

Lemma triple_weaken {E A} (P P' : DB -> Prop) (m : M E A) Q R :
  (forall db, P' db -> P db) -> triple P m Q R -> triple P' m Q R.
Proof. intros HP Hm db Hdb. apply Hm, HP, Hdb. Qed.

(** A SELECT returns what it reads from the tables it leaves behind. *)
Lemma triple_query {A} (I : DB -> Prop) (q : DB -> A) :
  on_tables I ->
  triple I (query q) (fun a db => I db /\ a = q db) I.
Proof.
  intros Hon db Hdb. unfold query, exec.
  destruct (faults db) as [| [|] fs]; cbn; auto.
Qed.

(** ** Statements that leave a status alone *)

Lemma status_at_faults id st : on_tables (status_at id st).
Proof. intros db f H. exact H. Qed.

Lemma preserves_same_orders (P : gmap Z Order.row -> Prop) {A}
    (stmt : DB -> dberr + (DB * A)) :
  (forall db db' a, stmt db = inr (db', a) -> orders db' = orders db) ->
  preserves (fun db => P (orders db)) (exec stmt).
Proof.
  intros Hsame. apply preserves_exec.
  - intros db f H. exact H.
  - intros db db' a H Hs. now rewrite (Hsame db db' a Hs).
Qed.

Ltac same_orders id st :=
  apply (preserves_same_orders (fun os => Order.Status <$> os !! id = Some st));
  let Hs := fresh "Hs" in
  intros ? ? ? Hs; cbv zeta in Hs;
  repeat match type of Hs with
         | context [match ?x with _ => _ end] => destruct x
         end;
  try discriminate; injection Hs as <-; try reflexivity.

Section StatusKept.
Variables (id : Z) (st : OrderStatus).

Lemma Users_Create_status n : preserves (status_at id st) (UserRepository.Create n).
Proof. same_orders id st. Qed.

Lemma Users_UpdateRole_status n r :
  preserves (status_at id st) (UserRepository.UpdateRoleByUsername n r).
Proof. same_orders id st. Qed.

Lemma Drones_Create_status d : preserves (status_at id st) (DroneRepository.Create d).
Proof. same_orders id st. Qed.

Lemma Drones_UpdateLocationAndSpeed_status k a b c :
  preserves (status_at id st) (DroneRepository.UpdateLocationAndSpeed k a b c).
Proof. same_orders id st. Qed.

Lemma Drones_UpdateStatus_status k s :
  preserves (status_at id st) (DroneRepository.UpdateStatus k s).
Proof. same_orders id st. Qed.

Lemma Drones_AssignJob_status k o :
  preserves (status_at id st) (DroneRepository.AssignJob k o).
Proof. same_orders id st. Qed.

Lemma Drones_UnassignJob_status k :
  preserves (status_at id st) (DroneRepository.UnassignJob k).
Proof. same_orders id st. Qed.

Lemma Orders_alter_status (f : Order.row -> Order.row) k :
  (forall r, Order.Status (f r) = Order.Status r) ->
  preserves (status_at id st)
    (exec (fun db => inr (with_orders (alter f k (orders db)) db, tt))).
Proof.
  intros Hf. apply preserves_exec; [apply status_at_faults |].
  intros db db' [] H [= <-]. unfold status_at, status_of in *. cbn [orders with_orders].
  rewrite lookup_alter. destruct (decide (k = id)) as [-> | Hne]; [| exact H].
  destruct (orders db !! id) as [r |]; [| discriminate]. cbn in *. now rewrite Hf.
Qed.

Lemma Orders_UpdatePickupLocation_status k lat lng :
  preserves (status_at id st) (OrderRepository.UpdatePickupLocation k lat lng).
Proof. now apply Orders_alter_status. Qed.

Lemma Orders_AppendDronePath_status k d :
  preserves (status_at id st) (OrderRepository.AppendDronePath k d).
Proof. now apply Orders_alter_status. Qed.

Lemma Orders_UpdateLocations_status k a b c d :
  preserves (status_at id st) (OrderRepository.UpdateLocations k a b c d).
Proof.
  apply preserves_exec; [apply status_at_faults |].
  intros db db' [] H Hs. destruct (orders db !! k) eqn:Hk; [| discriminate].
  injection Hs as <-. unfold status_at, status_of in *. cbn [orders with_orders].
  rewrite lookup_alter. destruct (decide (k = id)) as [-> | Hne]; [| exact H].
  rewrite Hk in *. exact H.
Qed.

(** A status is overwritten at another order only. *)
Lemma Orders_UpdateStatus_elsewhere k s :
  k <> id -> preserves (status_at id st) (OrderRepository.UpdateStatus k s).
Proof.
  intros Hne. apply preserves_exec; [apply status_at_faults |].
  intros db db' [] H [= <-]. unfold status_at, status_of in *. cbn [orders with_orders].
  now rewrite lookup_alter_ne.
Qed.

End StatusKept.

Lemma max_key_bound {R} (t : gmap Z R) k r : t !! k = Some r -> k <= max_key t.
Proof.
  intros H. apply elem_of_map_to_list in H. unfold max_key.
  induction (map_to_list t) as [| [k' r'] l IH]; [inversion H |].
  cbn [map foldr fst]. apply elem_of_cons in H as [[= <- <-] | H]; [lia |].
  specialize (IH H). lia.
Qed.

Lemma Orders_Create_status id st o :
  preserves (status_at id st) (OrderRepository.Create o).
Proof.
  unfold OrderRepository.Create. apply preserves_bind.
  - apply preserves_exec; [apply status_at_faults |].
    intros db db' a H Hs. destruct (bool_decide _); [| discriminate].
    cbv zeta in Hs. injection Hs as <- _.
    unfold status_at, status_of in *. cbn [orders].
    rewrite lookup_insert_ne; [exact H |].
    intros Heq. destruct (orders db !! id) as [r |] eqn:Hid; [| discriminate].
    apply max_key_bound in Hid. lia.
  - intros k. apply preserves_bind.
    + apply preserves_query, status_at_faults.
    + intros [o2 |]; [apply preserves_ret | apply preserves_fail].
Qed.

#[local] Hint Resolve status_at_faults
  Users_Create_status Users_UpdateRole_status Drones_Create_status
  Drones_UpdateLocationAndSpeed_status Drones_UpdateStatus_status
  Drones_AssignJob_status Drones_UnassignJob_status
  Orders_UpdatePickupLocation_status Orders_AppendDronePath_status
  Orders_UpdateLocations_status Orders_Create_status : preserve.

Lemma triple_back {E A} (I : DB -> Prop) (P : DB -> Prop) (m : M E A) :
  (forall db, P db -> I db) -> preserves I m -> triple P m (fun _ => I) I.
Proof. intros HP Hm. eapply triple_weaken; [exact HP | now apply triple_preserves]. Qed.

Lemma resolveDrone_status id st name :
  preserves (status_at id st) (DroneServer.resolveDrone name).
Proof. unfold_handlers. preserve. Qed.

(** [GrabOrder] writes 'en route' over 'placed' or 'to pick up' only. *)
Lemma GrabOrder_keeps_terminal {cases : unicode.CaseRanges} m ctx id st :
  terminal st -> preserves (status_at id st) (DroneServer.GrabOrder m ctx).
Proof.
  intros Hterm. apply preserves_triple. unfold DroneServer.GrabOrder.
  eapply triple_bind; [apply triple_preserves, preserves_lift |]. intros p.
  eapply triple_bind; [apply triple_preserves, resolveDrone_status |]. intros dr.
  destruct (Drone.AssignedJob dr) as [job |];
    [| apply triple_preserves, preserves_fail].
  eapply triple_bind;
    [apply triple_orError, (triple_query (status_at id st)), status_at_faults |].
  intros [ord |]; [| apply (triple_back (status_at id st)); [now intros db [H _] | preserve]].
  destruct (bool_decide (Order.Status ord <> OrderStatusPlaced)
            && bool_decide (Order.Status ord <> OrderStatusToPickUp)) eqn:Hgrab;
    [apply (triple_back (status_at id st)); [now intros db [H _] | preserve] |].
  match goal with
  | |- triple _ (let '(_, _) := ?x in _) _ _ => destruct x as [targetLat targetLng]
  end.
  destruct (_ <? _)%float;
    [apply (triple_back (status_at id st)); [now intros db [H _] | preserve] |].
  intros db [HI Hord].
  assert (Hne : Order.ID ord <> id).
  { intros <-. unfold status_at, status_of in HI.
    destruct (orders db !! job) as [o |] eqn:Ho; [| discriminate].
    cbn in Hord. injection Hord as ->. cbn in HI, Hgrab. rewrite Ho in HI.
    cbn in HI. injection HI as HI. rewrite HI in Hgrab.
    apply andb_false_iff in Hgrab.
    rewrite !bool_decide_eq_false in Hgrab.
    destruct Hterm as [H | [H | H]]; rewrite H in Hgrab;
      destruct Hgrab as [Hg | Hg]; apply Hg; discriminate. }
  clear Hord. revert db HI. apply triple_preserves.
  unfold DroneServer.reread, OrderRepository.GetByID.
  preserve. now apply Orders_UpdateStatus_elsewhere.
Qed.

(** [MarkBroken] writes 'to pick up' over 'en route' only. *)
Lemma MarkBroken_keeps_terminal {cases : unicode.CaseRanges} ctx id st :
  terminal st -> preserves (status_at id st) (DroneServer.MarkBroken ctx).
Proof.
  intros Hterm. unfold DroneServer.MarkBroken.
  apply preserves_bind; [apply preserves_lift |]. intros p.
  apply preserves_bind; [apply resolveDrone_status |]. intros dr.
  apply preserves_bind.
  - destruct (Drone.AssignedJob dr) as [job |]; [| apply preserves_ret].
    apply preserves_triple.
    eapply triple_bind;
      [apply triple_orError, (triple_query (status_at id st)), status_at_faults |].
    assert (Hrest : forall affected : option Order.t,
              preserves (status_at id st)
                (discard (DroneRepository.UnassignJob (Drone.ID dr)) ;;;
                 @ret status.t _ affected)) by (intros; preserve).
    intros [ord |].
    + destruct (bool_decide_reflect (Order.Status ord = OrderStatusEnRoute)) as [Hen | _].
      * intros db [HI Hord].
        assert (Hne : Order.ID ord <> id).
        { intros <-. unfold status_at, status_of in HI.
          destruct (orders db !! job) as [o |] eqn:Ho; [| discriminate].
          cbn in Hord. injection Hord as ->. cbn in HI, Hen. rewrite Ho in HI.
          cbn in HI. injection HI as HI. rewrite HI in Hen.
          destruct Hterm as [H | [H | H]]; rewrite H in Hen; discriminate. }
        clear Hord. revert db HI. apply triple_preserves.
        apply preserves_bind; [| intros ?; apply Hrest].
        preserve. now apply Orders_UpdateStatus_elsewhere.
      * apply (triple_back (status_at id st)); [now intros db [H _] |].
        apply preserves_bind; [apply preserves_ret | intros ?; apply Hrest].
    + apply (triple_back (status_at id st)); [now intros db [H _] |].
      apply preserves_bind; [apply preserves_ret | intros ?; apply Hrest].
  - intros affected. unfold DroneServer.reread, OrderRepository.GetByID. preserve.
Qed.

Lemma RequireDrone_inv {cases : unicode.CaseRanges} ctx p :
  auth.RequireDrone ctx = inr p -> ctx = Some p /\ auth.Kind p = "drone".
Proof.
  unfold auth.RequireDrone, auth.RequireKind, auth.RequirePrincipal.
  destruct ctx as [q |]; [| discriminate].
  change (strings.ToLower "drone") with "drone".
  destruct (String.eqb_spec (auth.Kind q) "drone") as [Hk | Hk]; cbn [negb];
    [| discriminate].
  now intros [= <-].
Qed.

(** [WithdrawOrder] writes at the order it is called for, and only for the
    user who submitted it. *)
Lemma WithdrawOrder_keeps_status ctx orderId id st db :
  status_at id st db ->
  ~ withdrawal_by_submitter db (CallWithdrawOrder ctx orderId) id ->
  status_at id st (Server.WithdrawOrder ctx orderId db).1.
Proof.
  intros H Hnot. destruct (decide (orderId = id)) as [-> | Hne].
  2: { revert db H Hnot. intros db H _. revert db H.
       change (preserves (status_at id st) (Server.WithdrawOrder ctx orderId)).
       unfold_handlers. preserve. now apply Orders_UpdateStatus_elsewhere. }
  destruct db as [us os ds su so sd now fs].
  unfold status_at, status_of in *. cbn [orders] in H.
  destruct (os !! id) as [o |] eqn:Ho; [| discriminate].
  assert (Hother : forall p u, ctx = Some p -> us !! auth.Name p = Some u ->
                     Order.SubmittedBy o <> User.ID u).
  { intros p u -> Hu E. apply Hnot. exists (Some p), p, u, o. now repeat split. }
  clear Hnot.
  unfold Server.WithdrawOrder, Server.resolveCurrentUser,
    auth.RequireEndUserOrAdmin, auth.RequirePrincipal.
  destruct (bool_decide (id = 0)); [run; now rewrite Ho |].
  destruct ctx as [p |]; [| run; now rewrite Ho].
  run.
  destruct (negb (auth.Kind p =? "enduser")%string && negb (auth.Kind p =? "admin")%string);
    [run; now rewrite Ho |].
  fault_cases; try (now rewrite Ho).
  all: destruct (us !! auth.Name p) as [u |] eqn:Hu; fault_cases; try (now rewrite Ho).
  all: rewrite ?Ho; fault_cases; try (now rewrite Ho).
  all: rewrite (bool_decide_eq_true_2 _ (Hother p u eq_refl Hu)).
  all: fault_cases; now rewrite Ho.
Qed.

(** [CompleteOrder] writes at the order its caller holds. *)
Lemma CompleteOrder_keeps_status {cases : unicode.CaseRanges} m ctx delivered id st db :
  status_at id st db ->
  ~ completion_by_holder db (CallCompleteOrder ctx delivered) id ->
  status_at id st (DroneServer.CompleteOrder m ctx delivered db).1.
Proof.
  intros H Hnot. unfold DroneServer.CompleteOrder.
  destruct (auth.RequireDrone ctx) as [e | p] eqn:Hgate;
    [exact H |].
  apply RequireDrone_inv in Hgate as [-> Hkind].
  rewrite (run_bind _ _ db db p) by reflexivity.
  pose proof (resolveDrone_status id st (auth.Name p) db H) as H1.
  destruct (DroneServer.resolveDrone (auth.Name p) db) as [db1 [e | dr]] eqn:Hres;
    cbn [fst] in H1.
  { now rewrite (run_bind_err _ _ _ _ _ Hres). }
  rewrite (run_bind _ _ _ _ _ Hres).
  assert (Hjob : Drone.AssignedJob dr <> Some id).
  { intros Hj. apply Hnot. exists (Some p), delivered, dr, db1.
    split; [reflexivity |]. split; [| exact Hj]. exists p. now repeat split. }
  clear Hnot Hres H. revert db1 H1.
  change (preserves (status_at id st)
            (match Drone.AssignedJob dr with
             | None => fail (status.Error codes.FailedPrecondition "no assigned order")
             | Some job =>
                 ord <~ orError codes.Internal "get order" (OrderRepository.GetByID job) ;;
                 match ord with
                 | None =>
                     discard (DroneRepository.UnassignJob (Drone.ID dr)) ;;;
                     fail (status.Error codes.NotFound "order not found")
                 | Some ord =>
                     let distance :=
                       geo.HaversineMiles m (Drone.Lat dr) (Drone.Lng dr)
                         (Order.DestLat ord) (Order.DestLng ord) in
                     if (geo.FeetToMiles geo.RadiusFeet <? distance)%float
                     then fail (status.Error codes.FailedPrecondition
                                  "not within destination radius")
                     else
                       let finalStatus :=
                         if delivered then OrderStatusDelivered else OrderStatusFailed in
                       orError codes.Internal "update status"
                         (OrderRepository.UpdateStatus (Order.ID ord) finalStatus) ;;;
                       orError codes.Internal "unassign"
                         (DroneRepository.UnassignJob (Drone.ID dr)) ;;;
                       ord <~ DroneServer.reread (Order.ID ord) ;;
                       ret (toProtoOrder ord)
                 end
             end)).
  destruct (Drone.AssignedJob dr) as [job |]; [| apply preserves_fail].
  apply preserves_triple.
  eapply triple_bind;
    [apply triple_orError, (triple_query (status_at id st)), status_at_faults |].
  intros [ord |]; [| apply (triple_back (status_at id st)); [now intros ? [? _] | preserve]].
  cbv zeta.
  destruct (_ <? _)%float;
    [apply (triple_back (status_at id st)); [now intros ? [? _] | preserve] |].
  intros db2 [HI Hord].
  assert (Hne : Order.ID ord <> id).
  { intros <-. destruct (orders db2 !! job) as [o |]; [| discriminate].
    cbn in Hord. injection Hord as ->. cbn in Hjob. congruence. }
  clear Hord. revert db2 HI. apply triple_preserves.
  unfold DroneServer.reread, OrderRepository.GetByID.
  preserve. now apply Orders_UpdateStatus_elsewhere.
Qed.

(** C3, amended. An order in a terminal status keeps it through every call
    of the service, whether the call succeeds or not and whatever the
    driver does, unless the call is the withdrawal of that order by the
    user who submitted it or a completion by the drone that holds it. *)
Theorem terminal_status_kept {cases : unicode.CaseRanges}
    (m : libm) (c : Call) (db : DB) (id : Z) (st : OrderStatus) :
  status_of db id = Some st -> terminal st ->
  ~ withdrawal_by_submitter db c id -> ~ completion_by_holder db c id ->
  status_of (serve m c db).1 id = Some st.
Proof.
  intros Hst Hterm Hw Hc.
  change (status_at id st (serve m c db).1).
  destruct c; cbn [serve outcome fst];
    try (now apply WithdrawOrder_keeps_status);
    try (now apply CompleteOrder_keeps_status);
    match goal with
    | |- status_at id st (?h db).1 =>
        clear Hw Hc; revert db Hst; change (preserves (status_at id st) h)
    end;
    try (now apply GrabOrder_keeps_terminal);
    try (now apply MarkBroken_keeps_terminal);
    unfold_handlers; preserve.
Qed.

(** Order 3 of the flight is 'delivered' and was submitted by user "u".
    An admin who did not submit it cannot withdraw it; its submitter
    withdrawing order 1 leaves it alone; and so does the completion of
    order 2 by drone 1. *)
Lemma terminal_status_kept_witness :
  status_of (serve small_angle
               (CallWithdrawOrder (Some (auth.mkPrincipal "root" "admin")) 3)
               flight_db).1 3
  = Some OrderStatusDelivered
  /\ status_of (serve small_angle (CallWithdrawOrder (as_user "u") 1) flight_db).1 3
     = Some OrderStatusDelivered
  /\ status_of (serve small_angle (CallCompleteOrder (as_drone "SER-1") true)
                  flight_db).1 3
     = Some OrderStatusDelivered.
Proof.
  split; [| split].
  - apply (terminal_status_kept small_angle _ flight_db 3 OrderStatusDelivered eq_refl).
    + left. reflexivity.
    + intros (ctx & p & u & o & [= <-] & [= <-] & Hu & Ho & Hs).
      vm_compute in Hu, Ho. injection Hu as <-. injection Ho as <-. discriminate.
    + intros (ctx & delivered & dr & db1 & [=] & _).
  - apply (terminal_status_kept small_angle _ flight_db 3 OrderStatusDelivered eq_refl).
    + left. reflexivity.
    + intros (ctx & p & u & o & [=] & _).
    + intros (ctx & delivered & dr & db1 & [=] & _).
  - apply (terminal_status_kept small_angle _ flight_db 3 OrderStatusDelivered eq_refl).
    + left. reflexivity.
    + intros (ctx & p & u & o & [=] & _).
    + intros (ctx & delivered & dr & db1 & [= <- <-] & Hres & Hjob).
      destruct Hres as (p & [= <-] & _ & Hr). vm_compute in Hr.
      injection Hr as _ <-. discriminate.
Defined.

(* ===================================================================== *)
(** * Further properties of the handlers and the repositories *)
(* ===================================================================== *)

(** ** Reserving an order *)

(** What the selection query returns when it runs: the first available
    order, or none when no order is available. *)
Lemma next_available_cases (db : DB) (d : Z) :
  no_faults db ->
  (exists o, OrderRepository.FindNextAvailableForReservation d db = (db, inr (Some o))
             /\ first_available db d o)
  \/ (OrderRepository.FindNextAvailableForReservation d db = (db, inr None)
      /\ forall o, ~ available db d o).
Proof.
  intros Hf. unfold OrderRepository.FindNextAvailableForReservation.
  rewrite (query_no_faults _ _ Hf).
  pose proof (merge_sort_head OrderRepository.precedes
                (List.filter (OrderRepository.selectable (drones db) d)
                   (map_to_list (orders db)))) as Hhead.
  destruct (merge_sort OrderRepository.precedes _) as [| [id r] rest].
  - right. split; [reflexivity |]. intros [i x] Ha.
    apply selected_iff in Ha. rewrite Hhead in Ha. destruct Ha.
  - left. destruct Hhead as [Hin Hmin]. exists (Order.mk id r).
    split; [reflexivity |]. split; [now apply selected_iff |].
    intros [i x] Ha.
    apply precedes_not_after.
    + apply selected_iff in Hin. destruct Hin as (_ & _ & Hst & _).
      now apply reservable_iff.
    + destruct Ha as (_ & _ & Hst & _). now apply reservable_iff.
    + apply (Hmin (i, x)). now apply selected_iff.
Qed.

Lemma job_taken_free ds id o :
  (forall k d, ds !! k = Some d -> Drone.AssignedJob d <> Some o) ->
  DroneRepository.job_taken ds id o = false.
Proof.
  intros Hfree. unfold DroneRepository.job_taken.
  rewrite bool_decide_eq_false, map_Exists_lookup.
  intros (k & r & Hk & _ & Hj). exact (Hfree k r Hk Hj).
Qed.

(** X1. When no statement fails, a fixed drone without an assignment that
    calls [ReserveOrder] gets the first available order: the order is the
    response, the drone's row carries it as assigned job, and the drone's id
    is appended to the order's path; nothing else changes. When no order is
    available the call fails with a precondition error and changes
    nothing. *)
Theorem ReserveOrder_reserves {cases : unicode.CaseRanges} (ctx : auth.Context) (db : DB) (dr : Drone.t) :
  no_faults db -> resolved db ctx dr db ->
  Drone.Status dr = DroneStatusFixed -> Drone.AssignedJob dr = None ->
  let after := DroneServer.ReserveOrder ctx db in
  (exists o,
     first_available db (Drone.ID dr) o
     /\ after.2 = inr (toProtoOrder (Some o))
     /\ drones after.1
        = alter (Drone.with_AssignedJob (Some (Order.ID o))) (Drone.ID dr) (drones db)
     /\ orders after.1
        = alter (fun r => Order.with_DronePath
                            (OrderRepository.appended (strconv.FormatInt (Drone.ID dr))
                               (Order.DronePath r)) r)
            (Order.ID o) (orders db)
     /\ users after.1 = users db)
  \/ ((forall o, ~ available db (Drone.ID dr) o)
      /\ after = (db, inl (status.Error codes.FailedPrecondition
                             "no available orders to reserve"))).
Proof.
  intros Hf Hres Hfixed Hfree after.
  pose proof (resolved_row _ _ _ _ Hres) as Hrow.
  subst after. unfold DroneServer.ReserveOrder.
  rewrite (as_resolved _ _ _ _ _ Hres), Hfixed, Hfree.
  rewrite bool_decide_eq_false_2 by discriminate.
  rewrite bool_decide_eq_false_2 by (intros H; now apply H).
  destruct (next_available_cases db (Drone.ID dr) Hf) as [(o & Hrun & Hfirst) | [Hrun Hnone]].
  - left. exists o. split; [exact Hfirst |].
    rewrite (run_bind _ _ _ _ _ (run_orError _ _ _ _ _ _ Hrun)).
    destruct Hfirst as [(Ho & Hun & _ & _) _].
    unfold DroneServer.reserve.
    assert (Hassign :
      DroneRepository.AssignJob (Drone.ID dr) (Order.ID o) db
      = (with_drones (alter (Drone.with_AssignedJob (Some (Order.ID o)))
                        (Drone.ID dr) (drones db)) db, inr tt)).
    { unfold DroneRepository.AssignJob. rewrite (exec_no_faults _ _ Hf), Hrow.
      rewrite (job_taken_free _ _ _ Hun).
      rewrite bool_decide_eq_true_2 by (rewrite Ho; eauto). reflexivity. }
    rewrite (run_bind _ _ _ _ _ (run_orError _ _ _ _ _ _ Hassign)).
    unfold OrderRepository.AppendDronePath, orError, mapErr, bind.
    rewrite exec_no_faults by exact Hf.
    repeat split.
  - right. split; [exact Hnone |].
    now rewrite (run_bind _ _ _ _ _ (run_orError _ _ _ _ _ _ Hrun)).
Qed.

Lemma resolved_fleet_1 :
  resolved fleet_db (as_drone "SER-1")
    (Drone.mk 1 (drone_at "alpha" "SER-1" 0 0 None DroneStatusFixed)) fleet_db.
Proof. exists (auth.mkPrincipal "SER-1" "drone"). repeat split. Qed.

Lemma ReserveOrder_reserves_witness :
  let dr := Drone.mk 1 (drone_at "alpha" "SER-1" 0 0 None DroneStatusFixed) in
  let after := DroneServer.ReserveOrder (as_drone "SER-1") fleet_db in
  (exists o,
     first_available fleet_db (Drone.ID dr) o
     /\ after.2 = inr (toProtoOrder (Some o))
     /\ drones after.1
        = alter (Drone.with_AssignedJob (Some (Order.ID o))) (Drone.ID dr) (drones fleet_db)
     /\ orders after.1
        = alter (fun r => Order.with_DronePath
                            (OrderRepository.appended (strconv.FormatInt (Drone.ID dr))
                               (Order.DronePath r)) r)
            (Order.ID o) (orders fleet_db)
     /\ users after.1 = users fleet_db)
  \/ ((forall o, ~ available fleet_db (Drone.ID dr) o)
      /\ after = (fleet_db, inl (status.Error codes.FailedPrecondition
                                   "no available orders to reserve"))).
Proof.
  exact (ReserveOrder_reserves (as_drone "SER-1") fleet_db
           (Drone.mk 1 (drone_at "alpha" "SER-1" 0 0 None DroneStatusFixed))
           eq_refl resolved_fleet_1 eq_refl eq_refl).
Defined.

(** X2. A broken drone, or one that already has an assignment, is refused by
    [ReserveOrder] with a precondition error before any order is looked
    for, whatever the driver does: no row of orders or drones changes. *)
Theorem ReserveOrder_refuses {cases : unicode.CaseRanges} (ctx : auth.Context) (db db1 : DB) (dr : Drone.t) :
  resolved db ctx dr db1 ->
  Drone.Status dr = DroneStatusBroken \/ Drone.AssignedJob dr <> None ->
  let after := DroneServer.ReserveOrder ctx db in
  failed_precondition after.2 /\ after.1 = db1.
Proof.
  intros Hres Hcase after. subst after. unfold DroneServer.ReserveOrder.
  rewrite (as_resolved _ _ _ _ _ Hres).
  destruct (bool_decide_reflect (Drone.Status dr = DroneStatusBroken)) as [Hb | Hb].
  - split; [eexists |]; reflexivity.
  - destruct Hcase as [Hc | Hc]; [contradiction |].
    rewrite (bool_decide_eq_true_2 _ Hc). split; [eexists |]; reflexivity.
Qed.

Lemma ReserveOrder_refuses_witness :
  let after := DroneServer.ReserveOrder (as_drone "SER-1") flight_db in
  failed_precondition after.2 /\ after.1 = flight_db.
Proof.
  apply (ReserveOrder_refuses (as_drone "SER-1") flight_db flight_db
           (Drone.mk 1 (drone_at "alpha" "SER-1" 0.5 0.5 (Some 2) DroneStatusFixed))
           resolved_flight_1).
  right. discriminate.
Defined.

(** ** Completing an order *)

(** X3. For a drone whose assigned order [o] exists: [CompleteOrder]
    succeeds only when its distance test passes, that is, when the drone is
    within 100 feet of the destination or the distance is not a number (a
    coordinate is infinite or not a number itself); and after a success the
    order is 'delivered' or 'failed' as the request says and the drone has
    no assignment, whatever the driver does. When no statement fails, the
    call fails with a precondition error, changing nothing, when the test
    does not pass, and succeeds otherwise. The present status of the order
    is not looked at. *)
Theorem CompleteOrder_completes {cases : unicode.CaseRanges}
    (m : libm) (ctx : auth.Context) (delivered : bool) (db db1 : DB) (dr : Drone.t)
    (job : Z) (o : Order.row) :
  resolved db ctx dr db1 ->
  Drone.AssignedJob dr = Some job -> orders db !! job = Some o ->
  let near := within_radius m (Drone.Lat dr) (Drone.Lng dr)
                (Order.DestLat o, Order.DestLng o)
              \/ no_distance m (Drone.Lat dr) (Drone.Lng dr)
                   (Order.DestLat o, Order.DestLng o) in
  let final := if delivered then OrderStatusDelivered else OrderStatusFailed in
  let after := DroneServer.CompleteOrder m ctx delivered db in
  (forall resp, after.2 = inr resp ->
     near
     /\ orders after.1 = alter (Order.with_Status final) job (orders db)
     /\ drones after.1 = alter (Drone.with_AssignedJob None) (Drone.ID dr) (drones db))
  /\ (no_faults db ->
      (~ near ->
       after = (db, inl (status.Error codes.FailedPrecondition
                           "not within destination radius")))
      /\ (near ->
          after.2 = inr (toProtoOrder (Some (Order.mk job (Order.with_Status final o)))))).
Proof.
  intros Hres Hjob Ho near final after.
  destruct (resolved_faults _ _ _ _ Hres) as [f Hdb1].
  assert (Hnf : no_faults db -> db1 = db)
    by (intros Hf; exact (resolved_no_faults _ _ _ _ Hf Hres)).
  subst after final. unfold DroneServer.CompleteOrder.
  rewrite (as_resolved _ _ _ _ _ Hres), Hjob. clear Hres.
  destruct dr as [id [n s la ln sp j st]].
  destruct db as [us os ds su so sd now fs0].
  cbn [Drone.AssignedJob Drone.cols Drone.ID Drone.Lat Drone.Lng orders] in *.
  pose proof (radius_test_iff m la ln (Order.DestLat o, Order.DestLng o)) as Htest.
  cbn [fst snd] in Htest. fold near in Htest. clearbody near.
  split.
  - subst db1. run.
    destruct f as [| [|] f]; run; try (intros ? [=]; fail).
    all: rewrite Ho; run.
    all: destruct (_ <? _)%float eqn:Hnear; run; try (intros ? [=]; fail).
    all: fault_cases; try (intros ? [=]; fail).
    all: intros resp _; split; [now apply Htest | split; reflexivity].
  - intros Hf. rewrite (Hnf Hf). unfold no_faults in Hf. cbn in Hf. subst fs0.
    run. rewrite Ho. run.
    destruct (_ <? _)%float eqn:Hnear; run.
    + split; [reflexivity |]. intros Hn. apply Htest in Hn. discriminate.
    + split; [intros Hn; contradiction Hn; now apply Htest |]. intros _.
      rewrite lookup_alter_eq, Ho. reflexivity.
Qed.

Lemma CompleteOrder_completes_witness :
  let o := order_at 0 0 OrderStatusEnRoute "2024-01-02 03:04:06" (Some "1") in
  let near := within_radius small_angle 0.5 0.5 (Order.DestLat o, Order.DestLng o)
              \/ no_distance small_angle 0.5 0.5 (Order.DestLat o, Order.DestLng o) in
  let after := DroneServer.CompleteOrder small_angle (as_drone "SER-1") true flight_db in
  (forall resp, after.2 = inr resp ->
     near
     /\ orders after.1 = alter (Order.with_Status OrderStatusDelivered) 2 (orders flight_db)
     /\ drones after.1 = alter (Drone.with_AssignedJob None) 1 (drones flight_db))
  /\ (no_faults flight_db ->
      (~ near ->
       after = (flight_db, inl (status.Error codes.FailedPrecondition
                                  "not within destination radius")))
      /\ (near ->
          after.2 = inr (toProtoOrder
                           (Some (Order.mk 2 (Order.with_Status OrderStatusDelivered o)))))).
Proof.
  exact (CompleteOrder_completes small_angle (as_drone "SER-1") true flight_db flight_db
           (Drone.mk 1 (drone_at "alpha" "SER-1" 0.5 0.5 (Some 2) DroneStatusFixed))
           2 (order_at 0 0 OrderStatusEnRoute "2024-01-02 03:04:06" (Some "1"))
           resolved_flight_1 eq_refl eq_refl).
Defined.

(** ** Heartbeats *)

(** X4. A heartbeat without a request or without a location is refused with
    an invalid-argument error before the database is touched; the caller
    being a drone is checked first. *)
Theorem Heartbeat_needs_location {cases : unicode.CaseRanges}
    (ctx : auth.Context) (req : option dronev1.HeartbeatRequest) (db : DB) :
  (req ≫= dronev1.Location) = None ->
  DroneServer.Heartbeat ctx req db
  = (db, match auth.RequireDrone ctx with
         | inl e => inl e
         | inr _ => inl (status.Error codes.InvalidArgument "location required")
         end).
Proof.
  intros Hloc. unfold DroneServer.Heartbeat, bind, lift.
  destruct (auth.RequireDrone ctx) as [e | p]; [reflexivity |].
  destruct req as [[[loc |] speed] |]; [discriminate | reflexivity | reflexivity].
Qed.

Lemma Heartbeat_needs_location_witness :
  DroneServer.Heartbeat (as_drone "SER-1") None flight_db
  = (flight_db, inl (status.Error codes.InvalidArgument "location required")).
Proof. exact (Heartbeat_needs_location (as_drone "SER-1") None flight_db eq_refl). Defined.

(** X5. After a successful heartbeat the drone's row has the latitude,
    longitude and speed of the request and is otherwise the same, and no
    other row has changed; when the call fails nothing has changed. This
    holds whatever the driver does. When no statement fails the call
    succeeds. *)
Theorem Heartbeat_updates {cases : unicode.CaseRanges}
    (ctx : auth.Context) (loc : userv1.Coordinates) (speed : float)
    (db db1 : DB) (dr : Drone.t) :
  resolved db ctx dr db1 ->
  let after := DroneServer.Heartbeat ctx (Some (dronev1.mkHeartbeatRequest (Some loc) speed)) db in
  orders after.1 = orders db /\ users after.1 = users db
  /\ match after.2 with
     | inr _ =>
         drones after.1
         = <[Drone.ID dr := Drone.with_LocationAndSpeed (userv1.Lat loc) (userv1.Lng loc)
                              speed dr]> (drones db)
     | inl _ => drones after.1 = drones db
     end
  /\ (no_faults db -> after.2 = inr tt).
Proof.
  intros Hres after.
  pose proof (resolved_row _ _ _ _ Hres) as Hrow.
  destruct (resolved_faults _ _ _ _ Hres) as [f Hdb1].
  assert (Hnf : no_faults db -> db1 = db)
    by (intros Hf; exact (resolved_no_faults _ _ _ _ Hf Hres)).
  subst after. unfold DroneServer.Heartbeat.
  destruct Hres as (p & -> & Hk & Hr). rewrite (RequireDrone_ok p Hk).
  rewrite (run_bind _ _ db db p) by reflexivity.
  rewrite (run_bind _ _ db db1 dr Hr).
  destruct dr as [id [n s la ln sp j st]].
  destruct db as [us os ds su so sd now fs0].
  cbn [Drone.AssignedJob Drone.cols Drone.ID Drone.Lat Drone.Lng drones] in *.
  assert (Halter : forall g, alter g id ds = <[id := g (Drone.Row n s la ln sp j st)]> ds).
  { intros g. apply map_eq. intros k. rewrite lookup_alter, lookup_insert.
    destruct (decide (id = k)) as [<- | Hne]; [now rewrite Hrow | reflexivity]. }
  repeat split.
  - subst db1. fault_cases; reflexivity.
  - subst db1. fault_cases; reflexivity.
  - subst db1. fault_cases; try reflexivity; apply Halter.
  - intros Hf. rewrite (Hnf Hf). unfold no_faults in Hf. cbn in Hf. subst fs0.
    run. reflexivity.
Qed.

Lemma Heartbeat_updates_witness :
  let dr := Drone.mk 1 (drone_at "alpha" "SER-1" 0.5 0.5 (Some 2) DroneStatusFixed) in
  let after := DroneServer.Heartbeat (as_drone "SER-1")
                 (Some (dronev1.mkHeartbeatRequest (Some (userv1.mkCoordinates 1 1)) 12))
                 flight_db in
  orders after.1 = orders flight_db /\ users after.1 = users flight_db
  /\ match after.2 with
     | inr _ =>
         drones after.1
         = <[1 := Drone.with_LocationAndSpeed 1 1 12 dr]> (drones flight_db)
     | inl _ => drones after.1 = drones flight_db
     end
  /\ (no_faults flight_db -> after.2 = inr tt).
Proof.
  exact (Heartbeat_updates (as_drone "SER-1") (userv1.mkCoordinates 1 1) 12
           flight_db flight_db
           (Drone.mk 1 (drone_at "alpha" "SER-1" 0.5 0.5 (Some 2) DroneStatusFixed))
           resolved_flight_1).
Defined.

(** ** Which drone a principal is *)

Lemma first_row_None p ds :
  DroneRepository.first_row p ds = None ->
  forall k r, ds !! k = Some r -> p r = false.
Proof.
  unfold DroneRepository.first_row.
  destruct (List.filter (fun kv => p kv.2) (scan ds)) as [| [id r0] l] eqn:Hfl;
    [| discriminate].
  intros _ k r Hk. apply scan_lookup in Hk.
  destruct (p r) eqn:Hp; [| reflexivity].
  assert (Hin : In (k, r) (List.filter (fun kv => p kv.2) (scan ds)))
    by (apply filter_In; split; assumption).
  rewrite Hfl in Hin. destruct Hin.
Qed.

(** X6. When the two lookups run, [resolveDrone] returns a drone of the table
    whose serial number is the principal's name, or, only when no drone has
    that serial number, one whose name is the principal's name; it fails
    with not-found exactly when no drone has the name as serial number or as
    name. A serial number thus shadows a name. *)
Theorem resolveDrone_serial_first (name : string) (db : DB) :
  no_faults db ->
  let by_serial := fun r : Drone.row => Drone.SerialNumber r = name in
  let by_name := fun r : Drone.row => Drone.Name r = name in
  let none P := forall k r, drones db !! k = Some r -> ~ P r in
  match DroneServer.resolveDrone name db with
  | (db', inr dr) =>
      db' = db /\ drones db !! Drone.ID dr = Some (Drone.cols dr)
      /\ (by_serial dr \/ (by_name dr /\ none by_serial))
  | (db', inl e) =>
      db' = db /\ e = status.Error codes.NotFound "drone not found"
      /\ none by_serial /\ none by_name
  end.
Proof.
  intros Hf by_serial by_name none.
  assert (Hnone : forall p : Drone.row -> string,
            DroneRepository.first_row (fun r => String.eqb (p r) name) (drones db) = None ->
            forall k r, drones db !! k = Some r -> p r <> name).
  { intros p Hp k r Hk. apply (first_row_None _ _ Hp) in Hk.
    now apply String.eqb_neq. }
  unfold DroneServer.resolveDrone, bind, orError, mapErr,
    DroneRepository.GetBySerial, DroneRepository.GetByName.
  rewrite (query_no_faults _ _ Hf).
  destruct (DroneRepository.first_row
              (fun r => String.eqb (Drone.SerialNumber r) name) (drones db))
    as [d1 |] eqn:H1.
  - apply first_row_Some in H1 as [Hrow Hs]. apply String.eqb_eq in Hs.
    cbn. auto.
  - pose proof (Hnone _ H1) as Hs1.
    rewrite (query_no_faults _ _ Hf).
    destruct (DroneRepository.first_row
                (fun r => String.eqb (Drone.Name r) name) (drones db))
      as [d2 |] eqn:H2.
    + apply first_row_Some in H2 as [Hrow Hn]. apply String.eqb_eq in Hn.
      cbn. split; [reflexivity |]. split; [assumption |]. right.
      split; assumption.
    + cbn. split; [reflexivity |]. split; [reflexivity |].
      split; [exact Hs1 | exact (Hnone _ H2)].
Qed.

Lemma resolveDrone_serial_first_witness :
  match DroneServer.resolveDrone "bravo" flight_db with
  | (db', inr dr) =>
      db' = flight_db /\ drones flight_db !! Drone.ID dr = Some (Drone.cols dr)
      /\ (Drone.SerialNumber dr = "bravo"
          \/ (Drone.Name dr = "bravo"
              /\ forall k r, drones flight_db !! k = Some r -> ~ Drone.SerialNumber r = "bravo"))
  | (db', inl e) =>
      db' = flight_db /\ e = status.Error codes.NotFound "drone not found"
      /\ (forall k r, drones flight_db !! k = Some r -> ~ Drone.SerialNumber r = "bravo")
      /\ (forall k r, drones flight_db !! k = Some r -> ~ Drone.Name r = "bravo")
  end.
Proof. exact (resolveDrone_serial_first "bravo" flight_db eq_refl). Defined.

(** ** Placing and withdrawing orders *)

Lemma RequireEndUserOrAdmin_ok p :
  auth.Kind p = "enduser" \/ auth.Kind p = "admin" ->
  auth.RequireEndUserOrAdmin (Some p) = inr p.
Proof.
  intros Hk. unfold auth.RequireEndUserOrAdmin, auth.RequirePrincipal.
  destruct Hk as [-> | ->]; reflexivity.
Qed.

Lemma max_key_fresh {R} (t : gmap Z R) (s : Z) : t !! (Z.max s (max_key t) + 1) = None.
Proof.
  destruct (t !! (Z.max s (max_key t) + 1)) as [r |] eqn:H; [| reflexivity].
  apply max_key_bound in H. lia.
Qed.

(** X7. When no statement fails, [SetOrder] by an end user or an admin whose
    user row exists adds one order under an id that was not in use: status
    'placed', submitted by the caller's user id, placed at the current
    timestamp, the coordinates of the request (0 where the request has
    none), no pickup coordinates and no path. The order is the response;
    no other order, no drone and no user changes. *)
Theorem SetOrder_places
    (p : auth.Principal) (u : User.t) (req : option userv1.SetOrderRequest) (db : DB) :
  no_faults db ->
  auth.Kind p = "enduser" \/ auth.Kind p = "admin" ->
  users db !! auth.Name p = Some u ->
  let origin := req ≫= userv1.SetOrder_Origin in
  let destination := req ≫= userv1.SetOrder_Destination in
  let id := Z.max (seq_orders db) (max_key (orders db)) + 1 in
  let row := Order.Row (userv1.GetLat origin) (userv1.GetLng origin)
               (userv1.GetLat destination) (userv1.GetLng destination)
               (User.ID u) OrderStatusPlaced (current_timestamp db) None None None in
  let after := Server.SetOrder (Some p) req db in
  after.2 = inr (toProtoOrder (Some (Order.mk id row)))
  /\ orders db !! id = None
  /\ orders after.1 = <[id := row]> (orders db)
  /\ drones after.1 = drones db
  /\ users after.1 = users db.
Proof.
  intros Hf Hk Hu origin destination id row after.
  subst after. unfold Server.SetOrder.
  rewrite (RequireEndUserOrAdmin_ok p Hk).
  rewrite (run_bind _ _ db db p) by reflexivity.
  assert (Huser : Server.resolveCurrentUser p db = (db, inr u)).
  { unfold Server.resolveCurrentUser.
    rewrite (run_bind _ _ _ _ _ (run_orError _ _ _ _ _ _ (Users_GetByUsername_run db Hf _))).
    now rewrite Hu. }
  rewrite (run_bind _ _ _ _ _ Huser).
  assert (Hcreate :
    OrderRepository.Create (Server.repositoryOrderFromReq (User.ID u) req) db
    = (mkDB (users db) (<[id := row]> (orders db)) (drones db)
            (seq_users db) id (seq_drones db) (current_timestamp db) (faults db),
       inr (Order.mk id row))).
  { unfold OrderRepository.Create, bind.
    rewrite (exec_no_faults _ _ Hf).
    rewrite bool_decide_eq_true_2
      by (apply map_Exists_lookup; exists (auth.Name p), u; split; [exact Hu | reflexivity]).
    unfold OrderRepository.GetByID.
    rewrite query_no_faults by exact Hf.
    cbn [orders]. rewrite lookup_insert_eq. reflexivity. }
  rewrite (run_bind _ _ _ _ _ (run_orError _ _ _ _ _ _ Hcreate)).
  repeat split. apply max_key_fresh.
Qed.

Lemma SetOrder_places_witness :
  let req := Some (userv1.mkSetOrderRequest (Some (userv1.mkCoordinates 1 2)) None) in
  let row := Order.Row 1 2 0 0 1 OrderStatusPlaced "2024-01-02 03:04:08" None None None in
  let after := Server.SetOrder (as_user "u") req fleet_db in
  after.2 = inr (toProtoOrder (Some (Order.mk 4 row)))
  /\ orders fleet_db !! 4 = None
  /\ orders after.1 = <[4 := row]> (orders fleet_db)
  /\ drones after.1 = drones fleet_db
  /\ users after.1 = users fleet_db.
Proof.
  exact (SetOrder_places (auth.mkPrincipal "u" "enduser") (User.mk 1 "u" "end user")
           (Some (userv1.mkSetOrderRequest (Some (userv1.mkCoordinates 1 2)) None))
           fleet_db eq_refl (or_introl eq_refl) eq_refl).
Defined.

Ltac run_user :=
  unfold Server.WithdrawOrder, Server.resolveCurrentUser,
    auth.RequireEndUserOrAdmin, auth.RequirePrincipal.

(** X8. Nobody withdraws another user's order: when the caller's user row is
    missing or has an id other than the one the order was submitted by,
    [WithdrawOrder] fails and no row of any table has changed, whatever the
    driver does; an admin is no exception. When no statement fails the
    error is a permission error for a caller whose user row exists. *)
Theorem WithdrawOrder_owner_only
    (ctx : auth.Context) (orderId : Z) (o : Order.row) (db : DB) :
  orders db !! orderId = Some o ->
  (forall p u, ctx = Some p -> users db !! auth.Name p = Some u ->
               User.ID u <> Order.SubmittedBy o) ->
  let after := Server.WithdrawOrder ctx orderId db in
  (exists e, after.2 = inl e)
  /\ orders after.1 = orders db /\ drones after.1 = drones db
  /\ users after.1 = users db
  /\ (no_faults db -> orderId <> 0 ->
      forall p u, ctx = Some p ->
        auth.Kind p = "enduser" \/ auth.Kind p = "admin" ->
        users db !! auth.Name p = Some u ->
        after = (db, inl (status.Error codes.PermissionDenied
                            "cannot withdraw another user's order"))).
Proof.
  intros Ho Hother after. subst after.
  destruct db as [us os ds su so sd now fs]. cbn [orders users] in *.
  split; [| split; [| split; [| split]]].
  1-4: run_user;
    destruct (bool_decide (orderId = 0)); [run; eauto |];
    destruct ctx as [p |]; [| run; eauto];
    run;
    destruct (negb (auth.Kind p =? "enduser")%string && negb (auth.Kind p =? "admin")%string);
      [run; eauto |];
    fault_cases; eauto;
    destruct (us !! auth.Name p) as [u |] eqn:Hu; fault_cases; eauto;
    rewrite ?Ho; fault_cases; eauto;
    try (rewrite bool_decide_eq_true_2
           by (intros E; exact (Hother p u eq_refl Hu (eq_sym E))));
    fault_cases; eauto.
  intros Hf Hid p u -> Hk Hu. unfold no_faults in Hf. cbn in Hf. subst fs.
  unfold Server.WithdrawOrder, Server.resolveCurrentUser.
  rewrite bool_decide_eq_false_2 by exact Hid.
  rewrite (RequireEndUserOrAdmin_ok p Hk).
  run. rewrite Hu. run. rewrite Ho. run.
  rewrite bool_decide_eq_true_2
    by (intros E; exact (Hother p u eq_refl Hu (eq_sym E))).
  reflexivity.
Qed.

Lemma WithdrawOrder_owner_only_witness :
  let after := Server.WithdrawOrder (Some (auth.mkPrincipal "root" "admin")) 1 flight_db in
  (exists e, after.2 = inl e)
  /\ orders after.1 = orders flight_db /\ drones after.1 = drones flight_db
  /\ users after.1 = users flight_db.
Proof.
  assert (Hother : forall p u, Some (auth.mkPrincipal "root" "admin") = Some p ->
                               users flight_db !! auth.Name p = Some u ->
                               User.ID u <> 1).
  { intros p u [= <-] Hu. vm_compute in Hu. injection Hu as <-. discriminate. }
  destruct (WithdrawOrder_owner_only (Some (auth.mkPrincipal "root" "admin")) 1
              (order_at 0 0 OrderStatusPlaced "2024-01-02 03:04:05" (Some "2"))
              flight_db eq_refl Hother) as (He & Ho & Hd & Hu & _).
  repeat split; assumption.
Defined.

(** X9. When no statement fails, [WithdrawOrder] by the user who submitted the
    order sets its status to 'withdrawn' and returns it. The status the
    order had is not looked at, and no drone row changes: a drone that holds
    the order keeps it as its assigned job. An order id of 0 is refused as
    an invalid argument before anything else is checked. *)
Theorem WithdrawOrder_withdraws
    (ctx : auth.Context) (p : auth.Principal) (u : User.t) (orderId : Z)
    (o : Order.row) (db : DB) :
  (Server.WithdrawOrder ctx 0 db
   = (db, inl (status.Error codes.InvalidArgument "order_id is required")))
  /\ (no_faults db -> orderId <> 0 ->
      auth.Kind p = "enduser" \/ auth.Kind p = "admin" ->
      users db !! auth.Name p = Some u ->
      orders db !! orderId = Some o -> Order.SubmittedBy o = User.ID u ->
      let after := Server.WithdrawOrder (Some p) orderId db in
      let o' := Order.with_Status OrderStatusWithdrawn o in
      after.2 = inr (toProtoOrder (Some (Order.mk orderId o')))
      /\ orders after.1 = <[orderId := o']> (orders db)
      /\ drones after.1 = drones db /\ users after.1 = users db).
Proof.
  split; [reflexivity |].
  intros Hf Hid Hk Hu Ho Hown after o'. subst after o'.
  destruct db as [us os ds su so sd now fs]. cbn [orders users drones] in *.
  unfold no_faults in Hf. cbn in Hf. subst fs.
  unfold Server.WithdrawOrder, Server.resolveCurrentUser.
  rewrite bool_decide_eq_false_2 by exact Hid.
  rewrite (RequireEndUserOrAdmin_ok p Hk).
  run. rewrite Hu. run. rewrite Ho. run.
  rewrite bool_decide_eq_false_2 by (intros E; now apply E).
  run. rewrite lookup_alter_eq, Ho. repeat split.
  apply map_eq. intros k. rewrite lookup_alter, lookup_insert.
  destruct (decide (orderId = k)) as [<- | Hne]; [now rewrite Ho | reflexivity].
Qed.

Lemma WithdrawOrder_withdraws_witness :
  let after := Server.WithdrawOrder (as_user "u") 2 flight_db in
  let o' := Order.with_Status OrderStatusWithdrawn
              (order_at 0 0 OrderStatusEnRoute "2024-01-02 03:04:06" (Some "1")) in
  after.2 = inr (toProtoOrder (Some (Order.mk 2 o')))
  /\ orders after.1 = <[2 := o']> (orders flight_db)
  /\ drones after.1 = drones flight_db /\ users after.1 = users flight_db.
Proof.
  apply (proj2 (WithdrawOrder_withdraws (as_user "u") (auth.mkPrincipal "u" "enduser")
                  (User.mk 1 "u" "end user") 2
                  (order_at 0 0 OrderStatusEnRoute "2024-01-02 03:04:06" (Some "1"))
                  flight_db));
    try reflexivity.
  - discriminate.
  - left. reflexivity.
Defined.

(** ** The admin's edit of a drone's status *)

(** X10. Once the admin gate has let the caller through and no statement
    fails, [UpdateDroneStatus] refuses a missing request, a drone id of 0
    and a status other than FIXED or BROKEN as invalid arguments, reports a
    drone id that is not in the table as not found, and otherwise rewrites
    the status column of that drone alone and returns the row. The drone's
    assigned job stays as it was and no order changes: marking a drone
    broken this way hands nothing off. *)
Theorem UpdateDroneStatus_status_only {cases : unicode.CaseRanges}
    (ctx : auth.Context) (p : auth.Principal) (db : DB)
    (id : Z) (st : adminv1.DroneStatus) :
  no_faults db -> auth.RequireAdmin ctx db = (db, inr p) ->
  let call req := AdminServer.UpdateDroneStatus ctx req db in
  let st' := match st with
             | adminv1.DRONE_STATUS_BROKEN => DroneStatusBroken
             | _ => DroneStatusFixed
             end in
  let req := Some (adminv1.mkUpdateDroneStatusRequest id st) in
  call None = (db, inl (status.Error codes.InvalidArgument "drone_id is required"))
  /\ (id = 0 ->
      call req = (db, inl (status.Error codes.InvalidArgument "drone_id is required")))
  /\ (id <> 0 -> st = adminv1.DRONE_STATUS_UNSPECIFIED ->
      call req = (db, inl (status.Error codes.InvalidArgument
                             "status must be FIXED or BROKEN")))
  /\ (id <> 0 -> st <> adminv1.DRONE_STATUS_UNSPECIFIED ->
      match drones db !! id with
      | None => call req = (db, inl (status.Error codes.NotFound "drone not found"))
      | Some r =>
          (call req).2 = inr (Drone.mk id (Drone.with_Status st' r))
          /\ drones (call req).1 = <[id := Drone.with_Status st' r]> (drones db)
          /\ Drone.AssignedJob (Drone.with_Status st' r) = Drone.AssignedJob r
          /\ orders (call req).1 = orders db
      end).
Proof.
  intros Hf Hgate call st' req. subst call req. cbv beta.
  unfold AdminServer.UpdateDroneStatus.
  rewrite !(run_bind _ _ _ _ _ Hgate).
  split; [reflexivity |]. split.
  { intros ->. reflexivity. }
  cbn [adminv1.DroneId adminv1.Status].
  split.
  { intros Hid ->. now rewrite bool_decide_eq_false_2 by exact Hid. }
  intros Hid Hst. rewrite bool_decide_eq_false_2 by exact Hid.
  destruct db as [us os ds su so sd now fs]. cbn [orders users drones] in *.
  unfold no_faults in Hf. cbn in Hf. subst fs.
  destruct st; [contradiction | |]; subst st'; run;
    (destruct (ds !! id) as [r |] eqn:Hr;
     [ rewrite lookup_alter_eq, Hr; run; repeat split;
       apply map_eq; intros k; rewrite lookup_alter, lookup_insert;
       destruct (decide (id = k)) as [<- | Hne]; [now rewrite Hr | reflexivity]
     | rewrite lookup_alter_eq, Hr; run; do 2 f_equal;
       apply map_eq; intros k; rewrite lookup_alter;
       destruct (decide (id = k)) as [<- | Hne]; [now rewrite Hr | reflexivity] ]).
Qed.

Lemma RequireAdmin_root :
  auth.RequireAdmin (Some (auth.mkPrincipal "root" "admin")) flight_db
  = (flight_db, inr (auth.mkPrincipal "root" "admin")).
Proof. vm_compute. reflexivity. Qed.

Lemma UpdateDroneStatus_status_only_witness :
  let ctx := Some (auth.mkPrincipal "root" "admin") in
  let req := Some (adminv1.mkUpdateDroneStatusRequest 1 adminv1.DRONE_STATUS_BROKEN) in
  let r := drone_at "alpha" "SER-1" 0.5 0.5 (Some 2) DroneStatusFixed in
  (AdminServer.UpdateDroneStatus ctx req flight_db).2
  = inr (Drone.mk 1 (Drone.with_Status DroneStatusBroken r))
  /\ orders (AdminServer.UpdateDroneStatus ctx req flight_db).1 = orders flight_db.
Proof.
  destruct (UpdateDroneStatus_status_only (Some (auth.mkPrincipal "root" "admin"))
              (auth.mkPrincipal "root" "admin") flight_db 1 adminv1.DRONE_STATUS_BROKEN
              eq_refl RequireAdmin_root) as (_ & _ & _ & H).
  assert (H1 : (1 : Z) <> 0) by discriminate.
  assert (H2 : adminv1.DRONE_STATUS_BROKEN <> adminv1.DRONE_STATUS_UNSPECIFIED)
    by discriminate.
  specialize (H H1 H2).
  change (drones flight_db !! 1)
    with (Some (drone_at "alpha" "SER-1" 0.5 0.5 (Some 2) DroneStatusFixed)) in H.
  destruct H as (Hr & _ & _ & Ho). split; assumption.
Defined.

(** ** Errors of the admin's edit of an order's locations *)

(** X11. Once the admin gate has let the caller through and no statement
    fails, [UpdateOrderLocation] refuses a missing request, an order id of
    0, and a request without origin or without destination as invalid
    arguments, and reports an order id that is not in the table as not
    found; in each case the database is left as it was. *)
Theorem UpdateOrderLocation_errors {cases : unicode.CaseRanges}
    (ctx : auth.Context) (p : auth.Principal) (db : DB)
    (req : option adminv1.UpdateOrderLocationRequest) :
  no_faults db -> auth.RequireAdmin ctx db = (db, inr p) ->
  let id := from_option adminv1.OrderId 0 req in
  let incomplete :=
    id = 0 \/ (req ≫= adminv1.Origin) = None \/ (req ≫= adminv1.Destination) = None in
  (incomplete ->
   AdminServer.UpdateOrderLocation ctx req db
   = (db, inl (status.Error codes.InvalidArgument
                 "order_id, origin and destination are required")))
  /\ (~ incomplete -> orders db !! id = None ->
      AdminServer.UpdateOrderLocation ctx req db
      = (db, inl (status.Error codes.NotFound "order not found"))).
Proof.
  intros Hf Hgate id incomplete. subst id incomplete.
  unfold AdminServer.UpdateOrderLocation.
  rewrite (run_bind _ _ _ _ _ Hgate).
  destruct req as [[id [origin |] [destination |]] |]; cbn [from_option mbind option_bind
    adminv1.OrderId adminv1.Origin adminv1.Destination].
  - split.
    + intros [-> | [[=] | [=]]]. reflexivity.
    + intros Hc Hnone.
      rewrite bool_decide_eq_false_2 by (intros E; apply Hc; now left).
      unfold OrderRepository.UpdateLocations, bind, mapErr.
      rewrite (exec_no_faults _ _ Hf), Hnone. reflexivity.
  - split; [reflexivity |]. intros Hc. exfalso. apply Hc. auto.
  - split; [reflexivity |]. intros Hc. exfalso. apply Hc. auto.
  - split; [reflexivity |]. intros Hc. exfalso. apply Hc. auto.
  - split; [reflexivity |]. intros Hc. exfalso. apply Hc. auto.
Qed.

Lemma UpdateOrderLocation_errors_witness :
  let ctx := Some (auth.mkPrincipal "root" "admin") in
  let req := Some (adminv1.mkUpdateOrderLocationRequest 9
                     (Some (userv1.mkCoordinates 1 1)) (Some (userv1.mkCoordinates 2 2))) in
  AdminServer.UpdateOrderLocation ctx req flight_db
  = (flight_db, inl (status.Error codes.NotFound "order not found")).
Proof.
  apply (proj2 (UpdateOrderLocation_errors (Some (auth.mkPrincipal "root" "admin"))
                  (auth.mkPrincipal "root" "admin") flight_db
                  (Some (adminv1.mkUpdateOrderLocationRequest 9
                           (Some (userv1.mkCoordinates 1 1))
                           (Some (userv1.mkCoordinates 2 2))))
                  eq_refl RequireAdmin_root)).
  - intros [[=] | [[=] | [=]]].
  - reflexivity.
Defined.

(** ** Who may call what *)

(** X12. A caller that is not a drone gets nothing from the drone service:
    each of its six calls returns the error of the gate, unauthenticated
    when the request carries no principal and permission denied when the
    principal's kind is not "drone", and the database is not touched, not
    even read. *)
Theorem drone_calls_need_a_drone {cases : unicode.CaseRanges}
    (m : libm) (ctx : auth.Context) (db : DB)
    (delivered : bool) (req : option dronev1.HeartbeatRequest) :
  (forall p, ctx = Some p -> auth.Kind p <> "drone") ->
  exists e,
    status.Code e = match ctx with
                    | Some _ => codes.PermissionDenied
                    | None => codes.Unauthenticated
                    end
    /\ DroneServer.ReserveOrder ctx db = (db, inl e)
    /\ DroneServer.GrabOrder m ctx db = (db, inl e)
    /\ DroneServer.CompleteOrder m ctx delivered db = (db, inl e)
    /\ DroneServer.MarkBroken ctx db = (db, inl e)
    /\ DroneServer.Heartbeat ctx req db = (db, inl e)
    /\ DroneServer.GetAssignedOrder m ctx db = (db, inl e).
Proof.
  intros Hkind.
  assert (Hgate : exists e,
            status.Code e = match ctx with
                    | Some _ => codes.PermissionDenied
                    | None => codes.Unauthenticated
                    end
            /\ auth.RequireDrone ctx = inl e).
  { unfold auth.RequireDrone, auth.RequireKind, auth.RequirePrincipal.
    destruct ctx as [p |]; [| eexists; split; [| reflexivity]; reflexivity].
    change (strings.ToLower "drone") with "drone".
    destruct (String.eqb_spec (auth.Kind p) "drone") as [E | _].
    - now contradiction (Hkind p eq_refl).
    - eexists; split; [| reflexivity]; reflexivity. }
  destruct Hgate as (e & Hcode & Hgate). exists e. split; [exact Hcode |].
  unfold DroneServer.ReserveOrder, DroneServer.GrabOrder, DroneServer.CompleteOrder,
    DroneServer.MarkBroken, DroneServer.Heartbeat, DroneServer.GetAssignedOrder.
  rewrite Hgate. repeat split.
Qed.

Lemma drone_calls_need_a_drone_witness :
  exists e,
    status.Code e = codes.PermissionDenied
    /\ DroneServer.MarkBroken (as_user "u") flight_db = (flight_db, inl e).
Proof.
  destruct (drone_calls_need_a_drone small_angle (as_user "u") flight_db true None)
    as (e & Hcode & _ & _ & _ & Hmark & _).
  - intros p [= <-]. discriminate.
  - exists e. split; assumption.
Defined.

(** X13. A caller that is neither an end user nor an admin cannot place or
    withdraw an order: [SetOrder], and [WithdrawOrder] of any order id other
    than 0, return the error of the gate and do not touch the database. *)
Theorem user_calls_need_a_user
    (ctx : auth.Context) (db : DB)
    (req : option userv1.SetOrderRequest) (orderId : Z) :
  (forall p, ctx = Some p -> auth.Kind p <> "enduser" /\ auth.Kind p <> "admin") ->
  orderId <> 0 ->
  exists e,
    status.Code e = match ctx with
                    | Some _ => codes.PermissionDenied
                    | None => codes.Unauthenticated
                    end
    /\ Server.SetOrder ctx req db = (db, inl e)
    /\ Server.WithdrawOrder ctx orderId db = (db, inl e).
Proof.
  intros Hkind Hid.
  assert (Hgate : exists e,
            status.Code e = match ctx with
                    | Some _ => codes.PermissionDenied
                    | None => codes.Unauthenticated
                    end
            /\ auth.RequireEndUserOrAdmin ctx = inl e).
  { unfold auth.RequireEndUserOrAdmin, auth.RequirePrincipal.
    destruct ctx as [p |]; [| eexists; split; [| reflexivity]; reflexivity].
    destruct (Hkind p eq_refl) as [H1 H2].
    apply String.eqb_neq in H1, H2. rewrite H1, H2.
    eexists; split; [| reflexivity]; reflexivity. }
  destruct Hgate as (e & Hcode & Hgate). exists e. split; [exact Hcode |].
  unfold Server.SetOrder, Server.WithdrawOrder.
  rewrite bool_decide_eq_false_2 by exact Hid.
  rewrite Hgate. split; reflexivity.
Qed.

Lemma user_calls_need_a_user_witness :
  exists e,
    status.Code e = codes.PermissionDenied
    /\ Server.WithdrawOrder (as_drone "SER-1") 1 flight_db = (flight_db, inl e).
Proof.
  destruct (user_calls_need_a_user (as_drone "SER-1") flight_db None 1)
    as (e & Hcode & _ & Hw).
  - intros p [= <-]. split; discriminate.
  - discriminate.
  - exists e. split; assumption.
Defined.

(** ** The path of drones that handled an order *)

Lemma FormatInt_inj a b : strconv.FormatInt a = strconv.FormatInt b -> a = b.
Proof.
  unfold strconv.FormatInt. intros H. apply DecimalZ.to_int_inj.
  assert (Hok : forall n, NilZero.int_of_string (NilZero.string_of_int (Z.to_int n))
                          = Some (Z.to_int n)).
  { intros n. apply NilZero.isi; destruct n as [| q | q]; cbn; try discriminate;
      intros [= E]; now apply (DecimalPos.Unsigned.to_uint_nonnil q). }
  pose proof (Hok a) as Ha. rewrite H, Hok in Ha. now injection Ha.
Qed.

Lemma FormatInt_nonempty n : strconv.FormatInt n <> "".
Proof.
  intros H. unfold strconv.FormatInt in H.
  assert (E : NilZero.int_of_string (NilZero.string_of_int (Z.to_int n)) = None)
    by now rewrite H.
  rewrite NilZero.isi in E; [discriminate | |];
    destruct n as [| q | q]; cbn; try discriminate;
    intros [= E']; now apply (DecimalPos.Unsigned.to_uint_nonnil q).
Qed.

Lemma Split_single d : avoids ","%char d -> strings.Split d ","%char = [d].
Proof.
  induction d as [| c d IH]; [reflexivity |]. intros [Hc Hd].
  rewrite (Split_other c d ","%char d [] Hc (IH Hd)). reflexivity.
Qed.

Lemma Split_snoc p d :
  avoids ","%char d ->
  strings.Split (p ++ "," ++ d) ","%char = (strings.Split p ","%char ++ [d])%list.
Proof.
  intros Hd. induction p as [| c p IH].
  - norm_append. rewrite Split_sep, (Split_single d Hd). reflexivity.
  - rewrite append_String.
    destruct (Ascii.eqb_spec c ","%char) as [-> | Hc].
    + rewrite !Split_sep, IH. reflexivity.
    + destruct (Split_cons p ","%char) as (h & t & Hs).
      rewrite (Split_other c p ","%char h t Hc Hs).
      rewrite Hs in IH.
      rewrite (Split_other c _ ","%char h (t ++ [d])%list Hc IH). reflexivity.
Qed.

(** The elements of a path once a drone id is appended to it. *)
Lemma appended_elements d path x :
  x <> "" ->
  In x (path_elements (OrderRepository.appended (strconv.FormatInt d) path))
  <-> x = strconv.FormatInt d \/ In x (path_elements path).
Proof.
  intros Hx. pose proof (FormatInt_no_comma d) as Hd.
  destruct path as [p |]; cbn [OrderRepository.appended path_elements].
  - destruct (String.eqb_spec p "") as [-> | Hp]; cbn [path_elements].
    + rewrite (Split_single _ Hd). cbn. intuition congruence.
    + rewrite (Split_snoc p _ Hd), in_app_iff. cbn. intuition congruence.
  - rewrite (Split_single _ Hd). cbn. intuition congruence.
Qed.

Lemma not_in_path_appended d d' path :
  OrderRepository.not_in_path d' (OrderRepository.appended (strconv.FormatInt d) path)
  = if decide (d' = d) then false else OrderRepository.not_in_path d' path.
Proof.
  pose proof (appended_elements d path _ (FormatInt_nonempty d')) as Hel.
  destruct (decide (d' = d)) as [-> | Hne].
  - apply not_true_is_false. intros H. apply not_in_path_iff in H.
    apply H, Hel. now left.
  - destruct (OrderRepository.not_in_path d' path) eqn:Hp.
    + apply not_in_path_iff. intros H. apply Hel in H as [H | H].
      * apply FormatInt_inj in H. contradiction.
      * apply not_in_path_iff in Hp. contradiction.
    + apply not_true_is_false. intros H. apply not_in_path_iff in H.
      apply not_true_iff_false in Hp. apply Hp, not_in_path_iff.
      intros Hin. apply H, Hel. now right.
Qed.

(** X14. When the statement runs, [AppendDronePath o d] changes the path of
    order [o] and nothing else, so that the filter of the selection query
    rejects [o] for drone [d] from then on and judges it for every other
    drone as before; [FindNextAvailableForReservation d] then never returns
    [o]. *)
Theorem AppendDronePath_excludes (db : DB) (orderID droneID : Z) (r : Order.row) :
  no_faults db -> orders db !! orderID = Some r ->
  let after := OrderRepository.AppendDronePath orderID droneID db in
  let r' := Order.with_DronePath
              (OrderRepository.appended (strconv.FormatInt droneID) (Order.DronePath r)) r in
  after.2 = inr tt
  /\ orders after.1 = <[orderID := r']> (orders db)
  /\ drones after.1 = drones db
  /\ (forall d, OrderRepository.not_in_path d (Order.DronePath r')
                = if decide (d = droneID) then false
                  else OrderRepository.not_in_path d (Order.DronePath r))
  /\ (forall o, (OrderRepository.FindNextAvailableForReservation droneID after.1).2
                = inr (Some o) -> Order.ID o <> orderID).
Proof.
  intros Hf Ho after r'.
  assert (Hafter : after = (with_orders (<[orderID := r']> (orders db)) db, inr tt)).
  { subst after. unfold OrderRepository.AppendDronePath.
    rewrite (exec_no_faults _ _ Hf). do 2 f_equal.
    apply map_eq. intros k. rewrite lookup_alter, lookup_insert.
    destruct (decide (orderID = k)) as [<- | Hne]; [now rewrite Ho | reflexivity]. }
  rewrite Hafter. cbn [fst snd orders drones with_orders].
  split; [reflexivity |]. split; [reflexivity |]. split; [reflexivity |]. split.
  - intros d. apply not_in_path_appended.
  - intros o Hnext Hid.
    set (db' := with_orders (<[orderID := r']> (orders db)) db) in *.
    assert (Hf' : no_faults db') by exact Hf.
    destruct (next_available_cases db' droneID Hf') as [(o' & Hrun & Hfirst) | [Hrun _]];
      rewrite Hrun in Hnext; [| discriminate].
    injection Hnext as ->.
    destruct Hfirst as [(Hrow & _ & _ & Hpath) _].
    subst db'. cbn [orders with_orders] in Hrow.
    rewrite Hid, lookup_insert_eq in Hrow. injection Hrow as Hrow.
    apply not_in_path_iff in Hpath. rewrite <- Hrow in Hpath.
    pose proof (not_in_path_appended droneID droneID (Order.DronePath r)) as Hn.
    rewrite decide_True in Hn by reflexivity.
    cbn [Order.DronePath Order.with_DronePath] in Hpath.
    unfold r' in Hpath. cbn [Order.DronePath Order.with_DronePath] in Hpath.
    congruence.
Qed.

Lemma AppendDronePath_excludes_witness :
  let after := OrderRepository.AppendDronePath 1 3 fleet_db in
  after.2 = inr tt
  /\ forall o, (OrderRepository.FindNextAvailableForReservation 3 after.1).2
               = inr (Some o) -> Order.ID o <> 1.
Proof.
  destruct (AppendDronePath_excludes fleet_db 1 3
              (order_at 0 0 OrderStatusPlaced "2024-01-02 03:04:05" None)
              eq_refl eq_refl) as (Hok & _ & _ & _ & Hnext).
  split; [exact Hok | exact Hnext].
Defined.

(** ** Assignments written and read back *)

Lemma first_row_unique p ds id r :
  ds !! id = Some r -> p r = true ->
  (forall k r', ds !! k = Some r' -> p r' = true -> k = id) ->
  DroneRepository.first_row p ds = Some (Drone.mk id r).
Proof.
  intros Hid Hp Huniq.
  destruct (DroneRepository.first_row p ds) as [[k r'] |] eqn:Hfirst.
  - apply first_row_Some in Hfirst as [Hk Hpk]. cbn in Hk, Hpk.
    pose proof (Huniq k r' Hk Hpk) as ->. congruence.
  - pose proof (first_row_None _ _ Hfirst id r Hid). congruence.
Qed.

(** X15. When no statement fails, [AssignJob d o] on a drone and an order of
    the tables either fails on the UNIQUE constraint, exactly when another
    drone holds [o], and changes nothing; or it succeeds, and then the
    readers agree with it: [GetByOrderID o] returns drone [d] with [o] as
    its assigned job, [GetAssignedOrderForDrone d] returns order [o], and
    after [UnassignJob d] no drone is found for [o]. *)
Theorem AssignJob_read_back (db : DB) (d o : Z) (r : Drone.row) (ro : Order.row) :
  no_faults db -> drones db !! d = Some r -> orders db !! o = Some ro ->
  match DroneRepository.AssignJob d o db with
  | (db', inl e) => db' = db /\ e = ErrUnique /\ held_by_another db d o
  | (db', inr _) =>
      ~ held_by_another db d o
      /\ DroneRepository.GetByOrderID o db'
         = (db', inr (Some (Drone.mk d (Drone.with_AssignedJob (Some o) r))))
      /\ OrderRepository.GetAssignedOrderForDrone d db' = (db', inr (Some (Order.mk o ro)))
      /\ (DroneRepository.GetByOrderID o (DroneRepository.UnassignJob d db').1).2 = inr None
  end.
Proof.
  intros Hf Hd Ho. unfold DroneRepository.AssignJob.
  rewrite (exec_no_faults _ _ Hf), Hd.
  destruct (DroneRepository.job_taken (drones db) d o) eqn:Htaken.
  - split; [reflexivity |]. split; [reflexivity |].
    unfold DroneRepository.job_taken in Htaken.
    apply bool_decide_eq_true, map_Exists_lookup in Htaken
      as (k & r' & Hk & Hne & Hj).
    exists k, r'. auto.
  - rewrite bool_decide_eq_true_2 by (rewrite Ho; eauto).
    pose proof (job_taken_false _ _ _ Htaken) as Honly.
    set (db' := with_drones _ db).
    assert (Hf' : no_faults db') by exact Hf.
    split; [| split; [| split]].
    + intros (k & r' & Hne & Hk & Hj). apply Hne. exact (Honly k r' Hk Hj).
    + unfold DroneRepository.GetByOrderID. rewrite (query_no_faults _ _ Hf').
      do 2 f_equal. subst db'. cbn [drones with_drones].
      apply first_row_unique.
      * now rewrite lookup_alter_eq, Hd.
      * now apply bool_decide_eq_true.
      * intros k r' Hk Hj. apply bool_decide_eq_true in Hj.
        rewrite lookup_alter in Hk.
        destruct (decide (d = k)) as [-> | Hne]; [reflexivity |].
        exact (Honly k r' Hk Hj).
    + unfold OrderRepository.GetAssignedOrderForDrone.
      rewrite (query_no_faults _ _ Hf'). do 2 f_equal.
      subst db'. cbn [drones orders with_drones].
      rewrite lookup_alter_eq, Hd. cbn. now rewrite Ho.
    + unfold DroneRepository.UnassignJob. rewrite (exec_no_faults _ _ Hf').
      cbn [fst]. unfold DroneRepository.GetByOrderID.
      rewrite query_no_faults by exact Hf'. cbn [snd]. f_equal.
      destruct (DroneRepository.first_row _ _) as [[k r'] |] eqn:Hfirst; [| reflexivity].
      exfalso. apply first_row_Some in Hfirst as [Hk Hj].
      cbn [Drone.ID Drone.cols drones with_drones] in Hk, Hj.
      apply bool_decide_eq_true in Hj. subst db'. cbn [drones with_drones] in Hk.
      destruct (decide (d = k)) as [<- | Hne].
      * rewrite !lookup_alter_eq, Hd in Hk. injection Hk as <-. discriminate.
      * rewrite !lookup_alter_ne in Hk by exact Hne.
        pose proof (Honly k r' Hk Hj). congruence.
Qed.

Lemma AssignJob_read_back_witness :
  match DroneRepository.AssignJob 3 1 fleet_db with
  | (db', inl e) => db' = fleet_db /\ e = ErrUnique /\ held_by_another fleet_db 3 1
  | (db', inr _) =>
      ~ held_by_another fleet_db 3 1
      /\ DroneRepository.GetByOrderID 1 db'
         = (db', inr (Some (Drone.mk 3
                             (Drone.with_AssignedJob (Some 1)
                                (drone_at "charlie" "SER-3" 0 0 None DroneStatusFixed)))))
      /\ OrderRepository.GetAssignedOrderForDrone 3 db'
         = (db', inr (Some (Order.mk 1
                              (order_at 0 0 OrderStatusPlaced "2024-01-02 03:04:05" None))))
      /\ (DroneRepository.GetByOrderID 1 (DroneRepository.UnassignJob 3 db').1).2 = inr None
  end.
Proof.
  exact (AssignJob_read_back fleet_db 3 1
           (drone_at "charlie" "SER-3" 0 0 None DroneStatusFixed)
           (order_at 0 0 OrderStatusPlaced "2024-01-02 03:04:05" None)
           eq_refl eq_refl eq_refl).
Defined.

(** ** Registering a drone *)

(** X16. When the statement runs, [Create] of a drone without an assigned job
    fails on the UNIQUE constraint, changing nothing, exactly when a drone
    of the table already has the serial number; otherwise the new row is
    stored under an id that was not in use, and [GetBySerial] of its serial
    number returns it. *)
Theorem Drones_Create_serial (db : DB) (d : Drone.row) :
  no_faults db -> Drone.AssignedJob d = None ->
  let taken := exists k r, drones db !! k = Some r
                           /\ Drone.SerialNumber r = Drone.SerialNumber d in
  match DroneRepository.Create d db with
  | (db', inl e) => db' = db /\ e = ErrUnique /\ taken
  | (db', inr dr) =>
      ~ taken
      /\ Drone.cols dr = d /\ drones db !! Drone.ID dr = None
      /\ drones db' = <[Drone.ID dr := d]> (drones db)
      /\ orders db' = orders db
      /\ DroneRepository.GetBySerial (Drone.SerialNumber d) db' = (db', inr (Some dr))
  end.
Proof.
  intros Hf Hjob taken. unfold DroneRepository.Create.
  rewrite (exec_no_faults _ _ Hf), Hjob.
  destruct (DroneRepository.serial_taken (drones db) (Drone.SerialNumber d)) eqn:Hs;
    unfold DroneRepository.serial_taken in Hs.
  - apply bool_decide_eq_true, map_Exists_lookup in Hs as (k & r & Hk & Hs).
    split; [reflexivity |]. split; [reflexivity |]. exists k, r. auto.
  - apply bool_decide_eq_false in Hs. rewrite map_Exists_lookup in Hs.
    set (id := Z.max (seq_drones db) (max_key (drones db)) + 1).
    set (db' := mkDB _ _ _ _ _ _ _ _).
    assert (Hf' : no_faults db') by exact Hf.
    cbn [Drone.ID Drone.cols].
    split; [| split; [reflexivity | split; [apply max_key_fresh | split; [reflexivity |]]]].
    + intros (k & r & Hk & Hr). apply Hs. eauto.
    + split; [reflexivity |].
      unfold DroneRepository.GetBySerial. rewrite (query_no_faults _ _ Hf').
      do 2 f_equal. subst db'. cbn [drones].
      apply first_row_unique.
      * apply lookup_insert_eq.
      * apply String.eqb_refl.
      * intros k r Hk Hr. apply String.eqb_eq in Hr.
        rewrite lookup_insert in Hk.
        destruct (decide (id = k)) as [<- | Hne]; [reflexivity |].
        exfalso. apply Hs. eauto.
Qed.

Lemma Drones_Create_serial_witness :
  let d := drone_at "delta" "SER-1" 2 2 None DroneStatusFixed in
  match DroneRepository.Create d fleet_db with
  | (db', inl e) =>
      db' = fleet_db /\ e = ErrUnique
      /\ exists k r, drones fleet_db !! k = Some r
                     /\ Drone.SerialNumber r = Drone.SerialNumber d
  | (db', inr dr) =>
      ~ (exists k r, drones fleet_db !! k = Some r
                     /\ Drone.SerialNumber r = Drone.SerialNumber d)
      /\ Drone.cols dr = d /\ drones fleet_db !! Drone.ID dr = None
      /\ drones db' = <[Drone.ID dr := d]> (drones fleet_db)
      /\ orders db' = orders fleet_db
      /\ DroneRepository.GetBySerial (Drone.SerialNumber d) db' = (db', inr (Some dr))
  end.
Proof.
  exact (Drones_Create_serial fleet_db (drone_at "delta" "SER-1" 2 2 None DroneStatusFixed)
           eq_refl eq_refl).
Defined.

(** ** Deleting an order *)

(** X17. When the statement runs, [Delete] of an order removes its row and,
    the foreign key of drones.assigned_job being ON DELETE SET NULL, leaves
    no drone assigned to it: a drone that held the order has no assigned
    job afterwards, every other drone row is as it was, and
    [GetByOrderID] finds no drone for the order. *)
Theorem Orders_Delete_unassigns (db : DB) (id : Z) :
  no_faults db ->
  let after := OrderRepository.Delete id db in
  after.2 = inr tt
  /\ orders after.1 = delete id (orders db)
  /\ (forall k r, drones db !! k = Some r ->
        drones after.1 !! k
        = Some (if bool_decide (Drone.AssignedJob r = Some id)
                then Drone.with_AssignedJob None r else r))
  /\ (forall k r, drones after.1 !! k = Some r -> Drone.AssignedJob r <> Some id)
  /\ DroneRepository.GetByOrderID id after.1 = (after.1, inr None).
Proof.
  intros Hf after.
  assert (Hafter : exists db', after = (db', inr tt) /\ no_faults db'
            /\ orders db' = delete id (orders db)
            /\ drones db' = (fun d => if bool_decide (Drone.AssignedJob d = Some id)
                                      then Drone.with_AssignedJob None d else d)
                            <$> drones db).
  { subst after. unfold OrderRepository.Delete. rewrite (exec_no_faults _ _ Hf).
    eexists. split; [reflexivity |]. split; [exact Hf |]. split; reflexivity. }
  destruct Hafter as (db' & -> & Hf' & Hos & Hds). cbn [fst snd].
  assert (Hnone : forall k r, drones db' !! k = Some r -> Drone.AssignedJob r <> Some id).
  { intros k r. rewrite Hds, lookup_fmap.
    destruct (drones db !! k) as [r0 |]; [| discriminate]. cbn. intros [= <-].
    destruct (bool_decide_reflect (Drone.AssignedJob r0 = Some id)); [discriminate | assumption]. }
  split; [reflexivity |]. split; [exact Hos |]. split; [| split; [exact Hnone |]].
  - intros k r Hk. now rewrite Hds, lookup_fmap, Hk.
  - unfold DroneRepository.GetByOrderID. rewrite (query_no_faults _ _ Hf'). do 2 f_equal.
    destruct (DroneRepository.first_row _ _) as [[k r] |] eqn:Hfirst; [| reflexivity].
    apply first_row_Some in Hfirst as [Hk Hj]. cbn in Hk, Hj.
    apply bool_decide_eq_true in Hj. now contradiction (Hnone k r Hk).
Qed.

Lemma Orders_Delete_unassigns_witness :
  let after := OrderRepository.Delete 2 flight_db in
  drones after.1 !! 1 = Some (drone_at "alpha" "SER-1" 0.5 0.5 None DroneStatusFixed)
  /\ DroneRepository.GetByOrderID 2 after.1 = (after.1, inr None).
Proof.
  destruct (Orders_Delete_unassigns flight_db 2 eq_refl) as (_ & _ & Hd & _ & Hg).
  split; [| exact Hg].
  exact (Hd 1 (drone_at "alpha" "SER-1" 0.5 0.5 (Some 2) DroneStatusFixed) eq_refl).
Defined.

(** ** A user's orders, newest first *)

Lemma newest_first_iff a b :
  OrderRepository.newest_first a b <->
  String.compare (Order.PlacementAt b.2) (Order.PlacementAt a.2) = Lt
  \/ (Order.PlacementAt a.2 = Order.PlacementAt b.2 /\ b.1 <= a.1).
Proof.
  unfold OrderRepository.newest_first.
  rewrite (String.compare_antisym (Order.PlacementAt b.2) (Order.PlacementAt a.2)).
  destruct (String.compare (Order.PlacementAt a.2) (Order.PlacementAt b.2)) eqn:E;
    cbn [CompOpp].
  - apply String.compare_eq_iff in E. split; [auto |].
    intros [H | [_ H]]; [discriminate | exact H].
  - split; [tauto |]. intros [H | [H _]]; [discriminate |].
    rewrite H, string_compare_refl in E. discriminate.
  - split; [intros _; now left | intros _; exact I].
Qed.

#[global] Instance newest_first_trans : Transitive OrderRepository.newest_first.
Proof.
  intros a b c. rewrite !newest_first_iff.
  intros [L1 | (P1 & I1)] [L2 | (P2 & I2)].
  - left. exact (string_compare_lt_trans _ _ _ L2 L1).
  - left. now rewrite <- P2.
  - left. now rewrite P1.
  - right. split; [congruence | lia].
Qed.

#[global] Instance newest_first_total : Total OrderRepository.newest_first.
Proof.
  intros a b. rewrite !newest_first_iff.
  destruct (String.compare (Order.PlacementAt a.2) (Order.PlacementAt b.2)) eqn:E.
  - apply String.compare_eq_iff in E.
    destruct (Z.le_ge_cases a.1 b.1); [right | left]; right; split; auto; lia.
  - right. now left.
  - left. left. rewrite String.compare_antisym, E. reflexivity.
Qed.


Lemma NoDup_fst_filter {R} (p : Z * R -> bool) (l : list (Z * R)) :
  NoDup l.*1 -> NoDup (List.filter p l).*1.
Proof.
  induction l as [| x l IH]; cbn; [auto |].
  rewrite NoDup_cons. intros [Hx Hl].
  destruct (p x); cbn; [| auto].
  apply NoDup_cons. split; [| auto].
  intros Hin. apply Hx. apply list_elem_of_fmap in Hin as (y & Hy & Hin).
  apply list_elem_of_fmap. exists y. split; [exact Hy |].
  apply list_elem_of_In in Hin. apply filter_In in Hin as [Hin _].
  now apply list_elem_of_In.
Qed.

Lemma StronglySorted_map {A B} (R : relation A) (S : relation B) (f : A -> B) l :
  (forall a b, R a b -> S (f a) (f b)) ->
  StronglySorted R l -> StronglySorted S (map f l).
Proof.
  intros HRS. induction 1 as [| a l Hs IH Hall]; cbn; constructor; [exact IH |].
  rewrite Forall_forall in Hall. apply Forall_forall. intros y Hy.
  apply list_elem_of_fmap in Hy as (x & -> & Hx). apply HRS, Hall, Hx.
Qed.

(** X18. When the query runs, [ListByUserID u] returns exactly the orders
    submitted by [u], each once, sorted by placement date, newest first, and
    by descending id among orders placed at the same time;
    [GetByUserID u] returns the first of them, and no order exactly when the
    user has none. *)
Theorem ListByUserID_newest_first (db : DB) (u : Z) :
  no_faults db ->
  let newer (a b : Order.t) :=
    String.compare (Order.PlacementAt b) (Order.PlacementAt a) = Lt
    \/ (Order.PlacementAt a = Order.PlacementAt b /\ Order.ID b <= Order.ID a) in
  exists l,
    OrderRepository.ListByUserID u db = (db, inr l)
    /\ (forall o, In o l <-> orders db !! Order.ID o = Some (Order.cols o)
                             /\ Order.SubmittedBy o = u)
    /\ NoDup (map Order.ID l)
    /\ StronglySorted newer l
    /\ OrderRepository.GetByUserID u db = (db, inr (head l)).
Proof.
  intros Hf newer.
  unfold OrderRepository.ListByUserID, OrderRepository.GetByUserID.
  rewrite !(query_no_faults _ _ Hf).
  set (rows := List.filter (fun kv => bool_decide (Order.SubmittedBy kv.2 = u))
                 (map_to_list (orders db))).
  pose proof (merge_sort_Permutation OrderRepository.newest_first rows) as Hperm.
  pose proof (StronglySorted_merge_sort OrderRepository.newest_first rows) as Hsorted.
  set (sorted := merge_sort OrderRepository.newest_first rows) in *.
  eexists. split; [reflexivity |]. split; [| split; [| split]].
  - intros [i x]. rewrite in_map_iff. cbn [Order.ID Order.cols].
    split.
    + intros ([k y] & [= <- <-] & Hin).
      apply list_elem_of_In in Hin. rewrite Hperm in Hin.
      apply list_elem_of_In, filter_In in Hin as [Hin Hu].
      apply list_elem_of_In, elem_of_map_to_list in Hin.
      apply bool_decide_eq_true in Hu. auto.
    + intros [Hrow Hu]. exists (i, x). split; [reflexivity |].
      apply list_elem_of_In. rewrite Hperm. apply list_elem_of_In, filter_In.
      split; [now apply list_elem_of_In, elem_of_map_to_list |].
      now apply bool_decide_eq_true.
  - rewrite map_map. cbn [Order.ID].
    change (map (fun x : Z * Order.row => x.1) sorted) with (sorted.*1).
    rewrite Hperm. apply NoDup_fst_filter, NoDup_fst_map_to_list.
  - apply (StronglySorted_map OrderRepository.newest_first); [| exact Hsorted].
    intros a b Hab. apply newest_first_iff in Hab. exact Hab.
  - destruct sorted as [| [i x] rest]; reflexivity.
Qed.

Lemma ListByUserID_newest_first_witness :
  exists l,
    OrderRepository.ListByUserID 1 fleet_db = (fleet_db, inr l)
    /\ OrderRepository.GetByUserID 1 fleet_db = (fleet_db, inr (head l)).
Proof.
  destruct (ListByUserID_newest_first fleet_db 1 eq_refl) as (l & Hl & _ & _ & _ & Hg).
  exists l. split; assumption.
Defined.

Example GetByUserID_fleet :
  (OrderRepository.GetByUserID 1 fleet_db).2
  = inr (Some (Order.mk 3 (order_at 0 0 OrderStatusPlaced "2024-01-02 03:04:07" (Some "1")))).
Proof. vm_compute. reflexivity. Qed.

(** ** Assigned jobs refer to orders *)

Lemma assignments_refer_faults : on_tables assignments_refer.
Proof. intros db f H. exact H. Qed.

(** A statement that keeps the drones and every order id keeps the
    property. *)
Lemma preserves_refer_orders {A} (stmt : DB -> dberr + (DB * A)) :
  (forall db db' a, stmt db = inr (db', a) ->
     drones db' = drones db
     /\ forall o, is_Some (orders db !! o) -> is_Some (orders db' !! o)) ->
  preserves assignments_refer (exec stmt).
Proof.
  intros Hkeep. apply preserves_exec; [apply assignments_refer_faults |].
  intros db db' a H Hs k d o Hk Hj.
  destruct (Hkeep db db' a Hs) as [Hd Ho]. rewrite Hd in Hk. eauto.
Qed.

Lemma is_Some_alter {R} (f : R -> R) (id : Z) (t : gmap Z R) o :
  is_Some (t !! o) -> is_Some (alter f id t !! o).
Proof.
  rewrite lookup_alter. destruct (decide (id = o)) as [-> | _]; [| auto].
  now rewrite fmap_is_Some.
Qed.

Lemma is_Some_insert {R} (r : R) (id : Z) (t : gmap Z R) o :
  is_Some (t !! o) -> is_Some (<[id := r]> t !! o).
Proof.
  rewrite lookup_insert. destruct (decide (id = o)); [eauto | auto].
Qed.

Ltac keeps_orders :=
  apply preserves_refer_orders;
  let Hs := fresh "Hs" in
  intros ? ? ? Hs;
  repeat match type of Hs with
         | context [match ?x with _ => _ end] => destruct x
         end;
  try discriminate; injection Hs as <-; split; [reflexivity |];
  cbn [orders with_orders]; auto using is_Some_alter, is_Some_insert.

Lemma Users_Create_refer n : preserves assignments_refer (UserRepository.Create n).
Proof. keeps_orders. Qed.

Lemma Users_UpdateRole_refer n r :
  preserves assignments_refer (UserRepository.UpdateRoleByUsername n r).
Proof. keeps_orders. Qed.

Lemma Orders_UpdateStatus_refer id st :
  preserves assignments_refer (OrderRepository.UpdateStatus id st).
Proof. keeps_orders. Qed.

Lemma Orders_UpdatePickupLocation_refer id lat lng :
  preserves assignments_refer (OrderRepository.UpdatePickupLocation id lat lng).
Proof. keeps_orders. Qed.

Lemma Orders_UpdateLocations_refer id a b c d :
  preserves assignments_refer (OrderRepository.UpdateLocations id a b c d).
Proof. keeps_orders. Qed.

Lemma Orders_AppendDronePath_refer o d :
  preserves assignments_refer (OrderRepository.AppendDronePath o d).
Proof. keeps_orders. Qed.

Lemma Orders_Create_refer o : preserves assignments_refer (OrderRepository.Create o).
Proof.
  unfold OrderRepository.Create. apply preserves_bind.
  - keeps_orders.
  - intros id. apply preserves_bind.
    + apply preserves_query, assignments_refer_faults.
    + intros [o2 |]; [apply preserves_ret | apply preserves_fail].
Qed.

(** A statement that rewrites one drone row without giving it a job, or
    removes it, keeps the property. *)
Lemma Drones_alter_refer f id :
  (forall r, Drone.AssignedJob (f r) = Drone.AssignedJob r
             \/ Drone.AssignedJob (f r) = None) ->
  preserves assignments_refer
    (exec (fun db => inr (with_drones (alter f id (drones db)) db, tt))).
Proof.
  intros Hf. apply preserves_exec; [apply assignments_refer_faults |].
  intros db db' [] H [= <-] k d o Hk Hj. cbn [drones orders with_drones] in *.
  rewrite lookup_alter in Hk. destruct (decide (id = k)) as [<- | Hne].
  - destruct (drones db !! id) as [r |] eqn:Hr; [| discriminate].
    injection Hk as <-. destruct (Hf r) as [E | E]; rewrite E in Hj; [| discriminate].
    exact (H id r o Hr Hj).
  - exact (H k d o Hk Hj).
Qed.

Lemma Drones_UpdateLocationAndSpeed_refer id a b c :
  preserves assignments_refer (DroneRepository.UpdateLocationAndSpeed id a b c).
Proof. apply Drones_alter_refer. intros r. now left. Qed.

Lemma Drones_UpdateStatus_refer id st :
  preserves assignments_refer (DroneRepository.UpdateStatus id st).
Proof. apply Drones_alter_refer. intros r. now left. Qed.

Lemma Drones_UnassignJob_refer id :
  preserves assignments_refer (DroneRepository.UnassignJob id).
Proof. apply Drones_alter_refer. intros r. now right. Qed.

Lemma Drones_AssignJob_refer id o :
  preserves assignments_refer (DroneRepository.AssignJob id o).
Proof.
  apply preserves_exec; [apply assignments_refer_faults |].
  intros db db' [] H Hs.
  destruct (drones db !! id) as [r |] eqn:Hr; [| now injection Hs as <-].
  destruct (DroneRepository.job_taken _ _ _); [discriminate |].
  destruct (bool_decide_reflect (is_Some (orders db !! o))) as [Ho |]; [| discriminate].
  injection Hs as <-. intros k d o' Hk Hj. cbn [drones orders with_drones] in *.
  rewrite lookup_alter in Hk. destruct (decide (id = k)) as [<- | Hne].
  - rewrite Hr in Hk. injection Hk as <-. cbn in Hj. now injection Hj as <-.
  - exact (H k d o' Hk Hj).
Qed.

Lemma Drones_Create_refer d : preserves assignments_refer (DroneRepository.Create d).
Proof.
  apply preserves_exec; [apply assignments_refer_faults |].
  intros db db' a H Hs. cbv zeta in Hs.
  destruct (DroneRepository.serial_taken _ _); [discriminate |].
  assert (Hins : forall id, (forall o, Drone.AssignedJob d = Some o ->
                                       is_Some (orders db !! o)) ->
            forall k d' o, <[id := d]> (drones db) !! k = Some d' ->
                           Drone.AssignedJob d' = Some o -> is_Some (orders db !! o)).
  { intros id Hd k d' o Hk Hj. rewrite lookup_insert in Hk.
    destruct (decide (id = k)); [injection Hk as <-; auto | exact (H k d' o Hk Hj)]. }
  destruct (Drone.AssignedJob d) as [o |] eqn:Hj.
  - destruct (DroneRepository.job_taken _ _ _); [discriminate |].
    destruct (bool_decide_reflect (is_Some (orders db !! o))) as [Ho |]; [| discriminate].
    injection Hs as <- _. refine (Hins _ _). now intros o' [= <-].
  - injection Hs as <- _. refine (Hins _ _). discriminate.
Qed.

Lemma Orders_Delete_refer id : preserves assignments_refer (OrderRepository.Delete id).
Proof.
  apply preserves_exec; [apply assignments_refer_faults |].
  intros db db' [] H [= <-] k d o Hk Hj. cbn [drones orders] in *.
  rewrite lookup_fmap in Hk.
  destruct (drones db !! k) as [r |] eqn:Hr; [| discriminate]. injection Hk as <-.
  destruct (bool_decide_reflect (Drone.AssignedJob r = Some id)) as [E | E];
    [discriminate |].
  rewrite lookup_delete_ne by congruence. exact (H k r o Hr Hj).
Qed.

Lemma Drones_Delete_refer id : preserves assignments_refer (DroneRepository.Delete id).
Proof.
  apply preserves_exec; [apply assignments_refer_faults |].
  intros db db' [] H [= <-] k d o Hk Hj. cbn [drones orders with_drones] in *.
  apply lookup_delete_Some in Hk as [_ Hk]. exact (H k d o Hk Hj).
Qed.

Lemma Users_Delete_refer id : preserves assignments_refer (UserRepository.Delete id).
Proof.
  apply preserves_exec; [apply assignments_refer_faults |].
  intros db db' [] H Hs. destruct (bool_decide _); [| now injection Hs as <-].
  cbv zeta in Hs. injection Hs as <-. intros k d o Hk Hj. cbn [drones orders] in *.
  rewrite lookup_fmap in Hk.
  destruct (drones db !! k) as [r |] eqn:Hr; [| discriminate]. injection Hk as <-.
  assert (Hjob : Drone.AssignedJob r = Some o
                 /\ Order.SubmittedBy <$> orders db !! o <> Some id).
  { destruct (Drone.AssignedJob r) as [job |] eqn:Hjr; [| now rewrite Hjr in Hj].
    destruct (bool_decide_reflect (Order.SubmittedBy <$> orders db !! job = Some id))
      as [E | E]; [discriminate |].
    rewrite Hjr in Hj. injection Hj as <-. now split. }
  destruct Hjob as [Hjr Hkeep].
  destruct (H k r o Hr Hjr) as [x Hx]. exists x.
  apply map_lookup_filter_Some. split; [exact Hx |]. cbn [snd].
  intros E. apply Hkeep. now rewrite Hx, <- E.
Qed.

Lemma Orders_Update_refer o : preserves assignments_refer (OrderRepository.Update o).
Proof.
  destruct o as [o |]; [| apply preserves_fail]. cbn [OrderRepository.Update].
  keeps_orders.
Qed.

#[local] Hint Resolve assignments_refer_faults
  Users_Delete_refer Orders_Update_refer
  Users_Create_refer Users_UpdateRole_refer
  Orders_UpdateStatus_refer Orders_UpdatePickupLocation_refer
  Orders_UpdateLocations_refer Orders_AppendDronePath_refer Orders_Create_refer
  Drones_UpdateLocationAndSpeed_refer Drones_UpdateStatus_refer
  Drones_UnassignJob_refer Drones_AssignJob_refer Drones_Create_refer
  Orders_Delete_refer Drones_Delete_refer : preserve.

Lemma serve_refer {cases : unicode.CaseRanges} m c db : assignments_refer db -> assignments_refer (serve m c db).1.
Proof.
  intros H.
  destruct c; cbn [serve outcome fst];
    match goal with
    | |- assignments_refer (?h db).1 =>
        revert db H; change (preserves assignments_refer h)
    end;
    unfold_handlers; preserve.
Qed.

Lemma call_refer c db : assignments_refer db -> assignments_refer (call c db).1.
Proof.
  intros H.
  destruct c; cbn [call outcome fst];
    match goal with
    | |- assignments_refer (?h db).1 =>
        revert db H; change (preserves assignments_refer h)
    end;
    unfold_handlers; preserve.
Qed.

Lemma call_more_refer c db : assignments_refer db -> assignments_refer (call_more c db).1.
Proof.
  intros H.
  destruct c; cbn [call_more outcome fst];
    match goal with
    | |- assignments_refer (?h db).1 =>
        revert db H; change (preserves assignments_refer h)
    end;
    unfold OrderRepository.GetByUserID, OrderRepository.ListByUserID,
      OrderRepository.GetAssignedOrderForDrone, OrderRepository.AddDroneToPath,
      OrderRepository.FindByAssignedDrone, OrderRepository.UpdateAssignedDrone,
      OrderRepository.Withdraw, DroneRepository.GetByOrderID;
    preserve.
Qed.

(** X19. In every state of the service, reached through the handlers and
    through every writing method of the three repositories, deletions
    included, the assigned job of a drone is the id of an order of the
    table: [AssignJob] and [Create] are checked by the foreign key, and the
    deletion of an order, or of the user who submitted it, clears the
    assignments to it. So a drone that
    calls [GrabOrder], [CompleteOrder], [MarkBroken] or [GetAssignedOrder]
    with an assigned job finds the order, and the branches of these
    handlers for a missing order are not taken. *)
Theorem assigned_orders_exist {cases : unicode.CaseRanges}
    (m : libm) (db db1 : DB) (ctx : auth.Context) (dr : Drone.t) (job : Z) :
  reachable_all m db ->
  assignments_refer db
  /\ (resolved db ctx dr db1 -> Drone.AssignedJob dr = Some job ->
      exists o, orders db !! job = Some o).
Proof.
  intros Hreach.
  assert (Hrefer : assignments_refer db).
  { induction Hreach as [| db t f _ IH | db c _ IH | db c _ IH | db c _ IH].
    - intros k d o Hk. cbn in Hk. rewrite lookup_empty in Hk. discriminate.
    - exact IH.
    - now apply call_refer.
    - now apply call_more_refer.
    - now apply serve_refer. }
  split; [exact Hrefer |].
  intros Hres Hjob. pose proof (resolved_row _ _ _ _ Hres) as Hrow.
  exact (Hrefer _ _ _ Hrow Hjob).
Qed.

Lemma assigned_orders_exist_witness :
  let seeded :=
    (call (Drones_Create (drone_at "alpha" "SER-1" 0 0 None DroneStatusFixed))
       (call (Orders_Create (order_at 0 0 OrderStatusPlaced "" None))
          (call (Users_Create "u") empty_db).1).1).1 in
  let db := (serve small_angle (CallReserveOrder (as_drone "SER-1")) seeded).1 in
  drones db !! 1 = Some (drone_at "alpha" "SER-1" 0 0 (Some 1) DroneStatusFixed)
  /\ assignments_refer db
  /\ exists o, orders db !! 1 = Some o.
Proof.
  cbv zeta.
  destruct (assigned_orders_exist small_angle
              (serve small_angle (CallReserveOrder (as_drone "SER-1"))
                 (call (Drones_Create (drone_at "alpha" "SER-1" 0 0 None DroneStatusFixed))
                    (call (Orders_Create (order_at 0 0 OrderStatusPlaced "" None))
                       (call (Users_Create "u") empty_db).1).1).1).1
              (serve small_angle (CallReserveOrder (as_drone "SER-1"))
                 (call (Drones_Create (drone_at "alpha" "SER-1" 0 0 None DroneStatusFixed))
                    (call (Orders_Create (order_at 0 0 OrderStatusPlaced "" None))
                       (call (Users_Create "u") empty_db).1).1).1).1
              (as_drone "SER-1")
              (Drone.mk 1 (drone_at "alpha" "SER-1" 0 0 (Some 1) DroneStatusFixed)) 1)
    as [Hrefer Hfind].
  { apply reach_all_rpc. do 3 apply reach_all_repo. apply reach_all_open. }
  split; [vm_compute; reflexivity |]. split; [exact Hrefer |].
  apply Hfind; [| reflexivity].
  exists (auth.mkPrincipal "SER-1" "drone"). repeat split.
Defined.

(** ** The configuration *)

(** X20. [Load] fails exactly when JWT_SECRET is unset or empty. When it
    succeeds, [LoadWithDefaults], which is what the server starts with,
    returns the same configuration; when it fails, [LoadWithDefaults] still
    succeeds, with the fixed development secret if the variable is unset
    and with an empty secret if the variable is set to the empty string. An
    unset DB_PATH or GRPC_ADDRESS reads as "app.db" and ":50051", and a
    set one, empty or not, as its value. *)
Theorem Load_requires_secret (env : config.Environ) :
  let secret := env !! "JWT_SECRET" in
  ((exists msg, config.Load env = inl msg) <-> secret = None \/ secret = Some "")
  /\ (forall cfg, config.Load env = inr cfg ->
        config.LoadWithDefaults env = inr cfg
        /\ secret = Some (config.Auth_JWTSecret cfg))
  /\ (exists cfg, config.LoadWithDefaults env = inr cfg
        /\ config.Auth_JWTSecret cfg = default "dev-secret-change-me" secret
        /\ config.Database_Path cfg = default "app.db" (env !! "DB_PATH")
        /\ config.GRPC_Address cfg = default ":50051" (env !! "GRPC_ADDRESS")).
Proof.
  cbv zeta. unfold config.Load, config.LoadWithDefaults, config.getEnv.
  cbn [config.Auth_JWTSecret config.Database_Path config.GRPC_Address].
  destruct (env !! "JWT_SECRET") as [s |]; cbn [default].
  - destruct (String.eqb_spec s "") as [-> | Hs].
    + split; [split; eauto |]. split; [discriminate |]. eexists. repeat split.
    + split.
      * split; [intros [msg [=]] | intros [[=] | [= ->]]; now contradiction Hs].
      * split; [intros cfg [= <-]; split; reflexivity |]. eexists. repeat split.
  - split; [split; eauto |]. split; [discriminate |]. eexists. repeat split.
Qed.

(** ** Listing drones page by page *)

#[global] Instance key_le_trans {R} : Transitive (@key_le R).
Proof. intros a b c. unfold key_le. lia. Qed.

#[global] Instance key_le_total {R} : Total (@key_le R).
Proof. intros a b. unfold key_le. lia. Qed.

Lemma StronglySorted_strict {R} (l : list (Z * R)) :
  StronglySorted key_le l -> NoDup l.*1 -> StronglySorted key_lt l.
Proof.
  induction 1 as [| a l Hs IH Hall]; cbn; [constructor |].
  rewrite NoDup_cons. intros [Ha Hl]. constructor; [auto |].
  rewrite Forall_forall in Hall. apply Forall_forall. intros b Hb.
  specialize (Hall b Hb). unfold key_le in Hall. unfold key_lt.
  assert (a.1 <> b.1); [| lia].
  intros E. apply Ha. rewrite E. apply list_elem_of_fmap. eauto.
Qed.

Lemma StronglySorted_filter {A} (R : relation A) (p : A -> bool) l :
  StronglySorted R l -> StronglySorted R (List.filter p l).
Proof.
  induction 1 as [| a l Hs IH Hall]; cbn; [constructor |].
  destruct (p a); [| exact IH]. constructor; [exact IH |].
  rewrite Forall_forall in Hall. apply Forall_forall. intros b Hb.
  apply Hall. apply list_elem_of_In in Hb. apply filter_In in Hb as [Hb _].
  now apply list_elem_of_In.
Qed.

Lemma scan_strictly_sorted {R} (t : gmap Z R) : StronglySorted key_lt (scan t).
Proof.
  apply StronglySorted_strict.
  - apply StronglySorted_merge_sort; apply _.
  - unfold scan. rewrite merge_sort_Permutation. apply NoDup_fst_map_to_list.
Qed.

Lemma pageSize_bounds n : 1 <= DroneRepository.pageSize n <= 100.
Proof.
  unfold DroneRepository.pageSize.
  destruct (Z.leb_spec n 0); [lia |]. destruct (Z.ltb_spec 100 n); lia.
Qed.

(** The rows that [ListAdmin] selects from, and the page it cuts. *)
Lemma ListAdmin_rows like p (ds : gmap Z Drone.row) :
  let rows := List.filter (DroneRepository.listed like p) (scan ds) in
  StronglySorted key_lt rows
  /\ forall kv, kv ∈ rows <-> ds !! kv.1 = Some kv.2
                             /\ DroneRepository.listed like p kv = true.
Proof.
  intros rows. split.
  - apply StronglySorted_filter, scan_strictly_sorted.
  - intros [k r]. subst rows. rewrite list_elem_of_In, filter_In, scan_lookup. tauto.
Qed.

Lemma page_of_sorted {A} (R : relation A) (n : nat) (l : list A) :
  StronglySorted R l ->
  StronglySorted R (take n l)
  /\ (forall x, x ∈ take n l -> x ∈ l)
  /\ (forall x, x ∈ l ->
        x ∈ take n l \/ (length (take n l) = n /\ forall y, y ∈ take n l -> R y x)).
Proof.
  intros Hs. rewrite <- (take_drop n l) in Hs at 1.
  split; [exact (StronglySorted_app_1_l _ _ _ Hs) |]. split.
  - intros x Hx. rewrite <- (take_drop n l). apply elem_of_app. now left.
  - intros x Hx. rewrite <- (take_drop n l) in Hx. apply elem_of_app in Hx as [Hx | Hx].
    + now left.
    + right. split.
      * apply length_take_le.
        destruct (le_lt_dec n (length l)) as [Hle | Hlt]; [exact Hle |].
        rewrite drop_ge in Hx by lia. inversion Hx.
      * intros y Hy. exact (StronglySorted_app_1_elem_of _ _ _ _ _ Hs Hy Hx).
Qed.

(** [ListAdmin] when the query runs. *)
Lemma ListAdmin_first_rows
    (like : string -> string -> bool) (p : DroneRepository.ListDronesAdminParams)
    (db : DB) :
  no_faults db ->
  let n := Z.to_nat (DroneRepository.pageSize (DroneRepository.PageSize p)) in
  exists l,
    DroneRepository.ListAdmin like p db = (db, inr l)
    /\ (1 <= n <= 100)%nat /\ (length l <= n)%nat
    /\ (forall d, In d l ->
          drones db !! Drone.ID d = Some (Drone.cols d)
          /\ DroneRepository.listed like p (Drone.ID d, Drone.cols d) = true)
    /\ StronglySorted (fun a b => Drone.ID a < Drone.ID b) l
    /\ (forall k r, drones db !! k = Some r ->
          DroneRepository.listed like p (k, r) = true ->
          In (Drone.mk k r) l
          \/ (length l = n /\ forall d, In d l -> Drone.ID d < k)).
Proof.
  intros Hf n. unfold DroneRepository.ListAdmin.
  rewrite (query_no_faults _ _ Hf). fold n.
  destruct (ListAdmin_rows like p (drones db)) as [Hsorted Hrows].
  set (rows := List.filter (DroneRepository.listed like p) (scan (drones db))) in *.
  destruct (page_of_sorted key_lt n rows Hsorted) as (Hpage & Hsub & Hfirst).
  pose proof (pageSize_bounds (DroneRepository.PageSize p)) as Hn.
  eexists. split; [reflexivity |]. split; [lia |].
  assert (Hin : forall d, In d (map (fun kv => Drone.mk kv.1 kv.2) (take n rows))
                          <-> (Drone.ID d, Drone.cols d) ∈ take n rows).
  { intros [k r]. rewrite in_map_iff. cbn [Drone.ID Drone.cols]. split.
    - intros ([k' r'] & [= <- <-] & Hkv). now apply list_elem_of_In.
    - intros Hkv. exists (k, r). split; [reflexivity | now apply list_elem_of_In]. }
  split; [| split; [| split]].
  - rewrite length_map, length_take. lia.
  - intros d Hd. apply Hin, Hsub, Hrows in Hd. exact Hd.
  - apply (StronglySorted_map key_lt); [| exact Hpage]. now intros a b.
  - intros k r Hk Hp. rewrite length_map.
    destruct (Hfirst (k, r)) as [Hon | [Hfull Hbefore]].
    + apply Hrows. split; assumption.
    + left. now apply Hin.
    + right. split; [exact Hfull |]. intros d Hd. apply Hin in Hd.
      exact (Hbefore _ Hd).
Qed.

(** X21. When the query runs, [ListAdmin] returns at most [n] drones, [n]
    being the page size brought into 1..100 (20 for a size of 0 or less):
    rows of the table that pass the filters and, for a cursor above 0, have
    an id above the cursor, in strictly ascending order of id; and they are
    the first such rows: a row that passes and is not on the page has an id
    above every id of the page, and the page is full then. *)
Theorem ListAdmin_page
    (like : string -> string -> bool) (p : DroneRepository.ListDronesAdminParams)
    (db : DB) :
  no_faults db ->
  let n := Z.to_nat (DroneRepository.pageSize (DroneRepository.PageSize p)) in
  exists l,
    DroneRepository.ListAdmin like p db = (db, inr l)
    /\ (1 <= n <= 100)%nat /\ (length l <= n)%nat
    /\ (forall d, In d l ->
          drones db !! Drone.ID d = Some (Drone.cols d)
          /\ DroneRepository.listed like p (Drone.ID d, Drone.cols d) = true)
    /\ StronglySorted (fun a b => Drone.ID a < Drone.ID b) l
    /\ (forall k r, drones db !! k = Some r ->
          DroneRepository.listed like p (k, r) = true ->
          In (Drone.mk k r) l
          \/ (length l = n /\ forall d, In d l -> Drone.ID d < k)).
Proof. exact (ListAdmin_first_rows like p db). Qed.

Lemma ListAdmin_page_witness :
  let p := DroneRepository.mkListDronesAdminParams None None (Some true) None 2 1 in
  exists l,
    DroneRepository.ListAdmin (fun _ _ => true) p fleet_db = (fleet_db, inr l)
    /\ (length l <= 2)%nat
    /\ StronglySorted (fun a b => Drone.ID a < Drone.ID b) l.
Proof.
  destruct (ListAdmin_page (fun _ _ => true)
              (DroneRepository.mkListDronesAdminParams None None (Some true) None 2 1)
              fleet_db eq_refl) as (l & Hl & _ & Hlen & _ & Hs & _).
  exists l. repeat split; assumption.
Defined.

(** *** Page tokens of the drone listing *)

Lemma digits_prefix_uint d :
  fmt.digits_prefix (NilEmpty.string_of_uint d) = NilEmpty.string_of_uint d.
Proof.
  induction d; cbn [NilEmpty.string_of_uint fmt.digits_prefix]; [reflexivity | ..];
    match goal with
    | |- context [fmt.is_digit ?c] => change (fmt.is_digit c) with true
    end; cbv iota; congruence.
Qed.

Lemma digit_plain a :
  fmt.is_digit a = true ->
  strings.is_space a = false
  /\ (forall b, strings.space2 a b = false /\ strings.space2 b a = false)
  /\ (forall b c, strings.space3 a b c = false /\ strings.space3 c b a = false)
  /\ a <> "+"%char /\ a <> "-"%char.
Proof.
  unfold fmt.is_digit, strings.is_space, strings.space2, strings.space3.
  intros Hd. apply andb_true_iff in Hd as [H1 H2].
  apply N.leb_le in H1, H2.
  assert (Hne : forall k, (k < 48 \/ 57 < k)%N -> (N_of_ascii a =? k)%N = false)
    by (intros k Hk; apply N.eqb_neq; lia).
  split; [| split; [| split; [| split]]].
  - rewrite (Hne 32%N) by lia. rewrite orb_false_r.
    apply andb_false_iff. right. apply N.leb_gt. lia.
  - intros b. rewrite (Hne 194%N) by lia. split; [reflexivity |].
    rewrite (Hne 133%N), (Hne 160%N) by lia. apply andb_false_r.
  - intros b c. rewrite (Hne 225%N), (Hne 226%N), (Hne 227%N) by lia.
    split; [reflexivity |].
    rewrite (Hne 128%N), (Hne 159%N), (Hne 168%N), (Hne 169%N), (Hne 175%N) by lia.
    assert (E : (128 <=? N_of_ascii a)%N = false) by (apply N.leb_gt; lia).
    rewrite E. cbn [andb orb]. now rewrite !andb_false_r.
  - intros ->. cbn in H1. lia.
  - intros ->. cbn in H1. lia.
Qed.

Lemma digits_prefix_all s :
  fmt.digits_prefix s = s ->
  Forall (fun c => fmt.is_digit c = true) (list_ascii_of_string s).
Proof.
  induction s as [| c s IH]; cbn; [constructor |].
  destruct (fmt.is_digit c) eqn:Hc; [| discriminate].
  intros [= E]. constructor; auto.
Qed.

(** Decimal digits are not trimmed. *)
Lemma TrimSpace_digits s :
  fmt.digits_prefix s = s -> strings.TrimSpace s = s.
Proof.
  intros Hs. unfold strings.TrimSpace.
  assert (Hleft : strings.TrimLeftSpace s = s).
  { destruct s as [| a s1]; [reflexivity |]. cbn [fmt.digits_prefix] in Hs.
    destruct (fmt.is_digit a) eqn:Ha; [| discriminate].
    destruct (digit_plain a Ha) as (E1 & E2 & E3 & _).
    cbn [strings.TrimLeftSpace]. rewrite E1.
    destruct s1 as [| b s2]; [reflexivity |]. rewrite (proj1 (E2 b)).
    destruct s2 as [| c s3]; [reflexivity |]. now rewrite (proj1 (E3 b c)). }
  rewrite Hleft. unfold strings.TrimRightSpace.
  pose proof (digits_prefix_all s Hs) as Hall.
  apply Forall_rev in Hall.
  assert (Hright : strings.trim_reversed (rev (list_ascii_of_string s))
                   = rev (list_ascii_of_string s)).
  { destruct (rev (list_ascii_of_string s)) as [| a l1]; [reflexivity |].
    apply Forall_cons in Hall as [Ha _].
    destruct (digit_plain a Ha) as (E1 & E2 & E3 & _).
    cbn [strings.trim_reversed]. rewrite E1.
    destruct l1 as [| b l2]; [reflexivity |]. rewrite (proj2 (E2 b)).
    destruct l2 as [| c l3]; [reflexivity |]. now rewrite (proj2 (E3 b c)). }
  rewrite Hright, rev_involutive. apply string_of_list_ascii_of_string.
Qed.

Lemma FormatInt_pos p :
  strconv.FormatInt (Z.pos p) = NilEmpty.string_of_uint (Pos.to_uint p).
Proof.
  unfold strconv.FormatInt. cbn [Z.to_int NilZero.string_of_int].
  apply NilZero_string_of_uint_nonnil, DecimalPos.Unsigned.to_uint_nonnil.
Qed.

(** The decimal text of an id above 0 is read back as that id. *)
Lemma page_token_read_back k :
  0 < k < 2 ^ 63 ->
  let t := strings.TrimSpace (strconv.FormatInt k) in
  t <> "" /\ fmt.Sscanf_d t = Some k.
Proof.
  intros Hk. destruct k as [| p | p]; try lia.
  pose proof (ParseInt_FormatInt (Z.pos p)) as Hparse.
  rewrite FormatInt_pos in *.
  pose proof (digits_prefix_uint (Pos.to_uint p)) as Hd.
  cbv zeta. rewrite (TrimSpace_digits _ Hd).
  destruct (NilEmpty.string_of_uint (Pos.to_uint p)) as [| c rest] eqn:Hs.
  { exfalso. apply (DecimalPos.Unsigned.to_uint_nonnil p).
    pose proof (NilEmpty.usu (Pos.to_uint p)) as Hu. rewrite Hs in Hu.
    cbn in Hu. now injection Hu. }
  split; [discriminate |].
  assert (Hc : fmt.is_digit c = true).
  { cbn in Hd. destruct (fmt.is_digit c); [reflexivity | discriminate]. }
  destruct (digit_plain c Hc) as (_ & _ & _ & Hplus & Hminus).
  unfold fmt.Sscanf_d.
  rewrite (proj2 (Ascii.eqb_neq _ _) Hplus), (proj2 (Ascii.eqb_neq _ _) Hminus).
  cbn [orb]. cbv beta iota. rewrite Hd. cbv beta iota.
  rewrite append_nil, Hparse by lia. reflexivity.
Qed.

Lemma last_In {A} (l : list A) (d : A) : l <> [] -> In (List.last l d) l.
Proof.
  intros Hl. rewrite (app_removelast_last d Hl) at 2.
  apply in_or_app. right. now left.
Qed.

(** X22. With the admin gate passed, no statement failing and the ids of the
    table those of an [int64] rowid: [GetDrones] with an empty page token,
    or with the decimal text of a cursor above 0, returns the page that
    [ListAdmin] cuts after that cursor (all of them for the empty token).
    Its next page token is empty when the page is not full, and is otherwise
    the decimal text of the last id of the page, an id above the cursor: the
    token of one call, given to the next, continues the listing where the
    page ended. A token that is not empty once trimmed and does not read as
    a number is an invalid argument. *)
Theorem GetDrones_pages {cases : unicode.CaseRanges}
    (like : string -> string -> bool) (ctx : auth.Context) (p : auth.Principal)
    (db : DB) (req : adminv1.GetDronesRequest) (a : Z) :
  no_faults db -> auth.RequireAdmin ctx db = (db, inr p) ->
  (forall k r, drones db !! k = Some r -> 0 < k < 2 ^ 63) ->
  let invalid t := strings.TrimSpace t <> ""
                   /\ fmt.Sscanf_d (strings.TrimSpace t) = None in
  (invalid (adminv1.GetDrones_PageToken req) ->
   AdminServer.GetDrones like ctx (Some req) db
   = (db, inl (status.Error codes.InvalidArgument "invalid page_token")))
  /\ (0 <= a < 2 ^ 63 ->
      adminv1.GetDrones_PageToken req = (if a =? 0 then "" else strconv.FormatInt a) ->
      let n := DroneRepository.pageSize (adminv1.GetDrones_PageSize req) in
      let st := match adminv1.GetDrones_Status req with
                | Some adminv1.DRONE_STATUS_FIXED => Some DroneStatusFixed
                | Some adminv1.DRONE_STATUS_BROKEN => Some DroneStatusBroken
                | _ => None
                end in
      let params :=
        DroneRepository.mkListDronesAdminParams st
          (adminv1.GetDrones_AssignedOnly req) (adminv1.GetDrones_UnassignedOnly req)
          (AdminServer.strPtr (adminv1.GetDrones_NameOrSerialContains req)) n a in
      exists l,
        DroneRepository.ListAdmin like params db = (db, inr l)
        /\ let next := if Z.of_nat (length l) =? n
                       then List.last (map Drone.ID l) 0 else 0 in
           0 <= next < 2 ^ 63 /\ (next = 0 \/ a < next)
           /\ AdminServer.GetDrones like ctx (Some req) db
              = (db, inr (adminv1.mkGetDronesResponse (map AdminServer.toProtoAdminDrone l)
                            (if next =? 0 then "" else strconv.FormatInt next)))).
Proof.
  intros Hf Hgate Hids invalid. split.
  - intros [Hne Hscan]. unfold AdminServer.GetDrones.
    rewrite (run_bind _ _ _ _ _ Hgate). cbv [default from_option id].
    apply String.eqb_neq in Hne. unfold bind at 1. now rewrite Hne, Hscan.
  - intros Ha Htoken n st params.
    destruct (ListAdmin_first_rows like params db Hf) as (l & Hl & Hn & Hlen & Hin & _).
    exists l. split; [exact Hl |].
    assert (Hlast : l <> [] ->
              0 < List.last (map Drone.ID l) 0 < 2 ^ 63 /\ a < List.last (map Drone.ID l) 0).
    { intros Hne.
      assert (Hmem : In (List.last (map Drone.ID l) 0) (map Drone.ID l)).
      { apply last_In. destruct l; [contradiction | discriminate]. }
      apply in_map_iff in Hmem as (d & <- & Hd).
      destruct (Hin d Hd) as [Hrow Hlisted].
      pose proof (Hids _ _ Hrow) as Hid. split; [exact Hid |].
      unfold DroneRepository.listed in Hlisted.
      apply andb_true_iff in Hlisted as [_ Hcur].
      change (DroneRepository.AfterID params) with a in Hcur.
      change ((Drone.ID d, Drone.cols d).1) with (Drone.ID d) in Hcur || idtac.
      destruct (Z.ltb_spec 0 a); [apply Z.ltb_lt in Hcur |]; lia. }
    assert (Hfull : Z.of_nat (length l) = n -> l <> []).
    { intros E ->. cbn in E. subst n params. cbn [DroneRepository.PageSize] in *.
      pose proof (pageSize_bounds (adminv1.GetDrones_PageSize req)). lia. }
    assert (Htok : (let t := strings.TrimSpace (adminv1.GetDrones_PageToken req) in
                    if String.eqb t "" then ret 0
                    else match fmt.Sscanf_d t with
                         | None => fail (status.Error codes.InvalidArgument
                                           "invalid page_token")
                         | Some v => ret v
                         end) db = (db, inr a)).
    { rewrite Htoken. destruct (Z.eqb_spec a 0) as [-> | Hnz]; [reflexivity |].
      destruct (page_token_read_back a) as [Hne Hscan]; [lia |].
      cbv zeta. apply String.eqb_neq in Hne. now rewrite Hne, Hscan. }
    cbv zeta.
    destruct (Z.eqb_spec (Z.of_nat (length l)) n) as [E | E].
    + destruct (Hlast (Hfull E)) as [Hb Hgt].
      split; [lia |]. split; [now right |].
      unfold AdminServer.GetDrones.
      rewrite (run_bind _ _ _ _ _ Hgate). cbv [default from_option id]. cbv zeta in Htok.
      rewrite (run_bind _ _ _ _ _ Htok).
      rewrite (run_bind _ _ _ _ _ (run_orError _ _ _ _ _ _ Hl)).
      unfold ret. do 3 f_equal. fold n.
      rewrite (proj2 (Z.eqb_eq _ _) E).
      rewrite (proj2 (Z.eqb_neq _ _)) by lia. reflexivity.
    + split; [lia |]. split; [now left |].
      unfold AdminServer.GetDrones.
      rewrite (run_bind _ _ _ _ _ Hgate). cbv [default from_option id]. cbv zeta in Htok.
      rewrite (run_bind _ _ _ _ _ Htok).
      rewrite (run_bind _ _ _ _ _ (run_orError _ _ _ _ _ _ Hl)).
      unfold ret. do 3 f_equal. fold n.
      now rewrite (proj2 (Z.eqb_neq _ _) E).
Qed.

Lemma flight_ids k r : drones flight_db !! k = Some r -> 0 < k < 2 ^ 63.
Proof.
  unfold flight_db. cbn [drones].
  rewrite !lookup_insert_Some, lookup_empty. intuition (try discriminate; lia).
Qed.

Lemma GetDrones_pages_witness :
  let ctx := Some (auth.mkPrincipal "root" "admin") in
  let req t := Some (adminv1.mkGetDronesRequest 2 t None None None None) in
  (AdminServer.GetDrones (fun _ _ => true) ctx (req "x") flight_db).2
  = inl (status.Error codes.InvalidArgument "invalid page_token")
  /\ exists l next,
       (AdminServer.GetDrones (fun _ _ => true) ctx (req "2") flight_db).2
       = inr (adminv1.mkGetDronesResponse (map AdminServer.toProtoAdminDrone l)
                (if next =? 0 then "" else strconv.FormatInt next))
       /\ (next = 0 \/ 2 < next).
Proof.
  cbv zeta. split.
  - destruct (GetDrones_pages (fun _ _ => true) _ _ flight_db
                (adminv1.mkGetDronesRequest 2 "x" None None None None) 2
                eq_refl RequireAdmin_root flight_ids) as [Hinv _].
    rewrite Hinv; [reflexivity |]. split; [discriminate | reflexivity].
  - destruct (GetDrones_pages (fun _ _ => true) _ _ flight_db
                (adminv1.mkGetDronesRequest 2 "2" None None None None) 2
                eq_refl RequireAdmin_root flight_ids) as [_ Hpage].
    destruct Hpage as (l & _ & _ & Hnext & Hget); [lia | reflexivity |].
    exists l. eexists. split; [rewrite Hget; reflexivity | exact Hnext].
Defined.

(** ** Reserving an order when a statement fails *)

(** A statement either is failed by the driver or runs on the tables. *)
Lemma exec_cases {A} (stmt : DB -> dberr + (DB * A)) (db : DB) :
  (exists fs, exec stmt db = (with_faults fs db, inl ErrDriver))
  \/ (exists fs,
        exec stmt db = match stmt (with_faults fs db) with
                       | inl e => (with_faults fs db, inl e)
                       | inr (db', a) => (db', inr a)
                       end).
Proof.
  unfold exec. destruct (faults db) as [| [|] fs]; [right | left | right]; eauto.
Qed.

(** The selection query, when the driver lets it run, returns the first
    available order of the tables. *)
Lemma next_available_runs (db : DB) (d : Z) :
  let r := OrderRepository.FindNextAvailableForReservation d db in
  exists fs, r.1 = with_faults fs db
    /\ (r.2 = inl ErrDriver
        \/ (exists o, r.2 = inr (Some o) /\ first_available db d o)
        \/ (r.2 = inr None /\ forall o, ~ available db d o)).
Proof.
  cbv zeta. unfold OrderRepository.FindNextAvailableForReservation, query.
  destruct (exec_cases
              (fun db => inr (db,
                 match merge_sort OrderRepository.precedes
                         (List.filter (OrderRepository.selectable (drones db) d)
                            (map_to_list (orders db))) with
                 | [] => None
                 | (id, r) :: _ => Some (Order.mk id r)
                 end)) db) as [[fs ->] | [fs ->]]; exists fs.
  - split; [reflexivity | now left].
  - split; [reflexivity | right].
    destruct (next_available_cases (with_faults [] db) d eq_refl)
      as [(o & Hrun & Hfirst) | [Hrun Hnone]];
      unfold OrderRepository.FindNextAvailableForReservation in Hrun;
      rewrite query_no_faults in Hrun by reflexivity;
      injection Hrun as Hrun.
    + left. exists o. split; [cbn [snd]; f_equal; exact Hrun | exact Hfirst].
    + right. split; [cbn [snd]; f_equal; exact Hrun | exact Hnone].
Qed.

(** What the two writes of [ReserveOrder] do, whatever the driver does. *)
Lemma AssignJob_free_runs (db : DB) (id o : Z) (r : Drone.row) :
  drones db !! id = Some r ->
  (forall k d, drones db !! k = Some d -> Drone.AssignedJob d <> Some o) ->
  is_Some (orders db !! o) ->
  exists fs,
    DroneRepository.AssignJob id o db = (with_faults fs db, inl ErrDriver)
    \/ DroneRepository.AssignJob id o db
       = (with_drones (alter (Drone.with_AssignedJob (Some o)) id (drones db))
            (with_faults fs db), inr tt).
Proof.
  intros Hrow Hun Ho. unfold DroneRepository.AssignJob.
  match goal with
  | |- context [exec ?s ?d] => destruct (exec_cases s d) as [[fs Hex] | [fs Hex]]
  end; exists fs; [now left | right].
  rewrite Hex. cbn [drones orders with_faults].
  rewrite Hrow, (job_taken_free _ _ _ Hun), bool_decide_eq_true_2 by exact Ho.
  reflexivity.
Qed.

Lemma AppendDronePath_runs (db : DB) (o d : Z) :
  exists fs,
    OrderRepository.AppendDronePath o d db = (with_faults fs db, inl ErrDriver)
    \/ OrderRepository.AppendDronePath o d db
       = (with_orders
            (alter (fun r => Order.with_DronePath
                               (OrderRepository.appended (strconv.FormatInt d)
                                  (Order.DronePath r)) r) o (orders db))
            (with_faults fs db), inr tt).
Proof.
  unfold OrderRepository.AppendDronePath. cbv zeta.
  match goal with
  | |- context [exec ?s ?d] => destruct (exec_cases s d) as [[fs Hex] | [fs Hex]]
  end; exists fs; [now left | right].
  rewrite Hex. reflexivity.
Qed.

(** X23. [ReserveOrder] writes twice, and the two writes are not undone: for a
    fixed drone without an assignment, whatever the driver does, either the
    call fails and no row has changed; or the drone's row carries the first
    available order and the call succeeds with the drone appended to the
    order's path; or the drone's row carries that order, the append has
    failed, and the call fails with an internal error. In this last case
    the order stays reserved: the same drone calling [ReserveOrder] again is
    refused with a precondition error. *)
Theorem ReserveOrder_keeps_assignment {cases : unicode.CaseRanges}
    (ctx : auth.Context) (db db1 : DB) (dr : Drone.t) :
  resolved db ctx dr db1 ->
  Drone.Status dr = DroneStatusFixed -> Drone.AssignedJob dr = None ->
  let after := DroneServer.ReserveOrder ctx db in
  users after.1 = users db
  /\ (((exists e, after.2 = inl e)
       /\ orders after.1 = orders db /\ drones after.1 = drones db)
      \/ exists o,
           first_available db (Drone.ID dr) o
           /\ drones after.1
              = alter (Drone.with_AssignedJob (Some (Order.ID o))) (Drone.ID dr) (drones db)
           /\ ((after.2 = inr (toProtoOrder (Some o))
                /\ orders after.1
                   = alter (fun r => Order.with_DronePath
                                       (OrderRepository.appended
                                          (strconv.FormatInt (Drone.ID dr))
                                          (Order.DronePath r)) r)
                       (Order.ID o) (orders db))
               \/ (after.2 = inl (status.Error codes.Internal "append drone path")
                   /\ orders after.1 = orders db
                   /\ forall dr' db2,
                        resolved after.1 ctx dr' db2 -> Drone.ID dr' = Drone.ID dr ->
                        (DroneServer.ReserveOrder ctx after.1).2
                        = inl (status.Error codes.FailedPrecondition
                                 "drone already has an assigned order")))).
Proof.
  intros Hres Hfixed Hfree after.
  pose proof (resolved_row _ _ _ _ Hres) as Hrow.
  destruct (resolved_faults _ _ _ _ Hres) as [f ->].
  assert (Hrun : after
            = (ord <~ orError codes.Internal "find order"
                        (OrderRepository.FindNextAvailableForReservation (Drone.ID dr)) ;;
               match ord with
               | None => fail (status.Error codes.FailedPrecondition
                                 "no available orders to reserve")
               | Some ord => DroneServer.reserve dr ord
               end) (with_faults f db)).
  { subst after. unfold DroneServer.ReserveOrder.
    rewrite (as_resolved _ _ _ _ _ Hres), Hfixed, Hfree.
    rewrite bool_decide_eq_false_2 by discriminate.
    now rewrite bool_decide_eq_false_2 by (intros H; now apply H). }
  clearbody after. subst after.
  destruct (next_available_runs (with_faults f db) (Drone.ID dr))
    as (fs & Hdb & Hcases).
  destruct (OrderRepository.FindNextAvailableForReservation _ _) as [db2 r] eqn:Hfind.
  cbn [fst snd] in Hdb, Hcases. subst db2.
  destruct Hcases as [-> | [(o & -> & Hfirst) | [-> Hnone]]].
  - rewrite (run_bind_err _ _ _ _ _ (run_orError_err _ _ _ _ _ _ Hfind)).
    split; [reflexivity |]. left. repeat split. eexists; reflexivity.
  - rewrite (run_bind _ _ _ _ _ (run_orError _ _ _ _ _ _ Hfind)).
    change (first_available db (Drone.ID dr) o) in Hfirst.
    pose proof Hfirst as [(Ho & Hun & _ & _) _].
    unfold DroneServer.reserve.
    destruct (AssignJob_free_runs (with_faults fs (with_faults f db))
                (Drone.ID dr) (Order.ID o) (Drone.cols dr) Hrow Hun)
      as [fs1 [Hassign | Hassign]]; [exists (Order.cols o); exact Ho | ..].
    + rewrite (run_bind_err _ _ _ _ _ (run_orError_err _ _ _ _ _ _ Hassign)).
      split; [reflexivity |]. left. repeat split. eexists; reflexivity.
    + rewrite (run_bind _ _ _ _ _ (run_orError _ _ _ _ _ _ Hassign)).
      match goal with
      | |- context [bind _ _ ?d] =>
          destruct (AppendDronePath_runs d (Order.ID o) (Drone.ID dr))
            as [fs2 [Happ | Happ]]
      end.
      * rewrite (run_bind_err _ _ _ _ _ (run_orError_err _ _ _ _ _ _ Happ)).
        split; [reflexivity |]. right. exists o. split; [exact Hfirst |].
        split; [reflexivity |]. right. split; [reflexivity |]. split; [reflexivity |].
        intros dr' db3 Hres' Hid.
        pose proof (resolved_row _ _ _ _ Hres') as Hrow'.
        rewrite Hid in Hrow'. cbn [drones with_faults with_drones fst] in Hrow'.
        rewrite lookup_alter_eq, Hrow in Hrow'. cbn [fmap option_fmap option_map] in Hrow'.
        injection Hrow' as Hcols.
        unfold DroneServer.ReserveOrder.
        rewrite (as_resolved _ _ _ _ _ Hres').
        assert (Hst : Drone.Status dr' = DroneStatusFixed).
        { unfold Drone.Status in *. now rewrite <- Hcols. }
        assert (Hjob : Drone.AssignedJob dr' = Some (Order.ID o)).
        { unfold Drone.AssignedJob. now rewrite <- Hcols. }
        rewrite Hst, Hjob.
        rewrite bool_decide_eq_false_2 by discriminate.
        now rewrite bool_decide_eq_true_2 by discriminate.
      * rewrite (run_bind _ _ _ _ _ (run_orError _ _ _ _ _ _ Happ)).
        split; [reflexivity |]. right. exists o. split; [exact Hfirst |].
        split; [reflexivity |]. left. split; reflexivity.
  - rewrite (run_bind _ _ _ _ _ (run_orError _ _ _ _ _ _ Hfind)).
    split; [reflexivity |]. left. repeat split. eexists; reflexivity.
Qed.

Lemma resolved_fleet_1_append_fails :
  resolved (with_faults [false; false; false; true] fleet_db) (as_drone "SER-1")
    (Drone.mk 1 (drone_at "alpha" "SER-1" 0 0 None DroneStatusFixed))
    (with_faults [false; false; true] fleet_db).
Proof. exists (auth.mkPrincipal "SER-1" "drone"). repeat split. Qed.

Lemma ReserveOrder_keeps_assignment_witness :
  let db := with_faults [false; false; false; true] fleet_db in
  let dr := Drone.mk 1 (drone_at "alpha" "SER-1" 0 0 None DroneStatusFixed) in
  let after := DroneServer.ReserveOrder (as_drone "SER-1") db in
  after.2 = inl (status.Error codes.Internal "append drone path")
  /\ users after.1 = users db
  /\ (((exists e, after.2 = inl e)
       /\ orders after.1 = orders db /\ drones after.1 = drones db)
      \/ exists o,
           first_available db (Drone.ID dr) o
           /\ drones after.1
              = alter (Drone.with_AssignedJob (Some (Order.ID o))) (Drone.ID dr) (drones db)
           /\ ((after.2 = inr (toProtoOrder (Some o))
                /\ orders after.1
                   = alter (fun r => Order.with_DronePath
                                       (OrderRepository.appended
                                          (strconv.FormatInt (Drone.ID dr))
                                          (Order.DronePath r)) r)
                       (Order.ID o) (orders db))
               \/ (after.2 = inl (status.Error codes.Internal "append drone path")
                   /\ orders after.1 = orders db
                   /\ forall dr' db2,
                        resolved after.1 (as_drone "SER-1") dr' db2 ->
                        Drone.ID dr' = Drone.ID dr ->
                        (DroneServer.ReserveOrder (as_drone "SER-1") after.1).2
                        = inl (status.Error codes.FailedPrecondition
                                 "drone already has an assigned order")))).
Proof.
  split; [vm_compute; reflexivity |].
  exact (ReserveOrder_keeps_assignment (as_drone "SER-1")
           (with_faults [false; false; false; true] fleet_db)
           (with_faults [false; false; true] fleet_db)
           (Drone.mk 1 (drone_at "alpha" "SER-1" 0 0 None DroneStatusFixed))
           resolved_fleet_1_append_fails eq_refl eq_refl).
Defined.
